(* ===== verification/_CoqProject ===== *)
-Q . S2P
Prelude.v
CInt.v
IEEE.v
GL.v
GLObjects.v
Shader.v
Diagnostics.v
FrameLoop.v
Geometry.v
Audio.v
Main.v
