(* ===== verification/Prelude.v ===== *)
(** * A verification library for sdl-gl-template ([src/main.c])

    The program is one C file.  It opens an SDL window with an OpenGL 4.1
    core context, builds a shader program, uploads a four-vertex quad,
    starts an SDL audio stream whose callback synthesises a 264 Hz tone,
    and runs a frame loop that moves the quad to the last mouse click.

    ** Parts of the program and how they interact

    - Diagnostics ([ErrorStringOpenGL], [ErrorDescriptionOpenGL],
      [CheckOpenGL], the [glCheck] macro): map a GL error code to a name and
      a description and drain the driver's queue of pending errors into
      stderr.  Used after almost every GL call of [main].
    - Program builder ([CompileShader], [CodeVS], [CodeFS]): creates,
      compiles and links the two stages in the GL object store, printing
      the info log on each failure; returns the program through [*Shader].
    - Geometry ([MeshData], lines 242-253 of [main]): the interleaved
      position/colour buffer, its vertex array, and the triangle strip the
      frame loop draws through the two shader stages.
    - Audio ([audio_data], [MyAudioCallback]): the only code that runs on
      the audio thread; it fills SDL's byte buffer with 16-bit stereo
      frames and advances [SamplesDone] in the [Audio] struct [main] owns.
    - Frame loop ([main], lines 259-291): drains SDL events, converts a
      click to normalised device coordinates, issues the per-frame GL
      commands through [glCheck] and swaps buffers until an [SDL_QUIT].
    - Start-up and tear-down ([main], lines 185-259 and 293-297): the
      chain of platform calls, each fatal on failure except the swap
      interval, the shader build and geometry set-up, the unpause of the
      audio device, then the release of the context, window and SDL.

    ** Files, in dependency order

    - [Prelude] (this file): the notation scope [sdl_scope], the hint
      databases [sdl]/[sdl_rw], shared tactics, block writes into a buffer
      ([list_write]) and integer facts.
    - [CInt]: C's integer types at their widths (int, Sint16, long as the
      class [LongWidth] with instances 32 and 64, size_t), conversions with
      wrap-around, signed overflow as undefined behaviour ([None]), and
      the little-endian layout of a [Sint16] ([s16_bytes]).
    - [IEEE]: [GLfloat] (binary32) and [double] (binary64) as the Standard
      Library's executable [SpecFloat], round to nearest even.
    - [GL]: the part of the GL context the frame loop touches ([gl_ctx]),
      the calls it makes ([gl_call], [gl_exec]) and the driver interface
      [GLDriver] (errors raised, uniform locations), with the setoid
      [same_but_errors].
    - [GLObjects]: shader and program objects in a [gmap] store with the
      calls of [CompileShader], the interface [ShaderDriver] (compile and
      link verdicts) and the store invariant [store_wf].
    - [Shader] (Module [ProgramBuilder]): [CompileShader] in a state monad
      over the store and stderr with [None] for undefined behaviour (the
      indeterminate [Success0]); its contract [build_result].
    - [Diagnostics]: the error names and descriptions, [glGetError] and
      [CheckOpenGL] as a loop with fuel.
    - [FrameLoop]: events, [handle_event], the drain, [render] in a state
      monad over [loop_state], the iteration and [main_loop] over a list of
      event batches, also as a step relation [loop_step].
    - [Geometry]: buffers and vertex arrays ([geo_state]) with the GL 4.1
      semantics of the set-up calls, [geometry_setup], vertex fetch, strip
      assembly, the GLSL declarations read off [CodeVS]/[CodeFS], and the
      two shader stages translated from the GLSL.
    - [Audio]: [MyAudioCallback] on an explicit [audio_data] and byte
      buffer, [sin] a section variable, with the reference [frames].
    - [Main]: [main] as a function of the platform's answers ([platform])
      and the event batches, returning the exit code, stderr, the trace of
      calls and the three GL states; the audio thread as schedules over
      the one shared [Audio] struct ([shared], [permitted]).

    ** What the theorems show

    - Frame loop (C1-C2, C4-C7, C10, C12-C14): one iteration's effect,
      the drain, [render] refines a reference without diagnostics, the
      loop until the first quit and without one, NDC bounds and
      injectivity, reachability invariant, independence from the driver's
      errors.
    - Diagnostics (C3, C8, C9, C11, C40): what [CheckOpenGL] prints, line
      by line, and drains; the name and description tables as a
      refinement of a closed enumeration of error kinds; exactly one
      iteration per pending error; what one [glCheck(X)] of the frame
      prints for the errors [X] raised, composed from the loop, the
      tables and [%d]; the printed numerals read back.
    - Audio (C15-C22, C33-C34): the callback equals the reference frames,
      buffer-split invariance, equivalence of the in-place loop, the
      counter at 32 and 64 bits, determinism, the untouched tail, negative
      lengths, the byte round trip and that only bytes are stored.
    - Program builder (C23-C27): refinement of [build_result], its
      contract, a second build, the leaks of the failure paths, the
      truncation of the info log.
    - Geometry (C28-C32): the set-up's result, every fetch in bounds, the
      declared interface matches the layout, the strip's two triangles,
      each corner within 3*2^-25 of the exact position after any click.
    - [main] (C35-C39): exit codes and messages of start-up failures (with
      nothing released), the clean exit and its tear-down order, the audio
      format against the callback, the absence of races on [Audio] in
      every permitted interleaving, and the composition of the shader
      build and geometry set-up with the frame loop.

    ** Bounds, fuel and assumptions

    [CheckOpenGL] is a loop with fuel: it ends within [length queue + 1]
    iterations, so the fuel it is given suffices and more changes nothing.  Statements over all
    pixels of the 1152x648 window are checked by evaluation over the whole
    range.  [long] is 32 or 64 bits ([LongWidth]).  The GPU's binary32
    addition in the vertex stage is taken as round to nearest even.  The GL
    calls follow the GL 4.1 core specification; the compile and link
    verdicts and the errors a call raises are the driver's ([ShaderDriver],
    [GLDriver]).  SDL delivers callbacks only while the device is unpaused,
    on buffers of [samples * channels * 2] bytes filled with silence, one
    at a time ([permitted], [shared]).

    ** What is not modelled

    SDL, glad and the GL driver are platform code: they appear only through
    the values the program reads back (event lists, start-up answers,
    error queues, verdicts) and the delivery rule of the audio thread.  The
    [ObtainedAudio] spec is not read by the program; with
    [allowed_changes = 0] SDL converts to the desired format, which is what
    the model assumes.  Rasterisation, the shader compiler, the C library's
    [sin], vsync timing and real time are out of scope. *)

From Stdlib Require Export ZArith Lia.
From stdpp Require Export base list gmap strings.

Declare Scope sdl_scope.
Delimit Scope sdl_scope with sdl.

Create HintDb sdl.
Create Rewrite HintDb sdl_rw.

(** ** In-place block writes into a buffer

    C code that fills a caller's buffer ([Samples[I].L = ...]) is modelled as
    a write of a block of cells at an offset into a list: the cells before
    and after the block are untouched and the length is unchanged. *)

Definition list_write {A} (l : list A) (off : nat) (xs : list A) : list A :=
  take off l ++ xs ++ drop (off + length xs) l.

Section ListWrite.
Context {A : Type}.
Implicit Types (l xs : list A).

Lemma list_write_length l off xs :
  off + length xs <= length l -> length (list_write l off xs) = length l.
Proof.
  intros H. unfold list_write.
  rewrite !length_app, length_take, length_drop. lia.
Qed.

Lemma list_write_lookup_before l off xs i :
  off <= length l -> i < off -> list_write l off xs !! i = l !! i.
Proof.
  intros H Hi. unfold list_write.
  rewrite lookup_app_l by (rewrite length_take; lia).
  apply lookup_take_lt; lia.
Qed.

Lemma list_write_lookup_inside l off xs i :
  off + length xs <= length l -> off <= i < off + length xs ->
  list_write l off xs !! i = xs !! (i - off).
Proof.
  intros H Hi. unfold list_write.
  rewrite lookup_app_r by (rewrite length_take; lia).
  rewrite length_take, Nat.min_l by lia.
  rewrite lookup_app_l by lia. done.
Qed.

Lemma list_write_lookup_after l off xs i :
  off + length xs <= length l -> off + length xs <= i ->
  list_write l off xs !! i = l !! i.
Proof.
  intros H Hi. unfold list_write.
  rewrite lookup_app_r by (rewrite length_take; lia).
  rewrite length_take, Nat.min_l by lia.
  rewrite lookup_app_r by lia. rewrite lookup_drop. f_equal. lia.
Qed.

Lemma list_write_nil l off : list_write l off [] = l.
Proof. unfold list_write. simpl. rewrite Nat.add_0_r. apply take_drop. Qed.

(** Writing two adjacent blocks is writing their concatenation. *)
Lemma list_write_app l off xs ys :
  off + length xs + length ys <= length l ->
  list_write (list_write l off xs) (off + length xs) ys = list_write l off (xs ++ ys).
Proof.
  intros H. apply list_eq. intros i.
  destruct (decide (i < off + length xs)) as [Hlt|Hge].
  - rewrite list_write_lookup_before by (rewrite ?list_write_length; lia).
    destruct (decide (i < off)).
    + rewrite !list_write_lookup_before by (rewrite ?list_write_length; lia). done.
    + rewrite !list_write_lookup_inside by (rewrite ?length_app; lia).
      rewrite lookup_app_l by lia. done.
  - destruct (decide (i < off + length xs + length ys)).
    + rewrite list_write_lookup_inside
        by (rewrite ?list_write_length; lia).
      rewrite list_write_lookup_inside by (rewrite ?length_app; lia).
      rewrite lookup_app_r by lia. f_equal. lia.
    + rewrite list_write_lookup_after by (rewrite ?list_write_length; lia).
      rewrite list_write_lookup_after by lia.
      rewrite list_write_lookup_after by (rewrite length_app; lia). done.
Qed.
(** A property of every cell survives a block write of cells that have it. *)
Lemma list_write_Forall (P : A -> Prop) l off xs :
  Forall P l -> Forall P xs -> Forall P (list_write l off xs).
Proof.
  intros Hl Hxs. unfold list_write. apply Forall_app; split; [by apply Forall_take|].
  apply Forall_app; split; [done|by apply Forall_drop].
Qed.
End ListWrite.

#[export] Hint Rewrite @list_write_nil : sdl_rw.

(** ** Shared tactics *)

(** Case on every [if]/[match] scrutinee of the goal, keeping the equation. *)
Ltac case_goal :=
  repeat match goal with
  | |- context [match ?x with _ => _ end] =>
      lazymatch x with context [match _ with _ => _ end] => fail | _ => idtac end;
      let E := fresh "E" in destruct x eqn:E
  end.

(** Turn the boolean comparisons on [Z] of the context into propositions. *)
Ltac Zbool_to_Prop :=
  repeat match goal with
  | H : (_ =? _)%Z = true |- _ => apply Z.eqb_eq in H
  | H : (_ =? _)%Z = false |- _ => apply Z.eqb_neq in H
  | H : (_ <=? _)%Z = true |- _ => apply Z.leb_le in H
  | H : (_ <=? _)%Z = false |- _ => apply Z.leb_gt in H
  | H : (_ <? _)%Z = true |- _ => apply Z.ltb_lt in H
  | H : (_ <? _)%Z = false |- _ => apply Z.ltb_ge in H
  end.

(** Replace every closed power of two [2 ^ c] of the goal and the context by
    its numeral, so that [lia] sees constants ([simpl] would leave
    [Z.pow_pos] terms that [lia] treats as atoms). *)
Ltac Zpow_norm :=
  repeat match goal with
  | |- context [(2 ^ ?c)%Z] =>
      let v := eval vm_compute in (2 ^ c)%Z in
      lazymatch v with Zpos _ => change (2 ^ c)%Z with v | Z0 => change (2 ^ c)%Z with v end
  | H : context [(2 ^ ?c)%Z] |- _ =>
      let v := eval vm_compute in (2 ^ c)%Z in
      lazymatch v with Zpos _ => change (2 ^ c)%Z with v in H | Z0 => change (2 ^ c)%Z with v in H end
  end.

(** ** Generic integer facts *)

Lemma Z_div_pos_bound (a b : Z) : (0 <= a)%Z -> (0 < b)%Z -> (0 <= a / b <= a)%Z.
Proof.
  intros Ha Hb. split; [apply Z.div_pos; lia|].
  apply Z.div_le_upper_bound; nia.
Qed.

Lemma Z2Nat_add_nonneg (a b : Z) :
  (0 <= a)%Z -> (0 <= b)%Z -> Z.to_nat (a + b) = (Z.to_nat a + Z.to_nat b)%nat.
Proof. intros. lia. Qed.

(** A boolean property checked on every integer of [0, n) by evaluation. *)
Lemma forallb_seq_Z (p : Z -> bool) (n : nat) :
  forallb (fun k => p (Z.of_nat k)) (seq 0 n) = true ->
  forall x, (0 <= x < Z.of_nat n)%Z -> p x = true.
Proof.
  intros H x Hx. rewrite forallb_forall in H.
  replace x with (Z.of_nat (Z.to_nat x)) by lia.
  apply H. apply in_seq. lia.
Qed.

#[export] Hint Resolve Z_div_pos_bound : sdl.
