(* ===== verification/CInt.v ===== *)
(** * C integer types at their widths

    [int] is 32 bits, [Sint16] 16 bits, [size_t] 64 bits and [Uint8] 8 bits on
    every target SDL2 supports.  [long] is 64 bits on LP64 targets (Linux,
    macOS) and 32 bits on LLP64 targets (Windows), so its width is a class
    parameter [LongWidth] and the audio theorems hold for both widths.

    Conversions follow C: to an unsigned type is reduction modulo [2^w];
    to a signed type, when the value does not fit, is implementation-defined
    and GCC, Clang and MSVC all reduce modulo [2^w] ([wrap_signed]).  Signed
    arithmetic that overflows is undefined behaviour, modelled as [None]. *)

From S2P Require Import Prelude.
Open Scope Z_scope.

Definition int_bits : Z := 32.
Definition short_bits : Z := 16.
Definition size_t_bits : Z := 64.
Definition byte_bits : Z := 8.

(** The width of C's [long]. *)
Class LongWidth (w : Z) : Prop := long_width_cases : w = 32 \/ w = 64.

#[export] Instance long_width_lp64 : LongWidth 64.
Proof. right. reflexivity. Qed.
#[export] Instance long_width_llp64 : LongWidth 32.
Proof. left. reflexivity. Qed.

Definition signed_min (w : Z) : Z := - 2 ^ (w - 1).
Definition signed_max (w : Z) : Z := 2 ^ (w - 1) - 1.

(** [z] is a value of the [w]-bit signed type. *)
Definition fits_signed (w z : Z) : bool := (signed_min w <=? z) && (z <=? signed_max w).

Notation "z '∈ₛ' w" := (fits_signed w z = true) (at level 70) : sdl_scope.
Open Scope sdl_scope.

(** Conversion to a [w]-bit unsigned type. *)
Definition wrap_unsigned (w z : Z) : Z := z mod 2 ^ w.

(** Conversion to a [w]-bit signed type (GCC's modulo reduction). *)
Definition wrap_signed (w z : Z) : Z := (z + 2 ^ (w - 1)) mod 2 ^ w - 2 ^ (w - 1).

(** Signed addition: undefined behaviour on overflow. *)
Definition signed_add (w a b : Z) : option Z :=
  if fits_signed w (a + b) then Some (a + b) else None.

Lemma fits_signed_iff w z : z ∈ₛ w <-> signed_min w <= z <= signed_max w.
Proof. unfold fits_signed. rewrite andb_true_iff, Z.leb_le, Z.leb_le. done. Qed.

Lemma wrap_signed_small w z :
  0 < w -> signed_min w <= z <= signed_max w -> wrap_signed w z = z.
Proof.
  unfold wrap_signed, signed_min, signed_max. intros Hw Hz.
  assert (2 ^ w = 2 * 2 ^ (w - 1)) as E.
  { rewrite <- Z.pow_succ_r by lia. f_equal. lia. }
  rewrite E, Z.mod_small; lia.
Qed.

Lemma wrap_signed_range w z :
  0 < w -> signed_min w <= wrap_signed w z <= signed_max w.
Proof.
  unfold wrap_signed, signed_min, signed_max. intros Hw.
  assert (2 ^ w = 2 * 2 ^ (w - 1)) as E.
  { rewrite <- Z.pow_succ_r by lia. f_equal. lia. }
  assert (0 < 2 ^ (w - 1)) by (apply Z.pow_pos_nonneg; lia).
  rewrite E. pose proof (Z.mod_pos_bound (z + 2 ^ (w - 1)) (2 * 2 ^ (w - 1))). lia.
Qed.

Lemma signed_add_Some w a b :
  signed_min w <= a + b <= signed_max w -> signed_add w a b = Some (a + b).
Proof. intros H. unfold signed_add. apply fits_signed_iff in H. by rewrite H. Qed.

Lemma signed_add_None w a b :
  ~ (signed_min w <= a + b <= signed_max w) -> signed_add w a b = None.
Proof.
  intros H. unfold signed_add. destruct (fits_signed w (a + b)) eqn:E; [|done].
  apply fits_signed_iff in E. contradiction.
Qed.

Lemma signed_add_Some_inv w a b c : signed_add w a b = Some c -> c = a + b ∧ a + b ∈ₛ w.
Proof. unfold signed_add. destruct (fits_signed w (a + b)) eqn:E; [|done]. by intros [= <-]. Qed.

Lemma signed_add_assoc w a b c : signed_add w (a + b) c = signed_add w a (b + c).
Proof. unfold signed_add. by rewrite Z.add_assoc. Qed.

Lemma wrap_signed_add_multiple w z k : wrap_signed w (z + k * 2 ^ w) = wrap_signed w z.
Proof. unfold wrap_signed. f_equal. by rewrite <- Z.add_assoc, (Z.add_comm (k * 2 ^ w)), Z.add_assoc, Z_mod_plus_full. Qed.

#[export] Hint Resolve wrap_signed_small wrap_signed_range : sdl.

(** ** [size_t] and [int] around [Len/sizeof(audio_sample)]

    [Len] is an [int]; [sizeof] is a [size_t]; the usual arithmetic
    conversions turn [Len] into a [size_t], the quotient is a [size_t] and
    the assignment to an [int] converts it back. *)
Definition int_div_sizeof (len size : Z) : Z :=
  wrap_signed int_bits (wrap_unsigned size_t_bits len / size).

Lemma int_div_sizeof_nonneg len size :
  0 <= len <= signed_max int_bits -> 0 < size ->
  int_div_sizeof len size = len / size.
Proof.
  unfold int_div_sizeof, wrap_unsigned, signed_max, int_bits, size_t_bits.
  intros Hl Hs. rewrite (Z.mod_small len) by lia.
  apply wrap_signed_small; unfold signed_min, signed_max; [lia|].
  pose proof (Z_div_pos_bound len size). lia.
Qed.

(** A negative [Len] becomes a huge [size_t]; the quotient wraps back to
    the floor of [Len / size] in [int] (for [size] dividing [2^64]). *)
Lemma int_div_sizeof_neg len :
  signed_min int_bits <= len < 0 -> int_div_sizeof len 4 = len / 4.
Proof.
  intros Hl. unfold int_div_sizeof, wrap_unsigned, size_t_bits.
  unfold signed_min, int_bits in Hl. Zpow_norm.
  assert (E : len mod 18446744073709551616 = len + 4611686018427387904 * 4)
    by (symmetry; apply Z.mod_unique with (-1); lia).
  rewrite E, Z.div_add by lia.
  replace 4611686018427387904 with (1073741824 * 2 ^ int_bits) by reflexivity.
  rewrite wrap_signed_add_multiple. apply wrap_signed_small; [unfold int_bits; lia|].
  unfold signed_min, signed_max, int_bits. Zpow_norm.
  pose proof (Z.div_mod len 4). pose proof (Z.mod_pos_bound len 4). lia.
Qed.


(** ** Little-endian layout of a [Sint16]

    [Samples[I].L = Value] stores the two bytes of [Value] in the buffer in
    the machine's byte order ([AUDIO_S16SYS]); the targets are
    little-endian. *)
Definition s16_bytes (v : Z) : list Z := [Z.land v 255; Z.land (Z.shiftr v 8) 255].

Definition s16_of_bytes (bs : list Z) : option Z :=
  match bs with
  | [lo; hi] => Some (wrap_signed short_bits (Z.lor lo (Z.shiftl hi 8)))
  | _ => None
  end.

Definition is_byte (b : Z) : bool := (0 <=? b) && (b <? 256).

Lemma land_255 (z : Z) : Z.land z 255 = z mod 256.
Proof. apply (Z.land_ones z 8). lia. Qed.

(** The low byte and the shifted high byte have no bit in common. *)
Lemma lor_shiftl_8 (lo hi : Z) :
  0 <= lo < 256 -> Z.lor lo (Z.shiftl hi 8) = lo + hi * 256.
Proof.
  intros Hlo.
  assert (Hdis : Z.land lo (Z.shiftl hi 8) = 0).
  { apply Z.bits_inj'. intros n Hn. rewrite Z.land_spec, Z.bits_0.
    destruct (Z_lt_le_dec n 8).
    - rewrite Z.shiftl_spec_low by lia. apply andb_false_r.
    - rewrite <- (Z.mod_small lo 256) by lia. change 256 with (2 ^ 8).
      rewrite Z.mod_pow2_bits_high by lia. reflexivity. }
  rewrite <- Z.lxor_lor by exact Hdis. rewrite <- Z.add_nocarry_lxor by exact Hdis.
  rewrite Z.shiftl_mul_pow2 by lia. reflexivity.
Qed.

Lemma s16_bytes_are_bytes v : Forall (fun b => is_byte b = true) (s16_bytes v).
Proof.
  unfold s16_bytes, is_byte. rewrite !land_255.
  repeat constructor; apply andb_true_iff; rewrite Z.leb_le, Z.ltb_lt;
    apply Z.mod_pos_bound; lia.
Qed.

(** Reading back the two stored bytes gives the stored value. *)
Lemma s16_of_bytes_s16_bytes v :
  v ∈ₛ short_bits -> s16_of_bytes (s16_bytes v) = Some v.
Proof.
  intros Hv. apply fits_signed_iff in Hv.
  unfold s16_of_bytes, s16_bytes. rewrite !land_255.
  rewrite lor_shiftl_8 by (apply Z.mod_pos_bound; lia).
  rewrite Z.shiftr_div_pow2 by lia. f_equal.
  unfold wrap_signed, short_bits, signed_min, signed_max in *. Zpow_norm.
  assert (E : v mod 256 + v / 256 mod 256 * 256 + 32768
              = (v + 32768) + (- (v / 256 / 256)) * 65536).
  { pose proof (Z.div_mod v 256). pose proof (Z.div_mod (v / 256) 256). lia. }
  rewrite E, Z_mod_plus_full, Z.mod_small by lia. lia.
Qed.

(** Two bytes are the layout of the value they decode to. *)
Lemma s16_bytes_s16_of_bytes lo hi v :
  is_byte lo = true -> is_byte hi = true ->
  s16_of_bytes [lo; hi] = Some v -> s16_bytes v = [lo; hi].
Proof.
  unfold is_byte. rewrite !andb_true_iff, !Z.leb_le, !Z.ltb_lt.
  intros Hlo Hhi [= <-]. unfold s16_bytes. rewrite !land_255.
  rewrite lor_shiftl_8 by lia. rewrite Z.shiftr_div_pow2 by lia.
  unfold wrap_signed, short_bits. Zpow_norm.
  assert (E : (lo + hi * 256 + 32768) mod 65536 - 32768
              = lo + (hi + (- ((lo + hi * 256 + 32768) / 65536)) * 256) * 256).
  { pose proof (Z.div_mod (lo + hi * 256 + 32768) 65536). lia. }
  rewrite E, Z_mod_plus_full, Z.mod_small by lia.
  rewrite Z.div_add, Z.div_small, Z.add_0_l by lia.
  rewrite Z_mod_plus_full, Z.mod_small by lia. done.
Qed.


