(* ===== verification/IEEE.v ===== *)
(** * IEEE 754 binary32 and binary64 arithmetic

    [GLfloat] is binary32 and [double] is binary64; on the targets
    ([FLT_EVAL_METHOD == 0], SSE) every C operation on them rounds once to
    nearest-even in its own format.  The Standard Library's [SpecFloat] is an
    executable specification of exactly these operations, parametrised by the
    precision and the maximal exponent, so [fmul32 x y] is the C expression
    [x*y] on two [float]s and [vm_compute] evaluates it.

    Conversions: an integer operand of a floating operation is converted by
    rounding ([of_Z]); a floating value assigned to an integer variable is
    truncated toward zero and is undefined behaviour when the result does not
    fit the target type ([to_signed]). *)

From S2P Require Import Prelude CInt.
From Stdlib Require Export Floats.SpecFloat QArith Qabs.
Open Scope Z_scope.
Open Scope sdl_scope.

Section Format.
Context (prec emax : Z).

(** Integer to floating point, rounding to nearest-even. *)
Definition fl_of_Z (z : Z) : spec_float := binary_normalize prec emax z 0 false.

(** C's conversion to an integer: truncation toward zero; NaN and the
    infinities have no value. *)
Definition fl_trunc (x : spec_float) : option Z :=
  match x with
  | S754_zero _ => Some 0
  | S754_finite s m e =>
      let a := if 0 <=? e then Z.shiftl (Zpos m) e else Z.shiftr (Zpos m) (- e) in
      Some (if s then - a else a)
  | _ => None
  end.

(** Assignment of a floating value to a [w]-bit signed integer variable. *)
Definition fl_to_signed (w : Z) (x : spec_float) : option Z :=
  match fl_trunc x with
  | Some z => if fits_signed w z then Some z else None
  | None => None
  end.
End Format.

(** The two formats of the program. *)
Definition prec32 : Z := 24.
Definition emax32 : Z := 128.
Definition prec64 : Z := 53.
Definition emax64 : Z := 1024.

Definition f32_of_Z := fl_of_Z prec32 emax32.
Definition fadd32 := SFadd prec32 emax32.
Definition fsub32 := SFsub prec32 emax32.
Definition fmul32 := SFmul prec32 emax32.
Definition fdiv32 := SFdiv prec32 emax32.

Definition f64_of_Z := fl_of_Z prec64 emax64.
Definition fadd64 := SFadd prec64 emax64.
Definition fmul64 := SFmul prec64 emax64.
Definition fdiv64 := SFdiv prec64 emax64.

Declare Scope f32_scope.
Delimit Scope f32_scope with f32.
Infix "+" := fadd32 : f32_scope.
Infix "-" := fsub32 : f32_scope.
Infix "*" := fmul32 : f32_scope.
Infix "/" := fdiv32 : f32_scope.

Declare Scope f64_scope.
Delimit Scope f64_scope with f64.
Infix "+" := fadd64 : f64_scope.
Infix "*" := fmul64 : f64_scope.
Infix "/" := fdiv64 : f64_scope.

(** [M_PI] as the binary64 literal 3.141592653589793 (0x400921FB54442D18). *)
Definition M_PI : spec_float := S754_finite false 7074237752028440 (-51).

(** The float literals of the program that are integers ([1.0f], [2.0f],
    [-2.0f]) are the conversions of those integers. *)
Definition f32_lit (z : Z) : spec_float := f32_of_Z z.

(** ** Facts used by the components *)

Lemma M_PI_valid : valid_binary prec64 emax64 M_PI = true.
Proof. reflexivity. Qed.

(** ** Exact values

    The rational number a finite float denotes ([0] for NaN and the
    infinities, which [fl_finite] excludes). *)
Definition fl_finite (x : spec_float) : bool :=
  match x with S754_zero _ | S754_finite _ _ _ => true | _ => false end.

Definition fl_to_Q (x : spec_float) : Q :=
  match x with
  | S754_finite s m e =>
      let q := if 0 <=? e then inject_Z (Zpos m * 2 ^ e) else Zpos m # Z.to_pos (2 ^ (- e)) in
      if s then Qopp q else q
  | _ => 0
  end.

Definition Qltb (a b : Q) : bool := negb (Qle_bool b a).

Lemma Qltb_lt a b : Qltb a b = true <-> (a < b)%Q.
Proof.
  unfold Qltb. rewrite negb_true_iff. split.
  - intros H. apply Qnot_le_lt. intros H'. apply Qle_bool_iff in H'. congruence.
  - intros H. destruct (Qle_bool b a) eqn:E; [|done].
    apply Qle_bool_iff in E. exfalso. by apply (Qlt_not_le a b).
Qed.
