(* ===== verification/GL.v ===== *)
(** * The OpenGL context as the program sees it

    The program drives the GL context through calls ([glClear],
    [glUseProgram], ...) and reads back return values and error codes.  This
    file models the part of the context state those calls touch: the clear
    colour, the current program, the bound vertex array, the uniforms of
    each program, the queue of pending error codes and the log of draws.

    What the driver decides on its own (which calls raise which errors, the
    location it gives a uniform) is the interface [GLDriver]: theorems are
    proved for every driver, and the only promise a driver makes is that the
    codes it raises are real errors (not [GL_NO_ERROR]). *)

From S2P Require Import Prelude CInt IEEE.
Open Scope Z_scope.

(** ** Constants of [glad/glad.h] used by [src/main.c] *)
Definition GLenum := Z.
Definition GL_NO_ERROR : GLenum := 0.
Definition GL_INVALID_ENUM : GLenum := 0x0500.
Definition GL_INVALID_VALUE : GLenum := 0x0501.
Definition GL_INVALID_OPERATION : GLenum := 0x0502.
(** [src/main.c] lines 8-25 define the next six codes under [#ifndef]
    guards; where [glad.h] defines one of them it has the same value (the
    GL registry's), so each name denotes that value either way. *)
Definition GL_STACK_OVERFLOW : GLenum := 0x0503.
Definition GL_STACK_UNDERFLOW : GLenum := 0x0504.
Definition GL_OUT_OF_MEMORY : GLenum := 0x0505.
Definition GL_INVALID_FRAMEBUFFER_OPERATION : GLenum := 0x0506.
Definition GL_CONTEXT_LOST : GLenum := 0x0507.
Definition GL_TABLE_TOO_LARGE1 : GLenum := 0x8031.

Definition GL_COLOR_BUFFER_BIT : GLenum := 0x00004000.
Definition GL_TRIANGLE_STRIP : GLenum := 0x0005.
Definition GL_FRAMEBUFFER_SRGB : GLenum := 0x8DB9.

(** ** Calls *)
Inductive gl_call :=
| glClearColor (r g b a : spec_float)
| glClear (mask : GLenum)
| glUseProgram (program : Z)
| glGetUniformLocation (program : Z) (name : string)
| glUniform2fv (location : Z) (count : Z) (value : spec_float * spec_float)
| glBindVertexArray (vao : Z)
| glDrawArrays (mode : GLenum) (first count : Z)
| glEnable (cap : GLenum).

(** What a draw call saw: the program, the vertex array, the primitive
    range and the value of the program's [ModelP] uniform. *)
Record draw_info := {
  draw_program : Z;
  draw_vao : Z;
  draw_mode : GLenum;
  draw_first : Z;
  draw_count : Z;
  draw_ModelP : option (spec_float * spec_float)
}.

Record gl_ctx := {
  clear_color : spec_float * spec_float * spec_float * spec_float;
  current_program : Z;
  bound_vao : Z;
  uniforms : gmap (Z * Z) (spec_float * spec_float);
  enabled : list GLenum;
  cleared : nat;
  draws : list draw_info;
  errors : list GLenum
}.

(** The driver: errors raised by a call in a context, and uniform locations
    of linked programs ([-1] for a name the program does not use). *)
Class GLDriver := {
  gl_raise : gl_ctx -> gl_call -> list GLenum;
  gl_uniform_location : Z -> string -> Z;
  gl_raise_errors : forall c k, Forall (fun e => e <> GL_NO_ERROR) (gl_raise c k)
}.

Section Exec.
Context `{GLDriver}.

Definition set_errors (c : gl_ctx) (q : list GLenum) : gl_ctx :=
  {| clear_color := clear_color c; current_program := current_program c;
     bound_vao := bound_vao c; uniforms := uniforms c; enabled := enabled c;
     cleared := cleared c; draws := draws c; errors := q |}.

(** The effect of a call on the context, before its errors are queued. *)
Definition gl_effect (c : gl_ctx) (k : gl_call) : gl_ctx :=
  match k with
  | glClearColor r g b a =>
      {| clear_color := (r, g, b, a); current_program := current_program c;
         bound_vao := bound_vao c; uniforms := uniforms c; enabled := enabled c;
         cleared := cleared c; draws := draws c; errors := errors c |}
  | glClear _ =>
      {| clear_color := clear_color c; current_program := current_program c;
         bound_vao := bound_vao c; uniforms := uniforms c; enabled := enabled c;
         cleared := S (cleared c); draws := draws c; errors := errors c |}
  | glUseProgram p =>
      {| clear_color := clear_color c; current_program := p;
         bound_vao := bound_vao c; uniforms := uniforms c; enabled := enabled c;
         cleared := cleared c; draws := draws c; errors := errors c |}
  | glGetUniformLocation _ _ => c
  | glUniform2fv loc _ v =>
      if decide (loc = -1) then c else
      {| clear_color := clear_color c; current_program := current_program c;
         bound_vao := bound_vao c;
         uniforms := <[(current_program c, loc) := v]> (uniforms c);
         enabled := enabled c; cleared := cleared c; draws := draws c;
         errors := errors c |}
  | glBindVertexArray v =>
      {| clear_color := clear_color c; current_program := current_program c;
         bound_vao := v; uniforms := uniforms c; enabled := enabled c;
         cleared := cleared c; draws := draws c; errors := errors c |}
  | glDrawArrays mode first count =>
      let p := current_program c in
      let d := {| draw_program := p; draw_vao := bound_vao c; draw_mode := mode;
                  draw_first := first; draw_count := count;
                  draw_ModelP := uniforms c !! (p, gl_uniform_location p "ModelP") |} in
      {| clear_color := clear_color c; current_program := p;
         bound_vao := bound_vao c; uniforms := uniforms c; enabled := enabled c;
         cleared := cleared c; draws := draws c ++ [d]; errors := errors c |}
  | glEnable cap =>
      {| clear_color := clear_color c; current_program := current_program c;
         bound_vao := bound_vao c; uniforms := uniforms c; enabled := cap :: enabled c;
         cleared := cleared c; draws := draws c; errors := errors c |}
  end.

(** The value a call returns ([glGetUniformLocation] only; 0 otherwise). *)
Definition gl_result (k : gl_call) : Z :=
  match k with
  | glGetUniformLocation p name => gl_uniform_location p name
  | _ => 0
  end.

(** Executing a call: its effect, then the errors it raised are queued. *)
Definition gl_exec (c : gl_ctx) (k : gl_call) : gl_ctx * Z :=
  let c' := gl_effect c k in
  (set_errors c' (errors c' ++ gl_raise c k), gl_result k).

(** [glGetError]: the oldest pending error, removed from the queue, or
    [GL_NO_ERROR] when none is pending. *)
Definition glGetError (c : gl_ctx) : GLenum * gl_ctx :=
  match errors c with
  | [] => (GL_NO_ERROR, c)
  | e :: q => (e, set_errors c q)
  end.
End Exec.

(** Every field but the error queue. *)
Definition same_but_errors (c c' : gl_ctx) : Prop :=
  set_errors c [] = set_errors c' [].

Lemma set_errors_errors c q : errors (set_errors c q) = q.
Proof. reflexivity. Qed.

Lemma set_errors_twice c q q' : set_errors (set_errors c q) q' = set_errors c q'.
Proof. reflexivity. Qed.

Lemma same_but_errors_set c q : same_but_errors (set_errors c q) c.
Proof. reflexivity. Qed.

#[export] Instance same_but_errors_equiv : Equivalence same_but_errors.
Proof.
  unfold same_but_errors. split.
  - intros c. reflexivity.
  - intros c c' E. by rewrite E.
  - intros c1 c2 c3 E1 E2. by rewrite E1.
Qed.

#[export] Hint Resolve same_but_errors_set : sdl.
#[export] Hint Rewrite set_errors_errors set_errors_twice : sdl_rw.

Lemma glGetError_same c : same_but_errors (snd (glGetError c)) c.
Proof. unfold glGetError. destruct (errors c); simpl; [reflexivity|apply same_but_errors_set]. Qed.

(** The queue holds real errors only: [GL_NO_ERROR] is never queued. *)
Definition queue_ok (c : gl_ctx) : Prop := Forall (fun e => e <> GL_NO_ERROR) (errors c).

Lemma set_errors_nil c : errors c = [] -> set_errors c [] = c.
Proof. destruct c; simpl; intros ->; reflexivity. Qed.

Lemma gl_exec_queue_ok `{GLDriver} c k : queue_ok c -> queue_ok (fst (gl_exec c k)).
Proof.
  unfold queue_ok, gl_exec. simpl. intros Hq. apply Forall_app. split; [|apply gl_raise_errors].
  destruct k; simpl; try exact Hq. by case_decide.
Qed.

(** The context right after [SDL_GL_CreateContext]: GL's initial state. *)
Definition gl_ctx0 : gl_ctx :=
  {| clear_color := (S754_zero false, S754_zero false, S754_zero false, S754_zero false);
     current_program := 0; bound_vao := 0; uniforms := ∅; enabled := [];
     cleared := 0; draws := []; errors := [] |}.

#[export] Hint Resolve gl_exec_queue_ok : sdl.

(** ** Calls do not look at the error queue

    [same_but_errors] is an equivalence coarser than equality; the effect
    of a call respects it, so the GL state a program reaches does not depend
    on which errors were pending or drained on the way. *)

Lemma same_but_errors_fields c c' :
  same_but_errors c c' ->
  clear_color c = clear_color c' ∧ current_program c = current_program c' ∧
  bound_vao c = bound_vao c' ∧ uniforms c = uniforms c' ∧ enabled c = enabled c' ∧
  cleared c = cleared c' ∧ draws c = draws c'.
Proof. destruct c, c'. unfold same_but_errors, set_errors. simpl. intros [=]. subst. done. Qed.

#[export] Instance gl_effect_proper `{GLDriver} :
  Proper (same_but_errors ==> eq ==> same_but_errors) gl_effect.
Proof.
  intros c c' E k ? <-. pose proof (same_but_errors_fields c c' E) as F. destruct_and!.
  destruct c, c'; simpl in *; subst.
  destruct k; unfold same_but_errors, set_errors; simpl; try case_decide; reflexivity.
Qed.

Lemma gl_exec_effect `{GLDriver} c k : same_but_errors (fst (gl_exec c k)) (gl_effect c k).
Proof. apply same_but_errors_set. Qed.

(** ** Two drivers

    [quiet_driver] raises nothing; [noisy_driver] raises
    [GL_INVALID_OPERATION] on every draw and [GL_INVALID_VALUE] on every
    uniform upload.  Both put [ModelP] at location 0. *)
Definition quiet_driver : GLDriver :=
  {| gl_raise _ _ := []; gl_uniform_location _ _ := 0;
     gl_raise_errors _ _ := Forall_nil_2 _ |}.

Definition noisy_raise (c : gl_ctx) (k : gl_call) : list GLenum :=
  match k with
  | glDrawArrays _ _ _ => [GL_INVALID_OPERATION]
  | glUniform2fv _ _ _ => [GL_INVALID_VALUE]
  | _ => []
  end.

Lemma noisy_raise_errors c k : Forall (fun e => e <> GL_NO_ERROR) (noisy_raise c k).
Proof. destruct k; repeat constructor; discriminate. Qed.

Definition noisy_driver : GLDriver :=
  {| gl_raise := noisy_raise; gl_uniform_location _ _ := 0;
     gl_raise_errors := noisy_raise_errors |}.
