(* ===== verification/GLObjects.v ===== *)
(** * The GL object store: shader and program objects

    [CompileShader] manipulates GL objects through names: it creates shader
    and program objects, sets a source, compiles, attaches, links, reads the
    status and the info log back, detaches and deletes.  This file models
    the part of the GL 4.1 core specification those calls rely on: shaders
    and programs share one namespace of nonzero names, a deleted shader that
    is still attached is only flagged for deletion and disappears when it is
    detached, a call on a name of the wrong kind raises
    [GL_INVALID_OPERATION] and one on no object raises [GL_INVALID_VALUE]
    (and writes no result).  Errors are queued in [pending], the same queue
    [glGetError] reads.

    The verdicts of the shader compiler and of the linker are the driver's:
    [ShaderDriver] is that interface.  Linking never succeeds when an
    attached shader did not compile. *)

From S2P Require Import Prelude GL.
Open Scope Z_scope.

Module GLObjects.

Definition GL_FALSE : Z := 0.
Definition GL_TRUE : Z := 1.
Definition GL_FRAGMENT_SHADER : GLenum := 0x8B30.
Definition GL_VERTEX_SHADER : GLenum := 0x8B31.
Definition GL_COMPILE_STATUS : GLenum := 0x8B81.
Definition GL_LINK_STATUS : GLenum := 0x8B82.

Record shader_obj := {
  sh_type : GLenum;
  sh_source : option string;
  sh_compiled : bool;
  sh_log : string;
  sh_delete : bool
}.

Record program_obj := {
  pr_attached : list Z;
  pr_linked : bool;
  pr_log : string
}.

Inductive gl_object :=
| ShaderObj (s : shader_obj)
| ProgramObj (p : program_obj).

Record gl_store := {
  objects : gmap Z gl_object;
  next_name : Z;
  pending : list GLenum
}.

(** The compiler's verdict on a source of a stage, and the linker's on the
    attached shaders, each with the info log it leaves. *)
Class ShaderDriver := {
  compile_verdict : GLenum -> string -> bool * string;
  link_verdict : list shader_obj -> bool * string
}.

Definition bool_to_GL (b : bool) : Z := if b then GL_TRUE else GL_FALSE.

Definition set_objects (st : gl_store) (m : gmap Z gl_object) : gl_store :=
  {| objects := m; next_name := next_name st; pending := pending st |}.

Definition raise (st : gl_store) (e : GLenum) : gl_store :=
  {| objects := objects st; next_name := next_name st; pending := pending st ++ [e] |}.

(** A fresh name: the store hands them out in increasing order. *)
Definition create (st : gl_store) (o : gl_object) : Z * gl_store :=
  let n := next_name st in
  (n, {| objects := <[n := o]> (objects st); next_name := n + 1; pending := pending st |}).

(** The object a shader call addresses, or the error it raises. *)
Definition shader_at (st : gl_store) (n : Z) : GLenum + shader_obj :=
  match objects st !! n with
  | Some (ShaderObj s) => inr s
  | Some (ProgramObj _) => inl GL_INVALID_OPERATION
  | None => inl GL_INVALID_VALUE
  end.

Definition program_at (st : gl_store) (n : Z) : GLenum + program_obj :=
  match objects st !! n with
  | Some (ProgramObj p) => inr p
  | Some (ShaderObj _) => inl GL_INVALID_OPERATION
  | None => inl GL_INVALID_VALUE
  end.

Definition update_shader (st : gl_store) (n : Z) (f : shader_obj -> shader_obj) : gl_store :=
  match shader_at st n with
  | inr s => set_objects st (<[n := ShaderObj (f s)]> (objects st))
  | inl e => raise st e
  end.

Definition update_program (st : gl_store) (n : Z) (f : program_obj -> program_obj) : gl_store :=
  match program_at st n with
  | inr p => set_objects st (<[n := ProgramObj (f p)]> (objects st))
  | inl e => raise st e
  end.

Definition empty_shader (type : GLenum) : shader_obj :=
  {| sh_type := type; sh_source := None; sh_compiled := false;
     sh_log := EmptyString; sh_delete := false |}.

Definition empty_program : program_obj :=
  {| pr_attached := []; pr_linked := false; pr_log := EmptyString |}.

(** Is shader [s] attached to some program of the store? *)
Definition attached_anywhere (st : gl_store) (s : Z) : bool :=
  existsb (fun kv => match kv.2 with
                     | ProgramObj p => bool_decide (s ∈ pr_attached p)
                     | ShaderObj _ => false
                     end) (map_to_list (objects st)).

Section Calls.
Context `{ShaderDriver}.

Definition glCreateShader (type : GLenum) (st : gl_store) : Z * gl_store :=
  if decide (type = GL_VERTEX_SHADER ∨ type = GL_FRAGMENT_SHADER)
  then create st (ShaderObj (empty_shader type))
  else (0, raise st GL_INVALID_ENUM).

Definition glShaderSource (n : Z) (src : string) (st : gl_store) : gl_store :=
  update_shader st n (fun s =>
    {| sh_type := sh_type s; sh_source := Some src; sh_compiled := sh_compiled s;
       sh_log := sh_log s; sh_delete := sh_delete s |}).

Definition glCompileShader (n : Z) (st : gl_store) : gl_store :=
  update_shader st n (fun s =>
    let v := compile_verdict (sh_type s) (default EmptyString (sh_source s)) in
    {| sh_type := sh_type s; sh_source := sh_source s; sh_compiled := v.1;
       sh_log := v.2; sh_delete := sh_delete s |}).

(** [glGetShaderiv(n, GL_COMPILE_STATUS, &x)]: [None] when [x] is not written. *)
Definition glGetShaderiv (n : Z) (pname : GLenum) (st : gl_store) : option Z * gl_store :=
  match shader_at st n with
  | inr s => if decide (pname = GL_COMPILE_STATUS) then (Some (bool_to_GL (sh_compiled s)), st)
             else (None, raise st GL_INVALID_ENUM)
  | inl e => (None, raise st e)
  end.

(** [glGet*InfoLog(n, maxLength, &Length, Buf)] writes at most
    [maxLength - 1] characters and a terminator; [Length] counts the
    characters. *)
Definition info_log (maxLength : Z) (log : string) : Z * string :=
  let k := Nat.min (String.length log) (Z.to_nat (maxLength - 1)) in
  (Z.of_nat k, String.substring 0 k log).

Definition glGetShaderInfoLog (n : Z) (maxLength : Z) (st : gl_store) : option (Z * string) * gl_store :=
  match shader_at st n with
  | inr s => (Some (info_log maxLength (sh_log s)), st)
  | inl e => (None, raise st e)
  end.

Definition glCreateProgram (st : gl_store) : Z * gl_store :=
  create st (ProgramObj empty_program).

Definition glAttachShader (p s : Z) (st : gl_store) : gl_store :=
  match program_at st p, shader_at st s with
  | inr po, inr _ =>
      if bool_decide (s ∈ pr_attached po) then raise st GL_INVALID_OPERATION
      else set_objects st (<[p := ProgramObj {| pr_attached := pr_attached po ++ [s];
                                                pr_linked := pr_linked po;
                                                pr_log := pr_log po |}]> (objects st))
  | inl e, _ => raise st e
  | _, inl e => raise st e
  end.

Definition attached_shaders (st : gl_store) (po : program_obj) : list shader_obj :=
  omap (fun n => match objects st !! n with Some (ShaderObj s) => Some s | _ => None end)
       (pr_attached po).

Definition glLinkProgram (p : Z) (st : gl_store) : gl_store :=
  update_program st p (fun po =>
    let ss := attached_shaders st po in
    let v := link_verdict ss in
    {| pr_attached := pr_attached po; pr_linked := forallb sh_compiled ss && v.1;
       pr_log := v.2 |}).

Definition glGetProgramiv (p : Z) (pname : GLenum) (st : gl_store) : option Z * gl_store :=
  match program_at st p with
  | inr po => if decide (pname = GL_LINK_STATUS) then (Some (bool_to_GL (pr_linked po)), st)
              else (None, raise st GL_INVALID_ENUM)
  | inl e => (None, raise st e)
  end.

Definition glGetProgramInfoLog (p : Z) (maxLength : Z) (st : gl_store) : option (Z * string) * gl_store :=
  match program_at st p with
  | inr po => (Some (info_log maxLength (pr_log po)), st)
  | inl e => (None, raise st e)
  end.

(** A shader flagged for deletion goes away once no program holds it. *)
Definition collect (st : gl_store) (s : Z) : gl_store :=
  match objects st !! s with
  | Some (ShaderObj so) =>
      if sh_delete so && negb (attached_anywhere st s) then set_objects st (delete s (objects st))
      else st
  | _ => st
  end.

Definition glDetachShader (p s : Z) (st : gl_store) : gl_store :=
  match program_at st p, shader_at st s with
  | inr po, inr _ =>
      if bool_decide (s ∈ pr_attached po) then
        collect (set_objects st (<[p := ProgramObj {| pr_attached := list_difference (pr_attached po) [s];
                                                      pr_linked := pr_linked po;
                                                      pr_log := pr_log po |}]> (objects st))) s
      else raise st GL_INVALID_OPERATION
  | inl e, _ => raise st e
  | _, inl e => raise st e
  end.

Definition glDeleteShader (s : Z) (st : gl_store) : gl_store :=
  if decide (s = 0) then st else
  match shader_at st s with
  | inr so =>
      collect (set_objects st (<[s := ShaderObj {| sh_type := sh_type so; sh_source := sh_source so;
                                                  sh_compiled := sh_compiled so; sh_log := sh_log so;
                                                  sh_delete := true |}]> (objects st))) s
  | inl e => raise st e
  end.
End Calls.

(** ** The store invariant

    Names are positive and below the allocator's next name, and programs
    only hold names that were handed out.  Then the next name is fresh, for
    objects and for attachments alike. *)

Definition attached_ok (nx : Z) (o : gl_object) : Prop :=
  match o with
  | ProgramObj po => Forall (fun s => 0 < s < nx) (pr_attached po)
  | ShaderObj _ => True
  end.

Definition store_wf (st : gl_store) : Prop :=
  0 < next_name st ∧
  map_Forall (fun n o => 0 < n < next_name st ∧ attached_ok (next_name st) o) (objects st).

Lemma attached_ok_mono nx nx' o : nx <= nx' -> attached_ok nx o -> attached_ok nx' o.
Proof.
  destruct o; simpl; [done|]. intros Hle H. eapply Forall_impl; [exact H|]. simpl. intros. lia.
Qed.

Lemma store_wf_fresh st n : store_wf st -> next_name st <= n -> objects st !! n = None.
Proof.
  intros [_ Hm] Hn. destruct (objects st !! n) as [o|] eqn:E; [|done].
  apply Hm in E. lia.
Qed.

Lemma store_wf_not_attached st p po s :
  store_wf st -> objects st !! p = Some (ProgramObj po) -> next_name st <= s ->
  s ∉ pr_attached po.
Proof.
  intros [_ Hm] Hp Hs Hin. apply Hm in Hp as [_ Hp]. simpl in Hp.
  rewrite Forall_forall in Hp. apply Hp in Hin. lia.
Qed.

Lemma attached_anywhere_false st s :
  (∀ p po, objects st !! p = Some (ProgramObj po) -> s ∉ pr_attached po) ->
  attached_anywhere st s = false.
Proof.
  intros Hno. unfold attached_anywhere. apply not_true_iff_false.
  rewrite existsb_exists. intros ([p o] & Hin & Hs). apply list_elem_of_In in Hin.
  apply elem_of_map_to_list in Hin. simpl in Hs. destruct o as [|po]; [done|].
  apply bool_decide_eq_true in Hs. by apply (Hno p po).
Qed.

Lemma wf_raise st e : store_wf st -> store_wf (raise st e).
Proof. done. Qed.

Lemma wf_set_insert st n o :
  store_wf st -> is_Some (objects st !! n) -> attached_ok (next_name st) o ->
  store_wf (set_objects st (<[n := o]> (objects st))).
Proof.
  intros [Hp Hm] [o' Ho'] Ho. split; [done|]. simpl. apply map_Forall_insert_2; [|done].
  split; [|done]. apply Hm in Ho'. lia.
Qed.

Lemma wf_set_delete st n : store_wf st -> store_wf (set_objects st (delete n (objects st))).
Proof. intros [Hp Hm]. split; [done|]. by apply map_Forall_delete. Qed.

Lemma wf_insert_fresh st k o nx :
  store_wf st -> next_name st <= k < nx -> attached_ok nx o ->
  store_wf {| objects := <[k := o]> (objects st); next_name := nx; pending := pending st |}.
Proof.
  intros [Hp Hm] Hk Ho. split; simpl; [lia|]. apply map_Forall_insert_2; [split; [lia|done]|].
  eapply map_Forall_impl; [exact Hm|]. simpl. intros n o' [? Ho']. split; [lia|].
  apply (attached_ok_mono (next_name st)); [lia|exact Ho'].
Qed.

Lemma wf_create st o :
  store_wf st -> attached_ok (next_name st) o -> store_wf (create st o).2.
Proof.
  intros [Hp Hm] Ho. unfold create; simpl. split; simpl; [lia|]. apply map_Forall_insert_2.
  - split; [lia|]. apply (attached_ok_mono (next_name st)); [lia|exact Ho].
  - eapply map_Forall_impl; [exact Hm|]. simpl. intros n o' [? Ho']. split; [lia|].
    apply (attached_ok_mono (next_name st)); [lia|exact Ho'].
Qed.

Lemma shader_at_Some st n s : shader_at st n = inr s -> objects st !! n = Some (ShaderObj s).
Proof. unfold shader_at. by destruct (objects st !! n) as [[]|]; intros [=->]. Qed.

Lemma program_at_Some st n p : program_at st n = inr p -> objects st !! n = Some (ProgramObj p).
Proof. unfold program_at. by destruct (objects st !! n) as [[]|]; intros [=->]. Qed.

Lemma wf_program_attached st n p : store_wf st -> program_at st n = inr p -> attached_ok (next_name st) (ProgramObj p).
Proof. intros [_ Hm] Hp. apply program_at_Some, Hm in Hp. apply Hp. Qed.

Lemma wf_update_shader st n f : store_wf st -> store_wf (update_shader st n f).
Proof.
  unfold update_shader. intros Hwf. destruct (shader_at st n) eqn:E; [by apply wf_raise|].
  apply wf_set_insert; [done| |done]. apply shader_at_Some in E. by eexists.
Qed.

Lemma wf_update_program st n f :
  (∀ p, attached_ok (next_name st) (ProgramObj p) -> attached_ok (next_name st) (ProgramObj (f p))) ->
  store_wf st -> store_wf (update_program st n f).
Proof.
  unfold update_program. intros Hf Hwf. destruct (program_at st n) eqn:E; [by apply wf_raise|].
  apply wf_set_insert; [done| |].
  - apply program_at_Some in E. by eexists.
  - by eapply Hf, wf_program_attached.
Qed.

Lemma wf_collect st s : store_wf st -> store_wf (collect st s).
Proof.
  unfold collect. intros Hwf. destruct (objects st !! s) as [[]|]; [|done..].
  destruct (_ && _); [by apply wf_set_delete|done].
Qed.

#[export] Hint Resolve wf_raise wf_collect wf_set_delete wf_update_shader : sdl.

Section CallsWf.
Context `{ShaderDriver}.
Implicit Types (st : gl_store).

Lemma wf_glCreateShader type st : store_wf st -> store_wf (glCreateShader type st).2.
Proof. unfold glCreateShader. intros. case_decide; [by apply wf_create|done]. Qed.

Lemma wf_glShaderSource n src st : store_wf st -> store_wf (glShaderSource n src st).
Proof. apply wf_update_shader. Qed.

Lemma wf_glCompileShader n st : store_wf st -> store_wf (glCompileShader n st).
Proof. apply wf_update_shader. Qed.

Lemma wf_glGetShaderiv n pname st : store_wf st -> store_wf (glGetShaderiv n pname st).2.
Proof. unfold glGetShaderiv. destruct (shader_at st n); [done|]. by case_decide. Qed.

Lemma wf_glGetShaderInfoLog n k st : store_wf st -> store_wf (glGetShaderInfoLog n k st).2.
Proof. unfold glGetShaderInfoLog. by destruct (shader_at st n). Qed.

Lemma wf_glCreateProgram st : store_wf st -> store_wf (glCreateProgram st).2.
Proof. intros. unfold glCreateProgram. apply wf_create; [done|constructor]. Qed.

Lemma wf_glAttachShader p s st : store_wf st -> store_wf (glAttachShader p s st).
Proof.
  unfold glAttachShader. intros Hwf.
  destruct (program_at st p) eqn:Ep, (shader_at st s) eqn:Es; try by apply wf_raise.
  case_bool_decide; [by apply wf_raise|]. apply wf_set_insert; [done| |].
  - apply program_at_Some in Ep. by eexists.
  - apply wf_program_attached in Ep; [|done]. simpl in *. apply Forall_app. split; [done|].
    apply shader_at_Some in Es. destruct Hwf as [_ Hm]. apply Hm in Es. constructor; [lia|done].
Qed.

Lemma wf_glLinkProgram p st : store_wf st -> store_wf (glLinkProgram p st).
Proof. apply wf_update_program. done. Qed.

Lemma wf_glGetProgramiv p pname st : store_wf st -> store_wf (glGetProgramiv p pname st).2.
Proof. unfold glGetProgramiv. destruct (program_at st p); [done|]. by case_decide. Qed.

Lemma wf_glGetProgramInfoLog p k st : store_wf st -> store_wf (glGetProgramInfoLog p k st).2.
Proof. unfold glGetProgramInfoLog. by destruct (program_at st p). Qed.

Lemma wf_glDetachShader p s st : store_wf st -> store_wf (glDetachShader p s st).
Proof.
  unfold glDetachShader. intros Hwf.
  destruct (program_at st p) eqn:Ep, (shader_at st s) eqn:Es; try by apply wf_raise.
  case_bool_decide; [|by apply wf_raise]. apply wf_collect, wf_set_insert; [done| |].
  - apply program_at_Some in Ep. by eexists.
  - apply wf_program_attached in Ep; [|done]. simpl in *. rewrite Forall_forall in Ep |- *.
    intros x Hx. apply list_elem_of_difference in Hx as [Hx _]. by apply Ep.
Qed.

Lemma wf_glDeleteShader s st : store_wf st -> store_wf (glDeleteShader s st).
Proof.
  unfold glDeleteShader. intros Hwf. case_decide; [done|].
  destruct (shader_at st s) eqn:Es; [by apply wf_raise|].
  apply wf_collect, wf_set_insert; [done| |done]. apply shader_at_Some in Es. by eexists.
Qed.
End CallsWf.

#[export] Hint Resolve wf_glCreateShader wf_glShaderSource wf_glCompileShader wf_glGetShaderiv
  wf_glGetShaderInfoLog wf_glCreateProgram wf_glAttachShader wf_glLinkProgram wf_glGetProgramiv
  wf_glGetProgramInfoLog wf_glDetachShader wf_glDeleteShader : sdl.

(** ** The calls on objects that exist *)

Definition no_program_holds (m : gmap Z gl_object) (s : Z) : Prop :=
  ∀ p po, m !! p = Some (ProgramObj po) -> s ∉ pr_attached po.

Lemma no_program_holds_wf st s : store_wf st -> next_name st <= s -> no_program_holds (objects st) s.
Proof. intros Hwf Hs p po Hp. by eapply store_wf_not_attached. Qed.

Lemma no_program_holds_insert m k o s :
  no_program_holds m s -> (∀ po, o = ProgramObj po -> s ∉ pr_attached po) ->
  no_program_holds (<[k := o]> m) s.
Proof.
  intros Hm Ho p po Hp. rewrite lookup_insert in Hp. case_decide.
  - injection Hp as ->. by apply Ho.
  - by apply (Hm p).
Qed.

Lemma no_program_holds_delete m k s : no_program_holds m s -> no_program_holds (delete k m) s.
Proof. intros Hm p po Hp. apply (Hm p). by apply lookup_delete_Some in Hp as [_ ?]. Qed.

Section CallRuns.
Context `{ShaderDriver}.
Implicit Types (g : gl_store).

Lemma attach_run g p s po so :
  objects g !! p = Some (ProgramObj po) -> objects g !! s = Some (ShaderObj so) ->
  s ∉ pr_attached po ->
  glAttachShader p s g =
    set_objects g (<[p := ProgramObj {| pr_attached := pr_attached po ++ [s];
                                        pr_linked := pr_linked po; pr_log := pr_log po |}]> (objects g)).
Proof.
  intros Ep Es Hs. unfold glAttachShader, program_at, shader_at. rewrite Ep, Es.
  by rewrite bool_decide_false.
Qed.

Lemma detach_run g p s po so :
  objects g !! p = Some (ProgramObj po) -> objects g !! s = Some (ShaderObj so) ->
  s ∈ pr_attached po -> sh_delete so = false -> p ≠ s ->
  glDetachShader p s g =
    set_objects g (<[p := ProgramObj {| pr_attached := list_difference (pr_attached po) [s];
                                        pr_linked := pr_linked po; pr_log := pr_log po |}]> (objects g)).
Proof.
  intros Ep Es Hs Hd Hne. unfold glDetachShader, program_at, shader_at. rewrite Ep, Es.
  rewrite bool_decide_true by done. unfold collect. cbn [set_objects objects].
  by rewrite lookup_insert_ne, Es, Hd by done.
Qed.

Lemma link_run g p po :
  objects g !! p = Some (ProgramObj po) ->
  glLinkProgram p g =
    set_objects g (<[p := ProgramObj
      {| pr_attached := pr_attached po;
         pr_linked := forallb sh_compiled (attached_shaders g po) && (link_verdict (attached_shaders g po)).1;
         pr_log := (link_verdict (attached_shaders g po)).2 |}]> (objects g)).
Proof. intros Ep. unfold glLinkProgram, update_program, program_at. by rewrite Ep. Qed.

Lemma delete_shader_run g s so :
  s ≠ 0 -> objects g !! s = Some (ShaderObj so) -> no_program_holds (objects g) s ->
  glDeleteShader s g = set_objects g (delete s (objects g)).
Proof.
  intros Hs Es Hno. unfold glDeleteShader, shader_at. rewrite decide_False by done. rewrite Es.
  unfold collect. cbn [set_objects objects]. rewrite lookup_insert_eq. cbn [sh_delete andb].
  rewrite attached_anywhere_false.
  - cbn [negb]. unfold set_objects. cbn [objects]. by rewrite delete_insert_eq.
  - apply no_program_holds_insert; [done|]. discriminate.
Qed.
End CallRuns.

End GLObjects.
