(* ===== verification/Shader.v ===== *)
(** * The program builder: [CompileShader]

    [CompileShader(&Shader, VertexShader, FragmentShader)] ([src/main.c],
    lines 104-154) creates and compiles a vertex and a fragment shader,
    links them into a program, prints the info log of the first stage that
    fails and returns 1, or detaches and deletes both shaders, stores the
    program's name in [*Shader] and returns 0.

    The function runs in [PB], a state monad over the GL object store and
    the text written to [stderr], in which [None] is undefined behaviour
    (the only candidate is reading [Success0] before a [glGet*iv] wrote
    it).  The out-parameter [*Shader] is the second component of the result:
    [Some p] when the function stored [p], [None] when it left it
    unwritten. *)

From S2P Require Import Prelude GL GLObjects.
Open Scope Z_scope.

Module ProgramBuilder.
Import GLObjects.

Record pb_state := {
  gls : gl_store;
  stderr : list string
}.

Definition PB (A : Type) : Type := pb_state -> option (A * pb_state).

#[export] Instance PB_ret : MRet PB := fun A a s => Some (a, s).
#[export] Instance PB_bind : MBind PB := fun A B f m s =>
  match m s with
  | Some (a, s') => f a s'
  | None => None
  end.

(** A GL call that returns a value, and one that returns nothing. *)
Definition gl_call {A} (f : gl_store -> A * gl_store) : PB A :=
  fun s => let '(a, g) := f (gls s) in Some (a, {| gls := g; stderr := stderr s |}).

Definition gl_do (f : gl_store -> gl_store) : PB unit :=
  fun s => Some (tt, {| gls := f (gls s); stderr := stderr s |}).

Definition emit (text : string) : PB unit :=
  fun s => Some (tt, {| gls := gls s; stderr := stderr s ++ [text] |}).

(** An [int] variable: [None] while indeterminate.  A [glGet*iv] that
    raises an error leaves it as it was; reading it indeterminate is
    undefined behaviour. *)
Definition write_int (r : option Z) (x : option Z) : option Z :=
  match r with Some v => Some v | None => x end.

Definition read_int (x : option Z) : PB Z :=
  fun s => match x with Some v => Some (v, s) | None => None end.

(** [ArrayCount(Buf)] of [GLchar Buf[1024]]. *)
Definition BufCount : Z := 1024.

(** [GLchar Buf[1024] = {0}; GLsizei Length = 0;
     glGet*InfoLog(ID, ArrayCount(Buf), &Length, Buf);
     fprintf(stderr, "%.*s", Length, Buf);] where [r] is what the info log
    call wrote ([None]: nothing, so [Length = 0]). *)
Definition print_info_log (r : option (Z * string)) : PB unit :=
  let '(Length, Buf) := default (0, EmptyString) r in
  emit (String.substring 0 (Z.to_nat Length) Buf).

(** The shader sources [CodeVS] and [CodeFS] (lines 27-48): C concatenates
    the adjacent literals, with a single line break after the version. *)
Definition newline : string := String (Ascii.ascii_of_nat 10) EmptyString.

Local Open Scope string_scope.
Definition CodeVS : string :=
  "#version 410 core" ++ newline ++
  "layout(location=0) in vec3 P;" ++ "layout(location=1) in vec3 C;" ++
  "out vec3 FragC;" ++ "out vec3 FragP;" ++ "uniform vec2 ModelP;" ++ "void main() {" ++
  "   FragP = P + vec3(ModelP, 0.0f);" ++ "   FragC = C;" ++
  "   gl_Position = vec4(FragP, 1.0);" ++ "}".

Definition CodeFS : string :=
  "#version 410 core" ++ newline ++
  "in vec3 FragC;" ++ "in vec3 FragP;" ++ "out vec4 Result;" ++ "void main() {" ++
  "   Result = vec4(FragC, 1.0);" ++ "}".
Local Close Scope string_scope.

Section Builder.
Context `{ShaderDriver}.

(** The failure branch after a shader's compile status. *)
Definition ShaderFailure (ID : Z) : PB (Z * option Z) :=
  r ← gl_call (glGetShaderInfoLog ID BufCount);
  print_info_log r;;
  mret (1, None).

(** The failure branch after the program's link status. *)
Definition ProgramFailure (Program : Z) : PB (Z * option Z) :=
  r ← gl_call (glGetProgramInfoLog Program BufCount);
  print_info_log r;;
  mret (1, None).

(** [int Success0;] is indeterminate ([None]) until the first
    [glGetShaderiv] writes it. *)
Definition CompileShader (VertexShader FragmentShader : string) : PB (Z * option Z) :=
  VID ← gl_call (glCreateShader GL_VERTEX_SHADER);
  gl_do (glShaderSource VID VertexShader);;
  gl_do (glCompileShader VID);;
  r ← gl_call (glGetShaderiv VID GL_COMPILE_STATUS);
  let Success0 := write_int r None in
  s ← read_int Success0;
  if s =? GL_FALSE then ShaderFailure VID else
  FID ← gl_call (glCreateShader GL_FRAGMENT_SHADER);
  gl_do (glShaderSource FID FragmentShader);;
  gl_do (glCompileShader FID);;
  r ← gl_call (glGetShaderiv FID GL_COMPILE_STATUS);
  let Success0 := write_int r Success0 in
  s ← read_int Success0;
  if s =? GL_FALSE then ShaderFailure FID else
  Program ← gl_call glCreateProgram;
  gl_do (glAttachShader Program VID);;
  gl_do (glAttachShader Program FID);;
  gl_do (glLinkProgram Program);;
  r ← gl_call (glGetProgramiv Program GL_LINK_STATUS);
  let Success0 := write_int r Success0 in
  s ← read_int Success0;
  if s =? GL_FALSE then ProgramFailure Program else
  gl_do (glDetachShader Program VID);;
  gl_do (glDetachShader Program FID);;
  gl_do (glDeleteShader VID);;
  gl_do (glDeleteShader FID);;
  mret (0, Some Program).
End Builder.

(** ** Running the builder *)

Section Run.
Context `{ShaderDriver}.
Implicit Types (s : pb_state).

(** A shader object after [glShaderSource] and [glCompileShader]. *)
Definition compiled_shader (type : GLenum) (src : string) : shader_obj :=
  let v := compile_verdict type src in
  {| sh_type := type; sh_source := Some src; sh_compiled := v.1; sh_log := v.2;
     sh_delete := false |}.

Definition with_store (s : pb_state) (g : gl_store) : pb_state :=
  {| gls := g; stderr := stderr s |}.

Definition add_object (g : gl_store) (o : gl_object) : gl_store :=
  {| objects := <[next_name g := o]> (objects g); next_name := next_name g + 1;
     pending := pending g |}.

(** The equations of the monad, by which proofs step through the code. *)
Lemma bind_gl_call {A B} (f : gl_store -> A * gl_store) (k : A -> PB B) s :
  (gl_call f ≫= k) s = k (f (gls s)).1 (with_store s (f (gls s)).2).
Proof. unfold mbind, PB_bind, gl_call. by destruct (f (gls s)). Qed.

Lemma bind_gl_do {B} (f : gl_store -> gl_store) (k : unit -> PB B) s :
  (gl_do f ≫= k) s = k tt (with_store s (f (gls s))).
Proof. reflexivity. Qed.

Lemma bind_emit {B} (t : string) (k : unit -> PB B) s :
  (emit t ≫= k) s = k tt {| gls := gls s; stderr := stderr s ++ [t] |}.
Proof. reflexivity. Qed.

Lemma bind_read_int {B} (v : Z) (k : Z -> PB B) s : (read_int (Some v) ≫= k) s = k v s.
Proof. reflexivity. Qed.

Lemma ret_run {A} (a : A) s : mret (M := PB) a s = Some (a, s).
Proof. reflexivity. Qed.

Lemma gls_with_store s g : gls (with_store s g) = g.
Proof. reflexivity. Qed.

Lemma stderr_with_store s g : stderr (with_store s g) = stderr s.
Proof. reflexivity. Qed.

Lemma with_store_twice s g g' : with_store (with_store s g) g' = with_store s g'.
Proof. reflexivity. Qed.

Lemma next_name_add_object g o : next_name (add_object g o) = next_name g + 1.
Proof. reflexivity. Qed.

Lemma objects_add_object g o : objects (add_object g o) = <[next_name g := o]> (objects g).
Proof. reflexivity. Qed.

Ltac pb_step :=
  first [rewrite bind_gl_call | rewrite bind_gl_do | rewrite bind_emit | rewrite bind_read_int];
  cbv beta; rewrite ?gls_with_store, ?stderr_with_store, ?with_store_twice, ?next_name_add_object.

(** [glCreateShader] of a valid type on a store whose next name is free. *)
Lemma create_shader_run type g :
  type = GL_VERTEX_SHADER ∨ type = GL_FRAGMENT_SHADER ->
  glCreateShader type g = (next_name g, add_object g (ShaderObj (empty_shader type))).
Proof. intros Ht. unfold glCreateShader. by case_decide. Qed.

Lemma update_shader_at g n so f :
  objects g !! n = Some (ShaderObj so) ->
  update_shader g n f = set_objects g (<[n := ShaderObj (f so)]> (objects g)).
Proof. intros E. unfold update_shader, shader_at. by rewrite E. Qed.

Lemma stage_run type src s {A} (k : Z -> option Z -> PB A) :
  type = GL_VERTEX_SHADER ∨ type = GL_FRAGMENT_SHADER ->
  (VID ← gl_call (glCreateShader type);
   gl_do (glShaderSource VID src);;
   gl_do (glCompileShader VID);;
   r ← gl_call (glGetShaderiv VID GL_COMPILE_STATUS);
   k VID r) s =
  k (next_name (gls s)) (Some (bool_to_GL (compile_verdict type src).1))
    (with_store s (add_object (gls s) (ShaderObj (compiled_shader type src)))).
Proof.
  intros Ht. pb_step. rewrite create_shader_run by done. cbn [fst snd].
  pb_step. unfold glShaderSource. erewrite update_shader_at by apply lookup_insert_eq.
  pb_step. unfold glCompileShader. erewrite update_shader_at by apply lookup_insert_eq.
  pb_step. unfold glGetShaderiv, shader_at. cbn [set_objects objects].
  rewrite lookup_insert_eq, decide_True by done. cbn [fst snd].
  unfold set_objects, add_object. cbn [objects next_name pending]. by rewrite !insert_insert_eq.
Qed.

(** What [fprintf(stderr, "%.*s", Length, Buf)] prints of a log read
    into [GLchar Buf[1024]]: its first 1023 characters. *)
Definition log_text (log : string) : string :=
  String.substring 0 (Nat.min (String.length log) 1023) log.

Lemma substring_0_length k str : String.length (String.substring 0 k str) = Nat.min (String.length str) k.
Proof.
  revert k. induction str as [|c str IH]; intros [|k]; simpl; try done. by rewrite IH.
Qed.

Lemma substring_0_substring_0 k str :
  String.substring 0 k (String.substring 0 k str) = String.substring 0 k str.
Proof.
  revert k. induction str as [|c str IH]; intros [|k]; simpl; try done. by rewrite IH.
Qed.

Lemma prefix_substring_0 k str : String.prefix (String.substring 0 k str) str = true.
Proof.
  revert k. induction str as [|c str IH]; intros [|k]; simpl; try done.
  destruct (Ascii.ascii_dec c c); [apply IH|done].
Qed.

Lemma substring_0_full str : String.substring 0 (String.length str) str = str.
Proof. induction str as [|c str IH]; simpl; [done|by rewrite IH]. Qed.

Lemma print_info_log_run log s {B} (k : unit -> PB B) :
  (print_info_log (Some (info_log BufCount log)) ≫= k) s =
  k tt {| gls := gls s; stderr := stderr s ++ [log_text log] |}.
Proof.
  unfold print_info_log, info_log, log_text, BufCount. cbn [default id]. cbv beta iota.
  change (Z.to_nat (1024 - 1)) with 1023%nat.
  rewrite Nat2Z.id, substring_0_substring_0. reflexivity.
Qed.

Lemma ShaderFailure_run ID so s :
  objects (gls s) !! ID = Some (ShaderObj so) ->
  ShaderFailure ID s = Some ((1, None), {| gls := gls s; stderr := stderr s ++ [log_text (sh_log so)] |}).
Proof.
  intros E. unfold ShaderFailure. pb_step. unfold glGetShaderInfoLog, shader_at.
  rewrite E. cbn [fst snd]. rewrite print_info_log_run. reflexivity.
Qed.

Lemma ProgramFailure_run ID po s :
  objects (gls s) !! ID = Some (ProgramObj po) ->
  ProgramFailure ID s = Some ((1, None), {| gls := gls s; stderr := stderr s ++ [log_text (pr_log po)] |}).
Proof.
  intros E. unfold ProgramFailure. pb_step. unfold glGetProgramInfoLog, program_at.
  rewrite E. cbn [fst snd]. rewrite print_info_log_run. reflexivity.
Qed.

Lemma bool_to_GL_false b : (bool_to_GL b =? GL_FALSE) = negb b.
Proof. by destruct b. Qed.

Lemma CompileShader_vertex_fails vs fs s :
  (compile_verdict GL_VERTEX_SHADER vs).1 = false ->
  CompileShader vs fs s =
    Some ((1, None),
          {| gls := add_object (gls s) (ShaderObj (compiled_shader GL_VERTEX_SHADER vs));
             stderr := stderr s ++ [log_text (compile_verdict GL_VERTEX_SHADER vs).2] |}).
Proof.
  intros Hv. unfold CompileShader. rewrite stage_run by (left; done).
  cbv beta zeta. unfold write_int. pb_step. rewrite bool_to_GL_false, Hv. cbn [negb].
  erewrite ShaderFailure_run by (apply lookup_insert_eq). reflexivity.
Qed.

Lemma CompileShader_fragment_fails vs fs s :
  (compile_verdict GL_VERTEX_SHADER vs).1 = true ->
  (compile_verdict GL_FRAGMENT_SHADER fs).1 = false ->
  CompileShader vs fs s =
    Some ((1, None),
          {| gls := add_object (add_object (gls s) (ShaderObj (compiled_shader GL_VERTEX_SHADER vs)))
                               (ShaderObj (compiled_shader GL_FRAGMENT_SHADER fs));
             stderr := stderr s ++ [log_text (compile_verdict GL_FRAGMENT_SHADER fs).2] |}).
Proof.
  intros Hv Hf. unfold CompileShader. rewrite stage_run by (left; done).
  cbv beta zeta. unfold write_int. pb_step. rewrite bool_to_GL_false, Hv. cbn [negb].
  rewrite stage_run by (right; done). cbv beta zeta. pb_step. rewrite bool_to_GL_false, Hf.
  cbn [negb]. erewrite ShaderFailure_run by (apply lookup_insert_eq). reflexivity.
Qed.

(** The linker's verdict on the two compiled stages. *)
Definition link_of (vs fs : string) : bool * string :=
  link_verdict [compiled_shader GL_VERTEX_SHADER vs; compiled_shader GL_FRAGMENT_SHADER fs].

(** The store after both stages compiled. *)
Definition two_stages (g : gl_store) (vs fs : string) : gl_store :=
  add_object (add_object g (ShaderObj (compiled_shader GL_VERTEX_SHADER vs)))
             (ShaderObj (compiled_shader GL_FRAGMENT_SHADER fs)).

Definition linked_program (n : Z) (vs fs : string) : program_obj :=
  {| pr_attached := [n; n + 1]; pr_linked := (link_of vs fs).1; pr_log := (link_of vs fs).2 |}.

Lemma two_stages_lookup g vs fs i :
  objects (two_stages g vs fs) !! i =
    if decide (next_name g + 1 = i) then Some (ShaderObj (compiled_shader GL_FRAGMENT_SHADER fs))
    else if decide (next_name g = i) then Some (ShaderObj (compiled_shader GL_VERTEX_SHADER vs))
    else objects g !! i.
Proof. unfold two_stages. by rewrite !objects_add_object, next_name_add_object, !lookup_insert. Qed.

Lemma program_phase_run vs fs s {A} (k : Z -> option Z -> PB A) :
  (compile_verdict GL_VERTEX_SHADER vs).1 = true ->
  (compile_verdict GL_FRAGMENT_SHADER fs).1 = true ->
  let g := gls s in let n := next_name g in
  (Program ← gl_call glCreateProgram;
   gl_do (glAttachShader Program n);;
   gl_do (glAttachShader Program (n + 1));;
   gl_do (glLinkProgram Program);;
   r ← gl_call (glGetProgramiv Program GL_LINK_STATUS);
   k Program r) (with_store s (two_stages g vs fs)) =
  k (n + 2) (Some (bool_to_GL (link_of vs fs).1))
    (with_store s (add_object (two_stages g vs fs) (ProgramObj (linked_program n vs fs)))).
Proof.
  intros Hv Hf g n. pb_step. unfold glCreateProgram, create. cbn [fst snd].
  set (g2 := two_stages g vs fs).
  assert (Hn : next_name g2 = n + 2) by (unfold g2, two_stages, n; cbn; lia).
  assert (HV : objects g2 !! n = Some (ShaderObj (compiled_shader GL_VERTEX_SHADER vs)))
    by (unfold g2; rewrite two_stages_lookup, decide_False, decide_True by (unfold n; lia); done).
  assert (HF : objects g2 !! (n + 1) = Some (ShaderObj (compiled_shader GL_FRAGMENT_SHADER fs)))
    by (unfold g2; rewrite two_stages_lookup, decide_True by (unfold n; lia); done).
  rewrite Hn. pb_step.
  erewrite attach_run; [| apply lookup_insert_eq | cbn [objects]; rewrite lookup_insert_ne by lia; exact HV |
                          cbn; set_solver].
  unfold set_objects, empty_program. cbn [objects next_name pending pr_attached pr_linked pr_log app].
  rewrite insert_insert_eq. pb_step.
  erewrite attach_run; [| apply lookup_insert_eq | cbn [objects]; rewrite lookup_insert_ne by lia; exact HF |
                          cbn; rewrite list_elem_of_singleton; lia].
  unfold set_objects. cbn [objects next_name pending pr_attached pr_linked pr_log app].
  rewrite insert_insert_eq. pb_step.
  erewrite link_run by apply lookup_insert_eq.
  unfold attached_shaders, set_objects. cbn [objects next_name pending pr_attached pr_linked pr_log omap list_omap].
  rewrite !lookup_insert_ne, HV, HF by lia. cbn [forallb compiled_shader sh_compiled].
  rewrite Hv, Hf. cbn [andb]. rewrite insert_insert_eq. pb_step.
  unfold glGetProgramiv, program_at. cbn [objects]. rewrite lookup_insert_eq, decide_True by done.
  cbn [fst snd pr_linked]. unfold add_object. rewrite Hn. reflexivity.
Qed.

Lemma next_name_two_stages g vs fs : next_name (two_stages g vs fs) = next_name g + 2.
Proof. unfold two_stages. cbn. lia. Qed.

(** Runs one compile stage at the head of the goal, whatever follows it. *)
Ltac stage_tac :=
  lazymatch goal with
  | |- (gl_call (glCreateShader ?t) ≫= (λ VID, gl_do (glShaderSource VID ?src) ≫=
         (λ _, gl_do (glCompileShader VID) ≫=
         (λ _, gl_call (glGetShaderiv VID GL_COMPILE_STATUS) ≫= (λ r, @?k VID r))))) ?s = _ =>
      rewrite (stage_run t src s k) by (first [left; reflexivity | right; reflexivity]);
      cbv beta zeta; unfold write_int; pb_step; rewrite bool_to_GL_false
  end.

(** Runs the program phase after both stages compiled. *)
Ltac program_tac :=
  lazymatch goal with
  | |- (gl_call glCreateProgram ≫= (λ P, gl_do (glAttachShader P _) ≫=
         (λ _, gl_do (glAttachShader P _) ≫= (λ _, gl_do (glLinkProgram P) ≫=
         (λ _, gl_call (glGetProgramiv P GL_LINK_STATUS) ≫= (λ r, @?k P r))))))
         (with_store ?s (add_object (add_object (gls ?s) (ShaderObj (compiled_shader _ ?vs)))
                                    (ShaderObj (compiled_shader _ ?fs)))) = _ =>
      change (add_object (add_object (gls s) (ShaderObj (compiled_shader GL_VERTEX_SHADER vs)))
                         (ShaderObj (compiled_shader GL_FRAGMENT_SHADER fs)))
        with (two_stages (gls s) vs fs);
      rewrite (program_phase_run vs fs s k) by assumption;
      cbv beta zeta; unfold write_int; pb_step; rewrite bool_to_GL_false
  end.

Lemma CompileShader_link_fails vs fs s :
  (compile_verdict GL_VERTEX_SHADER vs).1 = true ->
  (compile_verdict GL_FRAGMENT_SHADER fs).1 = true ->
  (link_of vs fs).1 = false ->
  let n := next_name (gls s) in
  CompileShader vs fs s =
    Some ((1, None),
          {| gls := add_object (two_stages (gls s) vs fs) (ProgramObj (linked_program n vs fs));
             stderr := stderr s ++ [log_text (link_of vs fs).2] |}).
Proof.
  intros Hv Hf Hl n. unfold CompileShader. stage_tac. rewrite Hv. cbn [negb]. stage_tac. rewrite Hf. cbn [negb].
  program_tac. rewrite Hl. cbn [negb].
  rewrite (ProgramFailure_run _ (linked_program n vs fs)); [reflexivity|].
  rewrite gls_with_store, objects_add_object, next_name_two_stages. apply lookup_insert_eq.
Qed.

Lemma list_difference_first (a b : Z) : a ≠ b -> list_difference [a; b] [a] = [b].
Proof.
  intros Hab. simpl. destruct (decide_rel _ a [a]) as [_|Hn]; [|by destruct Hn; left].
  destruct (decide_rel _ b [a]) as [Hb|_]; [|done]. apply list_elem_of_singleton in Hb. congruence.
Qed.

Lemma list_difference_self (b : Z) : list_difference [b] [b] = [].
Proof. simpl. destruct (decide_rel _ b [b]) as [_|Hn]; [done|by destruct Hn; left]. Qed.

(** The linked program once both shaders are detached. *)
Definition final_program (vs fs : string) : program_obj :=
  {| pr_attached := []; pr_linked := true; pr_log := (link_of vs fs).2 |}.

Lemma CompileShader_success vs fs s :
  store_wf (gls s) ->
  (compile_verdict GL_VERTEX_SHADER vs).1 = true ->
  (compile_verdict GL_FRAGMENT_SHADER fs).1 = true ->
  (link_of vs fs).1 = true ->
  let n := next_name (gls s) in
  CompileShader vs fs s =
    Some ((0, Some (n + 2)),
          {| gls := {| objects := <[n + 2 := ProgramObj (final_program vs fs)]> (objects (gls s));
                       next_name := n + 3; pending := pending (gls s) |};
             stderr := stderr s |}).
Proof.
  intros Hwf Hv Hf Hl n. unfold CompileShader. stage_tac. rewrite Hv. cbn [negb]. stage_tac. rewrite Hf. cbn [negb].
  program_tac. rewrite Hl. cbn [negb].
  set (m := objects (gls s)).
  assert (Hfresh : ∀ i, n <= i -> m !! i = None) by (intros; by apply store_wf_fresh).
  assert (Hpos : 0 < n) by apply Hwf.
  pose proof (no_program_holds_wf _ n Hwf ltac:(lia)) as Hno0.
  pose proof (no_program_holds_wf _ (n + 1) Hwf ltac:(unfold n; lia)) as Hno1.
  set (sV := compiled_shader GL_VERTEX_SHADER vs). set (sF := compiled_shader GL_FRAGMENT_SHADER fs).
  set (lp := linked_program n vs fs). fold n. fold lp.
  assert (Eobj : objects (add_object (two_stages (gls s) vs fs) (ProgramObj lp)) =
                 <[n + 2 := ProgramObj lp]> (<[n + 1 := ShaderObj sF]> (<[n := ShaderObj sV]> m)))
    by (unfold two_stages; rewrite !objects_add_object, !next_name_add_object;
        unfold n; replace (next_name (gls s) + 1 + 1) with (next_name (gls s) + 2) by lia; reflexivity).
  pb_step. erewrite detach_run; [| rewrite Eobj; apply lookup_insert_eq
    | rewrite Eobj, !lookup_insert_ne by lia; apply lookup_insert_eq | cbn; set_solver | done | lia].
  rewrite Eobj. cbn [pr_attached pr_linked pr_log lp linked_program]. rewrite list_difference_first by lia.
  unfold set_objects. cbn [objects next_name pending]. rewrite insert_insert_eq. pb_step.
  erewrite detach_run; [| apply lookup_insert_eq
    | cbn [objects]; rewrite !lookup_insert_ne by lia; apply lookup_insert_eq | cbn; set_solver | done | lia].
  cbn [pr_attached pr_linked pr_log]. rewrite list_difference_self, Hl.
  unfold set_objects. cbn [objects next_name pending]. rewrite insert_insert_eq. pb_step.
  erewrite delete_shader_run; [| lia | cbn [objects]; rewrite !lookup_insert_ne by lia; apply lookup_insert_eq |].
  2: { cbn [objects]. apply no_program_holds_insert; [|intros ? [= <-]; cbn; set_solver].
       do 2 (apply no_program_holds_insert; [|discriminate]). exact Hno0. }
  unfold set_objects. cbn [objects next_name pending]. pb_step.
  erewrite delete_shader_run; [| lia | cbn [objects]; rewrite lookup_delete_ne, lookup_insert_ne by lia; apply lookup_insert_eq |].
  2: { cbn [objects]. apply no_program_holds_delete, no_program_holds_insert;
         [|intros ? [= <-]; cbn; set_solver].
       do 2 (apply no_program_holds_insert; [|discriminate]). exact Hno1. }
  unfold set_objects. cbn [objects next_name pending].
  rewrite (delete_insert_ne _ n (n + 2)), (delete_insert_ne _ n (n + 1)), delete_insert_eq by lia.
  rewrite (delete_id _ n) by (apply Hfresh; lia).
  rewrite (delete_insert_ne _ (n + 1) (n + 2)), delete_insert_eq by lia.
  rewrite (delete_id _ (n + 1)) by (apply Hfresh; lia).
  rewrite ret_run, next_name_two_stages. fold n.
  replace (n + 2 + 1) with (n + 3) by lia. reflexivity.
Qed.

(** ** What [CompileShader] does, branch by branch

    [build_result] is the function's contract written out: which branch
    runs is decided by the two compile verdicts and the link verdict; each
    failure prints the failing object's log and returns 1 with [*Shader]
    unwritten, leaving every object created so far in the store; success
    returns 0 and the program, and only the program remains. *)
Definition build_result (vs fs : string) (s : pb_state) : (Z * option Z) * pb_state :=
  let g := gls s in
  let n := next_name g in
  if negb (compile_verdict GL_VERTEX_SHADER vs).1 then
    ((1, None), {| gls := add_object g (ShaderObj (compiled_shader GL_VERTEX_SHADER vs));
                   stderr := stderr s ++ [log_text (compile_verdict GL_VERTEX_SHADER vs).2] |})
  else if negb (compile_verdict GL_FRAGMENT_SHADER fs).1 then
    ((1, None), {| gls := two_stages g vs fs;
                   stderr := stderr s ++ [log_text (compile_verdict GL_FRAGMENT_SHADER fs).2] |})
  else if negb (link_of vs fs).1 then
    ((1, None), {| gls := add_object (two_stages g vs fs) (ProgramObj (linked_program n vs fs));
                   stderr := stderr s ++ [log_text (link_of vs fs).2] |})
  else
    ((0, Some (n + 2)), {| gls := {| objects := <[n + 2 := ProgramObj (final_program vs fs)]> (objects g);
                                    next_name := n + 3; pending := pending g |};
                          stderr := stderr s |}).

Lemma CompileShader_build_result vs fs s :
  store_wf (gls s) -> CompileShader vs fs s = Some (build_result vs fs s).
Proof.
  intros Hwf. unfold build_result.
  destruct (compile_verdict GL_VERTEX_SHADER vs).1 eqn:Hv; cbn [negb];
    [|by apply CompileShader_vertex_fails].
  destruct (compile_verdict GL_FRAGMENT_SHADER fs).1 eqn:Hf; cbn [negb];
    [|by apply CompileShader_fragment_fails].
  destruct (link_of vs fs).1 eqn:Hl; cbn [negb]; [by apply CompileShader_success|].
  by apply CompileShader_link_fails.
Qed.

Lemma build_result_wf vs fs s : store_wf (gls s) -> store_wf (gls (build_result vs fs s).2).
Proof.
  intros Hwf. pose proof (proj1 Hwf) as Hp.
  assert (H2 : store_wf (two_stages (gls s) vs fs)) by (do 2 (apply wf_create; [|done]); done).
  unfold build_result. repeat case_match; cbn [fst snd gls].
  all: try (apply wf_create; [done|]); try done.
  - cbn. repeat constructor; rewrite ?next_name_two_stages; lia.
  - apply wf_insert_fresh; [done|lia|constructor].
Qed.
End Run.

(** ** Properties of the builder *)

Section Properties.
Context `{ShaderDriver}.

Lemma build_result_pending vs fs s : pending (gls (build_result vs fs s).2) = pending (gls s).
Proof. unfold build_result. by repeat case_match. Qed.

Lemma build_result_cases vs fs s :
  let n := next_name (gls s) in
  let '(r, s') := build_result vs fs s in
  ((r = (0, Some (n + 2)) ∧
    objects (gls s') = <[n + 2 := ProgramObj (final_program vs fs)]> (objects (gls s)) ∧
    stderr s' = stderr s) ∨
   (r = (1, None) ∧ ∃ log, stderr s' = stderr s ++ [log_text log])) ∧
  (r.1 = 0 <-> (compile_verdict GL_VERTEX_SHADER vs).1 && (compile_verdict GL_FRAGMENT_SHADER fs).1
               && (link_of vs fs).1 = true).
Proof.
  unfold build_result.
  destruct (compile_verdict GL_VERTEX_SHADER vs).1, (compile_verdict GL_FRAGMENT_SHADER fs).1,
    (link_of vs fs).1; cbn;
    (split; [first [left; by split_and! | right; split; [done|by eexists]]
            |split; intros ?; first [done | discriminate]]).
Qed.

(** [C23] [CompileShader] refines its contract [build_result]: on a
    well-formed object store it never has undefined behaviour (each status
    read follows the [glGet*iv] that writes it), it takes the branch the
    compile and link verdicts select, with the result, [*Shader], the
    objects and the text on stderr [build_result] gives, it keeps the store
    well formed and it raises no GL error. *)
Theorem CompileShader_spec vs fs s :
  store_wf (gls s) ->
  CompileShader vs fs s = Some (build_result vs fs s) ∧
  store_wf (gls (build_result vs fs s).2) ∧
  pending (gls (build_result vs fs s).2) = pending (gls s).
Proof.
  intros Hwf. split_and!; [by apply CompileShader_build_result | by apply build_result_wf |
  apply build_result_pending].
Qed.

(** [C24] The program builder's contract: either the function returns 0
    and stores in [*Shader] a fresh name, whose program is linked and holds
    no shader (both stages were destroyed; nothing else changed in the
    store), without writing to stderr; or it returns 1, leaves [*Shader]
    unwritten and prints exactly one diagnostic (the first 1023 characters
    of a log).  It returns 0 exactly when both stages compile and the
    program links. *)
Theorem CompileShader_contract vs fs s :
  store_wf (gls s) ->
  ∃ r s', CompileShader vs fs s = Some (r, s') ∧
    ((∃ p, r = (0, Some p) ∧ objects (gls s) !! p = None ∧
           objects (gls s') = <[p := ProgramObj (final_program vs fs)]> (objects (gls s)) ∧
           stderr s' = stderr s) ∨
     (r = (1, None) ∧ ∃ log, stderr s' = stderr s ++ [log_text log])) ∧
    (r.1 = 0 <-> (compile_verdict GL_VERTEX_SHADER vs).1 && (compile_verdict GL_FRAGMENT_SHADER fs).1
                 && (link_of vs fs).1 = true).
Proof.
  intros Hwf. pose proof (build_result_cases vs fs s) as Hc.
  destruct (build_result vs fs s) as [r s'] eqn:E. exists r, s'. split.
  { rewrite <- E. by apply CompileShader_build_result. }
  destruct Hc as [Hc Hiff]; split; [|done].
  destruct Hc as [(-> & Ho & Hs)|Hf]; [left|by right].
  exists (next_name (gls s) + 2). split_and!; try done. apply store_wf_fresh; [done|lia].
Qed.

(** [C25] Building the same sources twice, when they compile and link,
    gives two different program names, both linked programs of the final
    store, with nothing written to stderr and no GL error raised. *)
Theorem CompileShader_twice vs fs s :
  store_wf (gls s) ->
  (compile_verdict GL_VERTEX_SHADER vs).1 = true ->
  (compile_verdict GL_FRAGMENT_SHADER fs).1 = true ->
  (link_of vs fs).1 = true ->
  ∃ p1 p2 s1 s2,
    CompileShader vs fs s = Some ((0, Some p1), s1) ∧
    CompileShader vs fs s1 = Some ((0, Some p2), s2) ∧
    p1 ≠ p2 ∧
    objects (gls s2) !! p1 = Some (ProgramObj (final_program vs fs)) ∧
    objects (gls s2) !! p2 = Some (ProgramObj (final_program vs fs)) ∧
    stderr s2 = stderr s ∧ pending (gls s2) = pending (gls s).
Proof.
  intros Hwf Hv Hf Hl.
  assert (Hr : ∀ s0, build_result vs fs s0 =
    ((0, Some (next_name (gls s0) + 2)),
     {| gls := {| objects := <[next_name (gls s0) + 2 := ProgramObj (final_program vs fs)]> (objects (gls s0));
                  next_name := next_name (gls s0) + 3; pending := pending (gls s0) |};
        stderr := stderr s0 |}))
    by (intros; unfold build_result; by rewrite Hv, Hf, Hl).
  pose proof (CompileShader_build_result vs fs s Hwf) as E1.
  pose proof (CompileShader_build_result vs fs _ (build_result_wf vs fs s Hwf)) as E2.
  rewrite Hr in E1. rewrite !Hr in E2. cbn [fst snd gls stderr objects next_name pending] in E2.
  eexists _, _, _, _. split_and!; [exact E1 | exact E2 | lia | ..]; cbn [gls objects stderr pending].
  - rewrite lookup_insert_ne by lia. apply lookup_insert_eq.
  - apply lookup_insert_eq.
  - done.
  - done.
Qed.

(** [C26] Objects on the exit paths.  Every call creates at least one
    object.  When the function fails, every object it created (the vertex
    shader; the fragment shader; the program) is still allocated: the
    failure paths leak them.  When it succeeds, the program is the only one
    of its objects that remains. *)
Theorem CompileShader_leaks vs fs s r s' :
  store_wf (gls s) -> CompileShader vs fs s = Some (r, s') ->
  let n := next_name (gls s) in
  let n' := next_name (gls s') in
  n < n' ∧
  (r.1 = 1 -> ∀ i, n <= i < n' -> is_Some (objects (gls s') !! i)) ∧
  (∀ p, r = (0, Some p) -> ∀ i, n <= i < n' -> i ≠ p -> objects (gls s') !! i = None).
Proof.
  intros Hwf E n n'. rewrite CompileShader_build_result in E by done. injection E as E.
  pose proof (λ i, store_wf_fresh _ i Hwf) as Hfr. unfold build_result in E. subst n n'.
  destruct (compile_verdict GL_VERTEX_SHADER vs).1, (compile_verdict GL_FRAGMENT_SHADER fs).1,
    (link_of vs fs).1; cbn [negb] in E; injection E as <- <-;
    unfold two_stages; cbn [fst gls objects next_name add_object]; (split; [lia|split]);
    intros; try discriminate.
  1: { match goal with Hp : (_, _) = (_, _) |- _ => injection Hp as <- end.
       rewrite lookup_insert_ne by done. apply Hfr. lia. }
  all: rewrite !lookup_insert; repeat case_decide; (by eexists) || lia.
Qed.


End Properties.

(** ** Concrete runs

    A driver whose compiler accepts exactly the sources that start with the
    version line and whose linker accepts every pair, and a fragment source
    without a version line. *)
Local Open Scope string_scope.
Definition glsl_version : string := "#version 410 core".
Definition version_error : string := "ERROR: 0:1: missing #version".
Definition glsl410_driver : ShaderDriver :=
  {| compile_verdict _ src := if String.prefix glsl_version src then (true, EmptyString)
                              else (false, version_error);
     link_verdict _ := (true, EmptyString) |}.
Definition bad_fs : string := "void main() {}".
Local Close Scope string_scope.

Fixpoint repeat_char (k : nat) (c : Ascii.ascii) : string :=
  match k with O => EmptyString | S k => String c (repeat_char k c) end.

(** The store right after context creation: no object, names from 1. *)
Definition pb0 : pb_state :=
  {| gls := {| objects := ∅; next_name := 1; pending := [] |}; stderr := [] |}.

Lemma pb0_wf : store_wf (gls pb0).
Proof. split; [simpl; lia|apply map_Forall_empty]. Qed.

Lemma CompileShader_spec_witness :
  store_wf (gls pb0) ∧
  @CompileShader glsl410_driver CodeVS CodeFS pb0 = Some (@build_result glsl410_driver CodeVS CodeFS pb0) ∧
  (@build_result glsl410_driver CodeVS CodeFS pb0).1 = (0, Some 3).
Proof.
  split_and!; [exact pb0_wf | exact (proj1 (@CompileShader_spec glsl410_driver CodeVS CodeFS pb0 pb0_wf)) |].
  vm_compute. reflexivity.
Defined.

Lemma CompileShader_contract_witness :
  store_wf (gls pb0) ∧
  ∃ r s', @CompileShader glsl410_driver CodeVS bad_fs pb0 = Some (r, s') ∧
    ((∃ p, r = (0, Some p) ∧ objects (gls pb0) !! p = None ∧
           objects (gls s') = <[p := ProgramObj (@final_program glsl410_driver CodeVS bad_fs)]> (objects (gls pb0)) ∧
           stderr s' = stderr pb0) ∨
     (r = (1, None) ∧ ∃ log, stderr s' = stderr pb0 ++ [log_text log])) ∧
    (r.1 = 0 <-> (@compile_verdict glsl410_driver GL_VERTEX_SHADER CodeVS).1 &&
                 (@compile_verdict glsl410_driver GL_FRAGMENT_SHADER bad_fs).1 &&
                 (@link_of glsl410_driver CodeVS bad_fs).1 = true).
Proof. split; [exact pb0_wf | exact (@CompileShader_contract glsl410_driver CodeVS bad_fs pb0 pb0_wf)]. Defined.

Lemma CompileShader_twice_witness :
  store_wf (gls pb0) ∧
  ∃ p1 p2 s1 s2,
    @CompileShader glsl410_driver CodeVS CodeFS pb0 = Some ((0, Some p1), s1) ∧
    @CompileShader glsl410_driver CodeVS CodeFS s1 = Some ((0, Some p2), s2) ∧
    p1 ≠ p2 ∧
    objects (gls s2) !! p1 = Some (ProgramObj (@final_program glsl410_driver CodeVS CodeFS)) ∧
    objects (gls s2) !! p2 = Some (ProgramObj (@final_program glsl410_driver CodeVS CodeFS)) ∧
    stderr s2 = stderr pb0 ∧ pending (gls s2) = pending (gls pb0).
Proof.
  split; [exact pb0_wf|].
  apply (@CompileShader_twice glsl410_driver CodeVS CodeFS pb0 pb0_wf); vm_compute; reflexivity.
Defined.

Lemma CompileShader_leaks_witness :
  @CompileShader glsl410_driver CodeVS bad_fs pb0 =
    Some ((@build_result glsl410_driver CodeVS bad_fs pb0).1, (@build_result glsl410_driver CodeVS bad_fs pb0).2) ∧
  (@build_result glsl410_driver CodeVS bad_fs pb0).1 = (1, None) ∧
  ∀ i, 1 <= i < 3 -> is_Some (objects (gls (@build_result glsl410_driver CodeVS bad_fs pb0).2) !! i).
Proof.
  assert (E : @CompileShader glsl410_driver CodeVS bad_fs pb0 =
    Some ((@build_result glsl410_driver CodeVS bad_fs pb0).1, (@build_result glsl410_driver CodeVS bad_fs pb0).2))
    by (vm_compute; reflexivity).
  assert (R : (@build_result glsl410_driver CodeVS bad_fs pb0).1 = (1, None)) by (vm_compute; reflexivity).
  destruct (@CompileShader_leaks glsl410_driver CodeVS bad_fs pb0 _ _ pb0_wf E) as (_ & L & _).
  split_and!; [exact E | exact R |]. intros i Hi. apply L; [by rewrite R|].
  assert (Hn : next_name (gls (@build_result glsl410_driver CodeVS bad_fs pb0).2) = 3) by (vm_compute; reflexivity).
  rewrite Hn. exact Hi.
Defined.


End ProgramBuilder.
