(* ===== verification/Diagnostics.v ===== *)
(** * Diagnostics: [ErrorStringOpenGL], [ErrorDescriptionOpenGL], [CheckOpenGL]

    [src/main.c] lines 51-95.  The two tables are the source's [switch]es as
    chains of tests on the code; [CheckOpenGL] is the source's
    [if]/[do ... while] loop over [glGetError], written with fuel
    ([check_loop]) because the loop's termination depends on the driver's
    queue, and each [fprintf] to stderr is one string of the output list.
    [glCheck X] executes the call [X] and then [CheckOpenGL("X")].

    The theorems give the output of [CheckOpenGL] line by line on any queue
    of real errors, show that the loop runs exactly once per pending error
    (more fuel changes nothing, less never reaches the end of the queue),
    that the two tables refine the specification's closed enumeration of
    error kinds ([gl_error], with [classify] as its total lookup), that the
    numerals of each printed line read back to the index and the code, and
    that diagnostics never change any GL state but the error queue. *)

From S2P Require Import Prelude CInt IEEE GL.
From Stdlib Require Import DecimalString DecimalZ.
From stdpp Require Import finite.
Open Scope Z_scope.

Module Diagnostics.
Local Open Scope string_scope.
Local Open Scope Z_scope.

Definition ErrorStringOpenGL (Error : GLenum) : string :=
  if Error =? GL_INVALID_ENUM then "GL_INVALID_ENUM"
  else if Error =? GL_INVALID_VALUE then "GL_INVALID_VALUE"
  else if Error =? GL_INVALID_OPERATION then "GL_INVALID_OPERATION"
  else if Error =? GL_STACK_OVERFLOW then "GL_STACK_OVERFLOW"
  else if Error =? GL_STACK_UNDERFLOW then "GL_STACK_UNDERFLOW"
  else if Error =? GL_OUT_OF_MEMORY then "GL_OUT_OF_MEMORY"
  else if Error =? GL_INVALID_FRAMEBUFFER_OPERATION then "GL_INVALID_FRAMEBUFFER_OPERATION"
  else if Error =? GL_CONTEXT_LOST then "GL_CONTEXT_LOST"
  else if Error =? GL_TABLE_TOO_LARGE1 then "GL_TABLE_TOO_LARGE1"
  else "unknwon".

Definition ErrorDescriptionOpenGL (Error : GLenum) : string :=
  if Error =? GL_INVALID_ENUM then "Given when an enumeration parameter is not a legal enumeration for that function. This is given only for local problems; if the spec allows the enumeration in certain circumstances, where other parameters or state dictate those circumstances, then GL_INVALID_OPERATION is the result instead."
  else if Error =? GL_INVALID_VALUE then "Given when a value parameter is not a legal value for that function. This is only given for local problems; if the spec allows the value in certain circumstances, where other parameters or state dictate those circumstances, then GL_INVALID_OPERATION is the result instead."
  else if Error =? GL_INVALID_OPERATION then "Given when the set of state for a command is not legal for the parameters given to that command. It is also given for commands where combinations of parameters define what the legal parameters are."
  else if Error =? GL_STACK_OVERFLOW then "Given when a stack pushing operation cannot be done because it would overflow the limit of that stack's size."
  else if Error =? GL_STACK_UNDERFLOW then "Given when a stack popping operation cannot be done because the stack is already at its lowest point."
  else if Error =? GL_OUT_OF_MEMORY then "Given when performing an operation that can allocate memory, and the memory cannot be allocated. The results of OpenGL functions that return this error are undefined; it is allowable for partial execution of an operation to happen in this circumstance."
  else if Error =? GL_INVALID_FRAMEBUFFER_OPERATION then "Given when doing anything that would attempt to read from or write/render to a framebuffer that is not complete."
  else if Error =? GL_CONTEXT_LOST then "Given if the OpenGL context has been lost, due to a graphics card reset (with OpenGL 4.5 or ARB_KHR_robustness)."
  else if Error =? GL_TABLE_TOO_LARGE1 then "Part of the ARB_imaging extension1. 1 These error codes are deprecated in 3.0 and removed in 3.1 core and above."
  else EmptyString.

(** The codes the two tables know, in the order of the [switch]. *)
Definition known_errors : list GLenum :=
  [GL_INVALID_ENUM; GL_INVALID_VALUE; GL_INVALID_OPERATION; GL_STACK_OVERFLOW;
   GL_STACK_UNDERFLOW; GL_OUT_OF_MEMORY; GL_INVALID_FRAMEBUFFER_OPERATION;
   GL_CONTEXT_LOST; GL_TABLE_TOO_LARGE1].

(** ** The error kinds of the specification

    The specification describes the name table as a total mapping from a
    closed enumeration of the known error kinds, with an explicit unknown
    case.  [gl_error] is that enumeration; [gl_error_code] is the value the
    GL registry gives each kind and [gl_error_name] its registry name;
    [classify] finds the kind of a code, [None] for an unknown one. *)
Inductive gl_error :=
| InvalidEnum | InvalidValue | InvalidOperation | StackOverflow | StackUnderflow
| OutOfMemory | InvalidFramebufferOperation | ContextLost | TableTooLarge.

#[export] Instance gl_error_eq_dec : EqDecision gl_error.
Proof. solve_decision. Defined.

#[export] Program Instance gl_error_finite : Finite gl_error :=
  {| enum := [InvalidEnum; InvalidValue; InvalidOperation; StackOverflow; StackUnderflow;
              OutOfMemory; InvalidFramebufferOperation; ContextLost; TableTooLarge] |}.
Next Obligation. match goal with |- ?P => apply (bool_decide_unpack P) end. reflexivity. Qed.
Next Obligation. intros []; set_solver. Qed.

Definition gl_error_code (k : gl_error) : GLenum :=
  match k with
  | InvalidEnum => 0x0500 | InvalidValue => 0x0501 | InvalidOperation => 0x0502
  | StackOverflow => 0x0503 | StackUnderflow => 0x0504 | OutOfMemory => 0x0505
  | InvalidFramebufferOperation => 0x0506 | ContextLost => 0x0507 | TableTooLarge => 0x8031
  end.

Definition gl_error_name (k : gl_error) : string :=
  match k with
  | InvalidEnum => "GL_INVALID_ENUM" | InvalidValue => "GL_INVALID_VALUE"
  | InvalidOperation => "GL_INVALID_OPERATION" | StackOverflow => "GL_STACK_OVERFLOW"
  | StackUnderflow => "GL_STACK_UNDERFLOW" | OutOfMemory => "GL_OUT_OF_MEMORY"
  | InvalidFramebufferOperation => "GL_INVALID_FRAMEBUFFER_OPERATION"
  | ContextLost => "GL_CONTEXT_LOST" | TableTooLarge => "GL_TABLE_TOO_LARGE1"
  end.

Definition classify (e : GLenum) : option gl_error :=
  snd <$> list_find (fun k => gl_error_code k = e) (enum gl_error).

(** ** [fprintf(stderr, ...)] *)
Definition tab : string := String (Ascii.ascii_of_nat 9) EmptyString.
Definition nl : string := String (Ascii.ascii_of_nat 10) EmptyString.

(** [%d] prints its argument as an [int]. *)
Definition fmt_d (z : Z) : string :=
  NilEmpty.string_of_int (Z.to_int (wrap_signed int_bits z)).

(** [fprintf(stderr, "\t[%d]: %s (%d) %s\n", I, ErrorStringOpenGL(Error),
    Error, ErrorDescriptionOpenGL(Error))] *)
Definition error_line (I : Z) (Error : GLenum) : string :=
  tab ++ "[" ++ fmt_d I ++ "]: " ++ ErrorStringOpenGL Error ++ " (" ++ fmt_d Error
      ++ ") " ++ ErrorDescriptionOpenGL Error ++ nl.

(** The [do ... while((Error = glGetError()) != GL_NO_ERROR)] loop, from
    the iteration that prints [Error] with index [I]. *)
Fixpoint check_loop (fuel : nat) (I : Z) (Error : GLenum) (c : gl_ctx)
  : option (gl_ctx * list string) :=
  match fuel with
  | O => None
  | S fuel' =>
      let line := error_line I Error in
      let '(Error', c') := glGetError c in
      if Error' =? GL_NO_ERROR then Some (c', [line])
      else match check_loop fuel' (I + 1) Error' c' with
           | Some (c'', out) => Some (c'', line :: out)
           | None => None
           end
  end.

Definition CheckOpenGL_fuel (fuel : nat) (CallStr : string) (c : gl_ctx)
  : option (gl_ctx * list string) :=
  let '(Error0, c1) := glGetError c in
  if Error0 =? GL_NO_ERROR then Some (c1, [])
  else match check_loop fuel 0 Error0 c1 with
       | Some (c2, out) => Some (c2, (CallStr ++ nl) :: out)
       | None => None
       end.

(** [CheckOpenGL] runs with one iteration per pending error
    ([CheckOpenGL_terminates] shows this is enough, [CheckOpenGL_fuel_mono]
    that more changes nothing). *)
Definition CheckOpenGL (CallStr : string) (c : gl_ctx) : gl_ctx * list string :=
  match CheckOpenGL_fuel (length (errors c)) CallStr c with
  | Some r => r
  | None => (c, [])
  end.

(** [glCheck(X)]: the call, then [CheckOpenGL(#X)]. *)
Definition glCheck `{GLDriver} (CallStr : string) (k : gl_call) (c : gl_ctx)
  : gl_ctx * Z * list string :=
  let '(c1, r) := gl_exec c k in
  let '(c2, out) := CheckOpenGL CallStr c1 in
  (c2, r, out).

(** ** What [CheckOpenGL] prints for a queue *)

(** One line per pending error, indexed from [I]. *)
Fixpoint error_lines (I : Z) (q : list GLenum) : list string :=
  match q with
  | [] => []
  | e :: q' => error_line I e :: error_lines (I + 1) q'
  end.

Definition report (CallStr : string) (q : list GLenum) : list string :=
  match q with
  | [] => []
  | _ => (CallStr ++ nl) :: error_lines 0 q
  end.


(** ** The loop *)

Lemma check_loop_spec fuel I e c :
  queue_ok c -> (length (errors c) < fuel)%nat ->
  check_loop fuel I e c = Some (set_errors c [], error_lines I (e :: errors c)).
Proof.
  revert I e c. induction fuel as [|fuel IH]; intros I e c Hq Hf; [lia|].
  simpl. unfold glGetError. unfold queue_ok in Hq. destruct (errors c) as [|e' q] eqn:Ec.
  - simpl. by rewrite set_errors_nil.
  - apply Forall_cons in Hq as [He' Hq]. apply Z.eqb_neq in He' as ->.
    rewrite IH; [done | exact Hq | simpl in *; lia].
Qed.

Lemma check_loop_terminates fuel I e c :
  (length (errors c) < fuel)%nat -> is_Some (check_loop fuel I e c).
Proof.
  revert I e c. induction fuel as [|fuel IH]; intros I e c Hf; [lia|].
  simpl. unfold glGetError. destruct (errors c) as [|e' q] eqn:Ec; simpl; [eauto|].
  destruct (e' =? GL_NO_ERROR); [eauto|].
  destruct (IH (I + 1) e' (set_errors c q)) as [[c'' out] ->]; [simpl in *; lia | eauto].
Qed.

Lemma check_loop_mono fuel fuel' I e c r :
  check_loop fuel I e c = Some r -> (fuel <= fuel')%nat -> check_loop fuel' I e c = Some r.
Proof.
  revert fuel' I e c r. induction fuel as [|fuel IH]; intros fuel' I e c r Hr Hle; [done|].
  destruct fuel' as [|fuel']; [lia|]. simpl in *.
  destruct (glGetError c) as [e' c']. destruct (e' =? GL_NO_ERROR); [done|].
  destruct (check_loop fuel (I + 1) e' c') as [[c'' out]|] eqn:E; [|done].
  rewrite (IH fuel' _ _ _ _ E) by lia. done.
Qed.

Lemma check_loop_same fuel I e c c' out :
  check_loop fuel I e c = Some (c', out) -> same_but_errors c' c.
Proof.
  revert I e c c' out. induction fuel as [|fuel IH]; intros I e c c' out H; [done|].
  simpl in H. pose proof (glGetError_same c) as Hs.
  destruct (glGetError c) as [e' c1]. simpl in Hs.
  destruct (e' =? GL_NO_ERROR).
  - injection H as <- _. exact Hs.
  - destruct (check_loop fuel (I + 1) e' c1) as [[c2 out']|] eqn:E; [|done].
    injection H as <- _. etransitivity; [exact (IH _ _ _ _ _ E) | exact Hs].
Qed.

Lemma CheckOpenGL_fuel_spec fuel CallStr c :
  queue_ok c -> (length (errors c) <= fuel)%nat ->
  CheckOpenGL_fuel fuel CallStr c = Some (set_errors c [], report CallStr (errors c)).
Proof.
  intros Hq Hf. unfold CheckOpenGL_fuel, glGetError, report.
  destruct (errors c) as [|e q] eqn:Ec.
  - simpl. by rewrite set_errors_nil.
  - pose proof Hq as Hq'. unfold queue_ok in Hq'. rewrite Ec in Hq'.
    apply Forall_cons in Hq' as [He Hq']. apply Z.eqb_neq in He as ->.
    rewrite check_loop_spec; [done | exact Hq' | simpl in *; lia].
Qed.

(** The closed form of a check on a well-formed queue. *)
Lemma CheckOpenGL_eq CallStr c :
  queue_ok c ->
  CheckOpenGL CallStr c = (set_errors c [], report CallStr (errors c)).
Proof.
  intros Hq. unfold CheckOpenGL. by rewrite CheckOpenGL_fuel_spec.
Qed.

Lemma error_lines_length I q : length (error_lines I q) = length q.
Proof. revert I. induction q as [|e q IH]; intros I; simpl; [done|]. by rewrite IH. Qed.

Lemma error_lines_lookup I q i e :
  q !! i = Some e -> error_lines I q !! i = Some (error_line (I + Z.of_nat i) e).
Proof.
  revert I i. induction q as [|e' q IH]; intros I [|i] Hi; simpl in *; try done.
  - injection Hi as ->. by rewrite Z.add_0_r.
  - rewrite (IH _ _ Hi). do 2 f_equal. lia.
Qed.

(** [C3] [CheckOpenGL] on a context whose error queue holds only real
    errors prints nothing when no error is pending; otherwise its output
    is the call's text, then one line per pending error, in queue order:
    the line of the [i]-th pending error is [error_line i e], the
    [	[i]: NAME (code) DESCRIPTION] of the [fprintf].  Afterwards no error
    is pending and nothing else of the context has changed. *)
Theorem CheckOpenGL_output CallStr c :
  queue_ok c ->
  let '(c', out) := CheckOpenGL CallStr c in
  c' = set_errors c [] ∧
  (errors c = [] -> out = []) ∧
  (errors c ≠ [] ->
   out !! 0%nat = Some (CallStr ++ nl) ∧ length out = S (length (errors c)) ∧
   ∀ i e, errors c !! i = Some e -> out !! (S i) = Some (error_line (Z.of_nat i) e)).
Proof.
  intros Hq. rewrite CheckOpenGL_eq by exact Hq. unfold report.
  destruct (errors c) as [|e0 q]; split_and!; try done.
  intros _. split_and!; [done | simpl; by rewrite error_lines_length |].
  intros i e Hi. cbn [lookup list_lookup]. by apply error_lines_lookup.
Qed.

Lemma check_loop_short fuel I e c :
  queue_ok c -> (fuel <= length (errors c))%nat -> check_loop fuel I e c = None.
Proof.
  revert I e c. induction fuel as [|fuel IH]; intros I e c Hq Hf; [done|].
  simpl. unfold glGetError. unfold queue_ok in Hq. destruct (errors c) as [|e' q] eqn:Ec; [simpl in Hf; lia|].
  apply Forall_cons in Hq as [He' Hq]. apply Z.eqb_neq in He' as ->.
  rewrite IH; [done | exact Hq | simpl in *; lia].
Qed.

(** [C9] The [do ... while] loop of [CheckOpenGL] runs exactly once per
    pending error: with at least as many iterations as errors are pending
    it always ends (on any queue, even one holding [GL_NO_ERROR]) with the
    result of [CheckOpenGL], and on a queue of real errors fewer iterations
    never reach the end of the queue. *)
Theorem CheckOpenGL_iterations CallStr c fuel :
  ((length (errors c) <= fuel)%nat -> CheckOpenGL_fuel fuel CallStr c = Some (CheckOpenGL CallStr c)) ∧
  (queue_ok c -> (fuel < length (errors c))%nat -> CheckOpenGL_fuel fuel CallStr c = None).
Proof.
  split.
  - intros Hf. unfold CheckOpenGL, CheckOpenGL_fuel, glGetError.
    destruct (errors c) as [|e q] eqn:Ec; [done|].
    destruct (e =? GL_NO_ERROR); [done|].
    destruct (check_loop_terminates (length (e :: q)) 0 e (set_errors c q))
      as [[c2 out] E]; [simpl; lia|].
    by rewrite E, (check_loop_mono _ _ _ _ _ _ E).
  - intros Hq Hf. unfold CheckOpenGL_fuel, glGetError. unfold queue_ok in Hq.
    destruct (errors c) as [|e q] eqn:Ec; [simpl in Hf; lia|].
    apply Forall_cons in Hq as [He Hq]. apply Z.eqb_neq in He as ->.
    rewrite check_loop_short; [done | exact Hq | simpl in *; lia].
Qed.

(** Diagnostics are advisory: [CheckOpenGL] changes no GL state but the
    error queue. *)
Lemma CheckOpenGL_same CallStr c : same_but_errors (fst (CheckOpenGL CallStr c)) c.
Proof.
  unfold CheckOpenGL, CheckOpenGL_fuel.
  pose proof (glGetError_same c) as Hs.
  destruct (glGetError c) as [e c1]. simpl in Hs.
  destruct (e =? GL_NO_ERROR); [exact Hs|].
  destruct (check_loop _ 0 e c1) as [[c2 out]|] eqn:E; simpl; [|reflexivity].
  etransitivity; [exact (check_loop_same _ _ _ _ _ _ E) | exact Hs].
Qed.

Lemma CheckOpenGL_queue_ok CallStr c : queue_ok c -> queue_ok (fst (CheckOpenGL CallStr c)).
Proof. intros Hq. rewrite CheckOpenGL_eq by exact Hq. constructor. Qed.

Lemma CheckOpenGL_drains CallStr c : queue_ok c -> errors (fst (CheckOpenGL CallStr c)) = [].
Proof. intros Hq. by rewrite CheckOpenGL_eq. Qed.

(** ** The name tables *)

Ltac known_cases H :=
  unfold known_errors in H;
  repeat (apply elem_of_cons in H; destruct H as [->|H]); [..|by apply elem_of_nil in H].

Lemma classify_Some e k : classify e = Some k -> gl_error_code k = e.
Proof.
  unfold classify. destruct (list_find _ _) as [[i k']|] eqn:E; intros [= <-].
  by apply list_find_Some in E as (_ & ? & _).
Qed.

Lemma classify_None e : classify e = None -> e ∉ known_errors.
Proof. intros E Hin. known_cases Hin; discriminate. Qed.

Lemma ErrorStringOpenGL_classify e :
  ErrorStringOpenGL e = from_option gl_error_name "unknwon" (classify e).
Proof.
  destruct (classify e) as [k|] eqn:E.
  - apply classify_Some in E as <-. by destruct k.
  - apply classify_None in E as Hz. unfold known_errors in Hz. rewrite !not_elem_of_cons in Hz.
    destruct_and!. unfold ErrorStringOpenGL. by repeat rewrite (proj2 (Z.eqb_neq _ _)) by done.
Qed.

Lemma error_lines_imap I q :
  error_lines I q = imap (fun i e => error_line (I + Z.of_nat i) e) q.
Proof.
  revert I. induction q as [|e q IH]; intros I; [done|]. rewrite imap_cons. cbn [error_lines].
  rewrite Z.add_0_r, IH. f_equal. apply imap_ext. intros i x _. unfold compose. f_equal. lia.
Qed.

(** [C8] The two tables refine the specification's total mapping from the
    closed enumeration of error kinds: a code of one of the nine kinds gets
    the registry name of its kind and a non-empty description; any other
    code gets the default name [unknwon] (sic, where the specification asks
    for an explicit unknown sentinel) and the empty description. *)
Theorem error_tables_refine e :
  ErrorStringOpenGL e = from_option gl_error_name "unknwon" (classify e) ∧
  (ErrorDescriptionOpenGL e = EmptyString <-> classify e = None).
Proof.
  split; [apply ErrorStringOpenGL_classify|].
  destruct (classify e) as [k|] eqn:E.
  - apply classify_Some in E as <-. by destruct k.
  - apply classify_None in E as Hz. unfold known_errors in Hz. rewrite !not_elem_of_cons in Hz.
    destruct_and!. unfold ErrorDescriptionOpenGL. by repeat rewrite (proj2 (Z.eqb_neq _ _)) by done.
Qed.

(** [%d] read back: the decimal text of an [int] parses to the value. *)
Lemma fmt_d_read z : z ∈ₛ int_bits -> Z.of_int <$> NilEmpty.int_of_string (fmt_d z) = Some z.
Proof.
  intros Hz. unfold fmt_d. rewrite NilEmpty.isi. cbn [fmap option_fmap option_map].
  rewrite DecimalZ.of_to. f_equal. apply wrap_signed_small; [unfold int_bits; lia|].
  by apply fits_signed_iff.
Qed.


(** ** Concrete runs *)

(** A context with two pending errors. *)
Definition ctx_two_errors : gl_ctx :=
  set_errors gl_ctx0 [GL_INVALID_OPERATION; GL_INVALID_VALUE].

Lemma CheckOpenGL_output_witness :
  queue_ok ctx_two_errors ∧
  CheckOpenGL "glClear(GL_COLOR_BUFFER_BIT)" ctx_two_errors =
    (gl_ctx0, report "glClear(GL_COLOR_BUFFER_BIT)" [GL_INVALID_OPERATION; GL_INVALID_VALUE]) ∧
  (CheckOpenGL "glClear(GL_COLOR_BUFFER_BIT)" ctx_two_errors).1 = set_errors ctx_two_errors [].
Proof.
  assert (Hq : queue_ok ctx_two_errors) by (repeat constructor; discriminate).
  split_and!; [exact Hq | vm_compute; reflexivity |].
  pose proof (CheckOpenGL_output "glClear(GL_COLOR_BUFFER_BIT)" ctx_two_errors Hq) as H.
  destruct (CheckOpenGL _ _) as [c' out]. exact (proj1 H).
Defined.

Lemma CheckOpenGL_iterations_witness :
  (length (errors ctx_two_errors) <= 5)%nat ∧ queue_ok ctx_two_errors ∧ (1 < length (errors ctx_two_errors))%nat ∧
  CheckOpenGL_fuel 5 "glClear" ctx_two_errors = Some (CheckOpenGL "glClear" ctx_two_errors) ∧
  CheckOpenGL_fuel 1 "glClear" ctx_two_errors = None.
Proof.
  assert (Hf : (length (errors ctx_two_errors) <= 5)%nat) by (simpl; lia).
  assert (Hq : queue_ok ctx_two_errors) by (repeat constructor; discriminate).
  assert (Hs : (1 < length (errors ctx_two_errors))%nat) by (simpl; lia).
  split_and!; [exact Hf | exact Hq | exact Hs |
    exact (proj1 (CheckOpenGL_iterations "glClear" ctx_two_errors 5) Hf) |
    exact (proj2 (CheckOpenGL_iterations "glClear" ctx_two_errors 1) Hq Hs)].
Defined.


(** The text [CheckOpenGL] prints for one pending [GL_INVALID_OPERATION]. *)
Example report_invalid_operation :
  report "glUseProgram(Shader)" [GL_INVALID_OPERATION] =
  ["glUseProgram(Shader)" ++ nl;
   tab ++ "[0]: GL_INVALID_OPERATION (1282) Given when the set of state for a command is not legal for the parameters given to that command. It is also given for commands where combinations of parameters define what the legal parameters are." ++ nl].
Proof. vm_compute. reflexivity. Qed.

End Diagnostics.
