(* ===== verification/FrameLoop.v ===== *)
(** * The frame loop of [main] ([src/main.c] lines 257-291)

    State: [ModelPosition] (the [GLfloat[2]] translation), [Running], the GL
    context, what was written to stderr and the number of presented frames.
    One iteration is a computation in a state monad [M] over that state:
    drain the batch of events [SDL_PollEvent] returns, clear, draw the quad
    with the current translation under [glCheck]s, swap.  The loop runs one
    iteration per batch while [Running] is set ([main_loop]); the same
    machine is also given as a step relation ([loop_step]) whose reachable
    states are characterised by rule induction.  [glCheck_report] gives
    the text one [glCheck(X)] appends to stderr for the errors [X] raised.

    A click is converted to normalised device coordinates in binary32
    exactly as the C expressions do ([ndc_x], [ndc_y]). *)

From S2P Require Import Prelude CInt IEEE GL Diagnostics.
From Stdlib Require Import Relations.Relation_Operators.
Import Diagnostics.
Open Scope Z_scope.

Module FrameLoop.

(** ** Events *)

(** The [SDL_Event]s the [switch] distinguishes; [x] and [y] are the
    [Sint32] fields [Event.button.x] and [Event.button.y]. *)
Inductive SDL_Event :=
| SDL_QUIT
| SDL_MOUSEBUTTONDOWN (x y : Z)
| SDL_OTHER (type : Z).

Definition is_quit (e : SDL_Event) : bool :=
  match e with SDL_QUIT => true | _ => false end.

Definition WindowWidth : Z := 192 * 6.
Definition WindowHeight : Z := 108 * 6.

(** [(2.0f*Event.button.x)/WindowWidth - 1.0f] *)
Definition ndc_x (x : Z) : spec_float :=
  ((f32_lit 2 * f32_of_Z x) / f32_of_Z WindowWidth - f32_lit 1)%f32.

(** [(-2.0f*Event.button.y)/WindowHeight + 1.0f] *)
Definition ndc_y (y : Z) : spec_float :=
  ((SFopp (f32_lit 2) * f32_of_Z y) / f32_of_Z WindowHeight + f32_lit 1)%f32.

(** ** State *)

Record loop_state := {
  ModelPosition : spec_float * spec_float;
  Running : bool;
  gl : gl_ctx;
  stderr : list string;
  swaps : nat
}.

Definition set_ModelPosition (st : loop_state) (p : spec_float * spec_float) : loop_state :=
  {| ModelPosition := p; Running := Running st; gl := gl st; stderr := stderr st;
     swaps := swaps st |}.

Definition set_Running (st : loop_state) (b : bool) : loop_state :=
  {| ModelPosition := ModelPosition st; Running := b; gl := gl st; stderr := stderr st;
     swaps := swaps st |}.

Definition set_gl (st : loop_state) (c : gl_ctx) (err : list string) : loop_state :=
  {| ModelPosition := ModelPosition st; Running := Running st; gl := c; stderr := err;
     swaps := swaps st |}.

(** ** The state monad of the loop *)

Definition M (A : Type) : Type := loop_state -> A * loop_state.

#[export] Instance M_ret : MRet M := fun A x st => (x, st).
#[export] Instance M_bind : MBind M := fun A B f m st => let '(x, st') := m st in f x st'.

Definition get_state : M loop_state := fun st => (st, st).

(** A GL call whose errors are left in the queue. *)
Definition exec `{GLDriver} (k : gl_call) : M Z :=
  fun st => let '(c, r) := gl_exec (gl st) k in (r, set_gl st c (stderr st)).

(** [CheckOpenGL(CallStr)], its output appended to stderr. *)
Definition check (CallStr : string) : M unit :=
  fun st => let '(c, out) := CheckOpenGL CallStr (gl st) in
            (tt, set_gl st c (stderr st ++ out)).

(** [glCheck(X)]. *)
Definition glCheckM `{GLDriver} (CallStr : string) (k : gl_call) : M Z :=
  r ← exec k; check CallStr;; mret r.

Definition SDL_GL_SwapWindow : M unit :=
  fun st => (tt, {| ModelPosition := ModelPosition st; Running := Running st;
                    gl := gl st; stderr := stderr st; swaps := S (swaps st) |}).

(** ** The drain *)

(** One case of the [switch (Event.type)]. *)
Definition handle_event (st : loop_state) (e : SDL_Event) : loop_state :=
  match e with
  | SDL_QUIT => set_Running st false
  | SDL_MOUSEBUTTONDOWN x y => set_ModelPosition st (ndc_x x, ndc_y y)
  | SDL_OTHER _ => st
  end.

(** [while (SDL_PollEvent(&Event)) { switch ... }] over the events the
    platform delivers before [SDL_PollEvent] returns 0. *)
Definition drain (batch : list SDL_Event) : M unit :=
  fun st => (tt, fold_left handle_event batch st).

(** ** One iteration *)

Local Open Scope string_scope.
Definition dq : string := String (Ascii.ascii_of_nat 34) EmptyString.
Definition uniform_call_str : string :=
  "glUniform2fv(glGetUniformLocation(Shader, " ++ dq ++ "ModelP" ++ dq ++ "), 1, ModelPosition)".
Local Close Scope string_scope.

Section Loop.
Context `{GLDriver} (Shader VAO : Z).

Definition render : M unit :=
  _ ← exec (glClearColor (f32_lit 1) (f32_lit 1) (f32_lit 1) (f32_lit 1));
  _ ← glCheckM "glClear(GL_COLOR_BUFFER_BIT)" (glClear GL_COLOR_BUFFER_BIT);
  _ ← glCheckM "glUseProgram(Shader)" (glUseProgram Shader);
  st ← get_state;
  loc ← exec (glGetUniformLocation Shader "ModelP");
  _ ← exec (glUniform2fv loc 1 (ModelPosition st));
  check uniform_call_str;;
  _ ← glCheckM "glBindVertexArray(VAO)" (glBindVertexArray VAO);
  _ ← glCheckM "glDrawArrays(GL_TRIANGLE_STRIP, 0, 4)" (glDrawArrays GL_TRIANGLE_STRIP 0 4);
  _ ← glCheckM "glBindVertexArray(0)" (glBindVertexArray 0);
  _ ← glCheckM "glUseProgram(0)" (glUseProgram 0);
  SDL_GL_SwapWindow.

(** The body of [while (Running)]. *)
Definition iteration (batch : list SDL_Event) : M unit :=
  drain batch;; render.

Definition run_iteration (batch : list SDL_Event) (st : loop_state) : loop_state :=
  snd (iteration batch st).

(** [while (Running) { ... }], one batch of events per iteration.  The
    list of batches is what the platform delivers; the loop stops
    consuming it once [Running] is cleared. *)
Fixpoint main_loop (batches : list (list SDL_Event)) (st : loop_state) : loop_state :=
  if Running st then
    match batches with
    | [] => st
    | b :: bs => main_loop bs (run_iteration b st)
    end
  else st.

(** The same loop as a transition system. *)
Inductive loop_step : loop_state -> loop_state -> Prop :=
| loop_step_iter st b : Running st = true -> loop_step st (run_iteration b st).

Definition reachable (st0 : loop_state) : loop_state -> Prop :=
  clos_refl_trans_1n loop_state loop_step st0.
End Loop.

(** The state when the loop is entered: [ModelPosition = {0}], [Running = 1]. *)
Definition init_state (c : gl_ctx) : loop_state :=
  {| ModelPosition := (S754_zero false, S754_zero false); Running := true; gl := c;
     stderr := []; swaps := 0 |}.

(** ** What a drain does *)

Definition click_of (e : SDL_Event) : option (Z * Z) :=
  match e with SDL_MOUSEBUTTONDOWN x y => Some (x, y) | _ => None end.

(** The clicks of a batch, in order. *)
Definition clicks (b : list SDL_Event) : list (Z * Z) := omap click_of b.

Definition ndc (p : Z * Z) : spec_float * spec_float := (ndc_x p.1, ndc_y p.2).

Lemma drain_fold b st :
  fold_left handle_event b st =
  {| ModelPosition := from_option ndc (ModelPosition st) (last (clicks b));
     Running := Running st && negb (existsb is_quit b);
     gl := gl st; stderr := stderr st; swaps := swaps st |}.
Proof.
  revert st. induction b as [|e b IH]; intros st.
  - destruct st. simpl. by rewrite andb_true_r.
  - simpl. rewrite IH. unfold clicks in *.
    destruct e; simpl; [| |reflexivity].
    + by rewrite andb_false_r.
    + rewrite last_cons. by destruct (last (omap click_of b)).
Qed.

(** The state after a drain, in closed form. *)
Lemma drain_snd b st :
  snd (drain b st) =
  {| ModelPosition := from_option ndc (ModelPosition st) (last (clicks b));
     Running := Running st && negb (existsb is_quit b);
     gl := gl st; stderr := stderr st; swaps := swaps st |}.
Proof. apply drain_fold. Qed.

(** [C2] Draining a batch sets [ModelPosition] to the NDC of the batch's
    last click, replacing the previous value (no accumulation), and leaves
    it unchanged when the batch has no click; [Running] is cleared exactly
    when the batch holds an [SDL_QUIT], and clicks after the [SDL_QUIT] in
    the same batch are still applied: the drain is not cut short. *)
Theorem drain_spec b st :
  snd (drain b st) =
  {| ModelPosition := from_option ndc (ModelPosition st) (last (clicks b));
     Running := Running st && negb (existsb is_quit b);
     gl := gl st; stderr := stderr st; swaps := swaps st |}.
Proof. exact (drain_snd b st). Qed.

(** ** Diagnostics do not steer the loop

    [ctrl_eq] identifies loop states that differ only in the GL error queue
    and in what was printed. *)

Definition ctrl_eq (st st' : loop_state) : Prop :=
  ModelPosition st = ModelPosition st' ∧ Running st = Running st' ∧
  swaps st = swaps st' ∧ same_but_errors (gl st) (gl st').

#[export] Instance ctrl_eq_equiv : Equivalence ctrl_eq.
Proof.
  split.
  - intros st. repeat split; reflexivity.
  - intros st st' (?&?&?&?). repeat split; by symmetry.
  - intros st1 st2 st3 (?&?&?&?) (?&?&?&?). repeat split; etransitivity; eauto.
Qed.

Section Refinement.
Context `{GLDriver}.

(** A call without diagnostics. *)
Definition step_ref (k : gl_call) (st : loop_state) : loop_state :=
  set_gl st (gl_effect (gl st) k) (stderr st).

Definition swap_ref (st : loop_state) : loop_state := snd (SDL_GL_SwapWindow st).

Lemma bind_snd {A B} (m : M A) (f : A -> M B) st :
  snd ((m ≫= f) st) = snd (f (fst (m st)) (snd (m st))).
Proof. unfold mbind, M_bind. by destruct (m st). Qed.

Lemma exec_fst k st : fst (exec k st) = gl_result k.
Proof. reflexivity. Qed.

Lemma get_state_fst st : fst (get_state st) = st.
Proof. reflexivity. Qed.

Lemma get_state_snd st : snd (get_state st) = st.
Proof. reflexivity. Qed.

Lemma swap_gl st : gl (snd (SDL_GL_SwapWindow st)) = gl st.
Proof. reflexivity. Qed.

Lemma exec_ctrl k st st' : ctrl_eq st st' -> ctrl_eq (snd (exec k st)) (step_ref k st').
Proof.
  intros (E1&E2&E3&E4). unfold exec, step_ref. simpl.
  repeat split; try done.
  etransitivity; [apply same_but_errors_set|]. by apply gl_effect_proper.
Qed.

Lemma check_ctrl CallStr st st' : ctrl_eq st st' -> ctrl_eq (snd (check CallStr st)) st'.
Proof.
  intros (E1&E2&E3&E4). unfold check.
  pose proof (CheckOpenGL_same CallStr (gl st)) as Hs.
  destruct (CheckOpenGL CallStr (gl st)) as [c out]. simpl in *.
  repeat split; try done. etransitivity; [exact Hs|exact E4].
Qed.

Lemma glCheckM_fst CallStr k st : fst (glCheckM CallStr k st) = gl_result k.
Proof.
  unfold glCheckM, mbind, M_bind, mret, M_ret. rewrite <- (exec_fst k st).
  destruct (exec k st). by destruct (check CallStr l).
Qed.

Lemma glCheckM_ctrl CallStr k st st' :
  ctrl_eq st st' -> ctrl_eq (snd (glCheckM CallStr k st)) (step_ref k st').
Proof.
  intros E. unfold glCheckM. rewrite !bind_snd. simpl.
  apply check_ctrl. by apply exec_ctrl.
Qed.

Lemma swap_ctrl st st' : ctrl_eq st st' -> ctrl_eq (snd (SDL_GL_SwapWindow st)) (swap_ref st').
Proof. intros (E1&E2&E3&E4). unfold swap_ref. simpl. repeat split; simpl; congruence. Qed.

Lemma ctrl_eq_ModelPosition st st' : ctrl_eq st st' -> ModelPosition st = ModelPosition st'.
Proof. by intros (?&?&?&?). Qed.
End Refinement.

(** ** The frame without diagnostics *)

(** The draw the frame loop issues with the uniform value [mp]. *)
Definition quad_draw (Shader VAO : Z) (mp : option (spec_float * spec_float)) : draw_info :=
  {| draw_program := Shader; draw_vao := VAO; draw_mode := GL_TRIANGLE_STRIP;
     draw_first := 0; draw_count := 4; draw_ModelP := mp |}.

Section RenderRef.
Context `{GLDriver} (Shader VAO : Z).

(** [render] with every [CheckOpenGL] removed. *)
Definition render_ref (st : loop_state) : loop_state :=
  let loc := gl_uniform_location Shader "ModelP" in
  swap_ref
    (step_ref (glUseProgram 0)
    (step_ref (glBindVertexArray 0)
    (step_ref (glDrawArrays GL_TRIANGLE_STRIP 0 4)
    (step_ref (glBindVertexArray VAO)
    (step_ref (glUniform2fv loc 1 (ModelPosition st))
    (step_ref (glGetUniformLocation Shader "ModelP")
    (step_ref (glUseProgram Shader)
    (step_ref (glClear GL_COLOR_BUFFER_BIT)
    (step_ref (glClearColor (f32_lit 1) (f32_lit 1) (f32_lit 1) (f32_lit 1)) st))))))))).

Lemma exec_MP k st : ModelPosition (snd (exec k st)) = ModelPosition st.
Proof. reflexivity. Qed.

Lemma check_MP CallStr st : ModelPosition (snd (check CallStr st)) = ModelPosition st.
Proof. unfold check. by destruct (CheckOpenGL CallStr (gl st)). Qed.

Lemma glCheckM_MP CallStr k st : ModelPosition (snd (glCheckM CallStr k st)) = ModelPosition st.
Proof. unfold glCheckM. rewrite !bind_snd. simpl. by rewrite check_MP. Qed.

(** Peel one primitive off both sides of a [ctrl_eq] goal, chosen by the
    head of the left-hand side (no unfolding during unification). *)
Ltac ctrl_step :=
  lazymatch goal with
  | |- ctrl_eq (snd (glCheckM _ _ _)) _ => apply glCheckM_ctrl
  | |- ctrl_eq (snd (check _ _)) _ => apply check_ctrl
  | |- ctrl_eq (snd (exec _ _)) _ => apply exec_ctrl
  | |- ctrl_eq (snd (SDL_GL_SwapWindow _)) _ => apply swap_ctrl
  end.

(** The frame sequence simulates its reference effect. *)
Lemma render_sim st : ctrl_eq (snd (render Shader VAO st)) (render_ref st).
Proof.
  unfold render, render_ref. repeat (rewrite bind_snd; cbv beta).
  rewrite exec_fst, get_state_fst, get_state_snd, !glCheckM_MP, exec_MP.
  repeat ctrl_step. reflexivity.
Qed.

(** [C4] Refinement: a frame with its [glCheck] diagnostics reaches, up to
    the error queue and stderr, the state of the same frame without
    diagnostics, whatever errors the driver raises. *)
Theorem render_refines st : ctrl_eq (snd (render Shader VAO st)) (render_ref st).
Proof. exact (render_sim st). Qed.

Lemma render_ref_fields st :
  let st' := render_ref st in
  let loc := gl_uniform_location Shader "ModelP" in
  ModelPosition st' = ModelPosition st ∧ Running st' = Running st ∧
  swaps st' = S (swaps st) ∧
  current_program (gl st') = 0 ∧ bound_vao (gl st') = 0 ∧
  cleared (gl st') = S (cleared (gl st)) ∧
  clear_color (gl st') = (f32_lit 1, f32_lit 1, f32_lit 1, f32_lit 1) ∧
  draws (gl st') = draws (gl st) ++
    [quad_draw Shader VAO
       (if decide (loc = -1) then uniforms (gl st) !! (Shader, loc)
        else Some (ModelPosition st))].
Proof.
  simpl. repeat case_decide; try congruence; simpl; split_and!;
    lazymatch goal with |- _ ++ _ = _ => unfold quad_draw | _ => reflexivity end.
  - reflexivity.
  - by rewrite lookup_insert_eq.
Qed.
End RenderRef.

(** ** The error queue across a frame *)

Section Queue.
Context `{GLDriver}.

Lemma exec_queue_ok k st : queue_ok (gl st) -> queue_ok (gl (snd (exec k st))).
Proof. apply gl_exec_queue_ok. Qed.

Lemma check_drains CallStr st :
  queue_ok (gl st) -> errors (gl (snd (check CallStr st))) = [].
Proof.
  intros Hq. unfold check. pose proof (CheckOpenGL_drains CallStr _ Hq) as E.
  destruct (CheckOpenGL CallStr (gl st)). exact E.
Qed.

Lemma check_queue_ok CallStr st : queue_ok (gl st) -> queue_ok (gl (snd (check CallStr st))).
Proof. intros Hq. unfold queue_ok. rewrite check_drains by exact Hq. constructor. Qed.

Lemma glCheckM_drains CallStr k st :
  queue_ok (gl st) -> errors (gl (snd (glCheckM CallStr k st))) = [].
Proof.
  intros Hq. unfold glCheckM. rewrite !bind_snd. simpl.
  apply check_drains, exec_queue_ok, Hq.
Qed.

Lemma glCheckM_queue_ok CallStr k st :
  queue_ok (gl st) -> queue_ok (gl (snd (glCheckM CallStr k st))).
Proof. intros Hq. unfold queue_ok. rewrite glCheckM_drains by exact Hq. constructor. Qed.

(** Every error a frame raises is reported within the frame: the last GL
    call of the frame is checked. *)
Lemma render_drains Shader VAO st :
  queue_ok (gl st) -> errors (gl (snd (render Shader VAO st))) = [].
Proof.
  intros Hq. unfold render. repeat (rewrite bind_snd; cbv beta).
  rewrite exec_fst, get_state_fst, get_state_snd, swap_gl.
  apply glCheckM_drains.
  repeat first [apply glCheckM_queue_ok | apply check_queue_ok | apply exec_queue_ok].
  exact Hq.
Qed.
Lemma gl_effect_errors c k : errors (gl_effect c k) = errors c.
Proof. destruct k; simpl; try reflexivity. by case_decide. Qed.

(** [glCheck(X)] on a context with no error pending: the call's result,
    then [CheckOpenGL] on the errors the call raised. *)
Lemma glCheckM_run CallStr k st :
  errors (gl st) = [] ->
  fst (glCheckM CallStr k st) = gl_result k ∧
  errors (gl (snd (glCheckM CallStr k st))) = [] ∧
  stderr (snd (glCheckM CallStr k st)) = stderr st ++ report CallStr (gl_raise (gl st) k).
Proof.
  intros He. split; [apply glCheckM_fst|].
  unfold glCheckM. rewrite !bind_snd. simpl. unfold exec, gl_exec. simpl.
  assert (Hq : queue_ok (set_errors (gl_effect (gl st) k) (errors (gl_effect (gl st) k) ++ gl_raise (gl st) k))).
  { unfold queue_ok. rewrite set_errors_errors, gl_effect_errors, He. apply gl_raise_errors. }
  unfold check. rewrite (CheckOpenGL_eq _ _ Hq). simpl.
  rewrite gl_effect_errors, He. split; reflexivity.
Qed.

(** [C11] What [glCheck(X)] prints, the specification's advisory tier:
    on a context with no error pending, a call that raises no error prints
    nothing; a call that raises the errors [q] prints the call's text and
    then, for the [i]-th error [e] of [q], the line
    [	[i]: NAME (e) DESCRIPTION] where NAME is the registry name of the
    kind of [e], or [unknwon] for a code of no kind.  The call's result is
    returned, nothing else is printed, and no error is left pending. *)
Theorem glCheck_report CallStr k st :
  errors (gl st) = [] ->
  let st' := snd (glCheckM CallStr k st) in
  let q := gl_raise (gl st) k in
  fst (glCheckM CallStr k st) = gl_result k ∧ errors (gl st') = [] ∧
  stderr st' = stderr st ++
    match q with
    | [] => []
    | _ => (CallStr ++ nl)%string ::
           imap (fun i e => tab ++ "[" ++ fmt_d (Z.of_nat i) ++ "]: " ++
                   from_option gl_error_name "unknwon" (classify e) ++ " (" ++ fmt_d e ++ ") " ++
                   ErrorDescriptionOpenGL e ++ nl)%string q
    end.
Proof.
  intros He st' q. destruct (glCheckM_run CallStr k st He) as (R & E & O).
  split_and!; [exact R | exact E |]. unfold st'. rewrite O. f_equal.
  unfold report, q. destruct (gl_raise (gl st) k) as [|e0 q0]; [reflexivity|].
  rewrite error_lines_imap. f_equal. apply imap_ext. intros i x _.
  unfold error_line. rewrite ErrorStringOpenGL_classify. f_equal.
Qed.
End Queue.

(** ** One iteration *)

Lemma clicks_app b1 b2 : clicks (b1 ++ b2) = clicks b1 ++ clicks b2.
Proof. apply omap_app. Qed.

(** The position after a sequence of clicks is the NDC of the last one. *)
Lemma from_option_last_app (p : spec_float * spec_float) c1 c2 :
  from_option ndc (from_option ndc p (last c1)) (last c2) = from_option ndc p (last (c1 ++ c2)).
Proof. rewrite last_app. by destruct (last c2). Qed.

Section Iteration.
Context `{GLDriver} (Shader VAO : Z).

Lemma iteration_ctrl b st :
  let st' := run_iteration Shader VAO b st in
  ModelPosition st' = from_option ndc (ModelPosition st) (last (clicks b)) ∧
  Running st' = Running st && negb (existsb is_quit b) ∧
  swaps st' = S (swaps st).
Proof.
  unfold run_iteration, iteration. rewrite bind_snd.
  pose proof (render_sim Shader VAO (snd (drain b st))) as (E1&E2&E3&_).
  pose proof (render_ref_fields Shader VAO (snd (drain b st))) as (F1&F2&F3&_).
  rewrite E1, E2, E3, F1, F2, F3, drain_snd. simpl. done.
Qed.

(** The observable effect of one iteration. *)
Lemma iteration_facts b st :
  gl_uniform_location Shader "ModelP" <> -1 ->
  let st' := run_iteration Shader VAO b st in
  let mp := from_option ndc (ModelPosition st) (last (clicks b)) in
  ModelPosition st' = mp ∧
  Running st' = Running st && negb (existsb is_quit b) ∧
  swaps st' = S (swaps st) ∧
  draws (gl st') = draws (gl st) ++ [quad_draw Shader VAO (Some mp)] ∧
  current_program (gl st') = 0 ∧ bound_vao (gl st') = 0 ∧
  (queue_ok (gl st) -> errors (gl st') = []).
Proof.
  intros Hloc st' mp. pose proof (iteration_ctrl b st) as (C1&C2&C3).
  unfold st', run_iteration, iteration in *. rewrite bind_snd in *.
  set (d := snd (drain b st)) in *.
  assert (Hd : ModelPosition d = mp ∧ gl d = gl st)
    by (unfold d; rewrite drain_snd; split; reflexivity).
  destruct Hd as [Hmp Hgl].
  pose proof (render_sim Shader VAO d) as (_&_&_&E4).
  pose proof (render_ref_fields Shader VAO d) as (_&_&_&F4&F5&_&_&F8).
  apply same_but_errors_fields in E4 as (_&G2&G3&_&_&_&G7).
  split_and!.
  - exact C1.
  - exact C2.
  - exact C3.
  - rewrite G7, F8, decide_False by exact Hloc. by rewrite Hmp, Hgl.
  - rewrite G2. exact F4.
  - rewrite G3. exact F5.
  - intros Hq. apply render_drains. by rewrite Hgl.
Qed.

(** [C1] One iteration of the frame loop on a batch of events: the
    translation becomes the NDC of the batch's last click (unchanged
    without a click), [Running] is cleared iff the batch holds an
    [SDL_QUIT], exactly one frame is presented and exactly one draw is
    issued, a 4-vertex triangle strip of the shader program and the
    vertex array whose [ModelP] uniform holds the new translation; the
    program and vertex array are unbound afterwards, and every GL error
    raised during the frame has been reported and drained. *)
Theorem iteration_spec b st :
  gl_uniform_location Shader "ModelP" <> -1 ->
  let st' := run_iteration Shader VAO b st in
  let mp := from_option ndc (ModelPosition st) (last (clicks b)) in
  ModelPosition st' = mp ∧
  Running st' = Running st && negb (existsb is_quit b) ∧
  swaps st' = S (swaps st) ∧
  draws (gl st') = draws (gl st) ++ [quad_draw Shader VAO (Some mp)] ∧
  current_program (gl st') = 0 ∧ bound_vao (gl st') = 0 ∧
  (queue_ok (gl st) -> errors (gl st') = []).
Proof. exact (iteration_facts b st). Qed.

Lemma main_loop_stopped bs st : Running st = false -> main_loop Shader VAO bs st = st.
Proof. intros Hr. destruct bs; simpl; by rewrite Hr. Qed.

Lemma main_loop_cons b bs st :
  Running st = true -> main_loop Shader VAO (b :: bs) st = main_loop Shader VAO bs (run_iteration Shader VAO b st).
Proof. intros Hr. simpl. by rewrite Hr. Qed.

(** The loop up to the first batch holding a quit. *)
Lemma main_loop_until_quit pre b post st :
  Running st = true ->
  Forall (fun b' => existsb is_quit b' = false) pre -> existsb is_quit b = true ->
  let st' := main_loop Shader VAO (pre ++ b :: post) st in
  Running st' = false ∧
  swaps st' = (swaps st + length pre + 1)%nat ∧
  ModelPosition st' = from_option ndc (ModelPosition st) (last (clicks (concat (pre ++ [b])))).
Proof.
  revert st. induction pre as [|b0 pre IH]; intros st Hr Hpre Hb; simpl.
  - rewrite Hr. pose proof (iteration_ctrl b st) as (C1&C2&C3).
    rewrite Hb, andb_false_r in C2. rewrite main_loop_stopped by exact C2.
    rewrite app_nil_r. split_and!; [exact C2 | lia | exact C1].
  - rewrite Hr. apply Forall_cons in Hpre as [Hb0 Hpre].
    pose proof (iteration_ctrl b0 st) as (C1&C2&C3).
    rewrite Hb0, Hr in C2. simpl in C2.
    destruct (IH _ C2 Hpre Hb) as (D1&D2&D3).
    split_and!; [exact D1 | rewrite D2, C3; lia |].
    rewrite D3, C1, from_option_last_app, clicks_app. done.
Qed.

(** [C5] The loop runs one iteration per batch until the first batch that
    holds an [SDL_QUIT]; that batch is still drained to its end and its
    frame is still drawn and presented, and no later batch is looked at.
    The final translation is the NDC of the last click up to and
    including that batch. *)
Theorem main_loop_quit pre b post st :
  Running st = true ->
  Forall (fun b' => existsb is_quit b' = false) pre -> existsb is_quit b = true ->
  let st' := main_loop Shader VAO (pre ++ b :: post) st in
  Running st' = false ∧
  swaps st' = (swaps st + length pre + 1)%nat ∧
  ModelPosition st' = from_option ndc (ModelPosition st) (last (clicks (concat (pre ++ [b])))).
Proof. exact (main_loop_until_quit pre b post st). Qed.

(** [C6] Without an [SDL_QUIT] the loop never stops: it presents exactly
    one frame per batch and keeps running. *)
Theorem main_loop_no_quit bs st :
  Running st = true -> Forall (fun b' => existsb is_quit b' = false) bs ->
  Running (main_loop Shader VAO bs st) = true ∧
  swaps (main_loop Shader VAO bs st) = (swaps st + length bs)%nat.
Proof.
  revert st. induction bs as [|b bs IH]; intros st Hr Hbs; simpl; rewrite Hr.
  - split; [exact Hr | lia].
  - apply Forall_cons in Hbs as [Hb Hbs].
    pose proof (iteration_ctrl b st) as (C1&C2&C3).
    rewrite Hb, Hr in C2. destruct (IH _ C2 Hbs) as [D1 D2].
    split; [exact D1 | rewrite D2, C3; lia].
Qed.
End Iteration.

(** ** The click-to-NDC conversion on the window's pixels *)

Definition ndc_x_exact (x : Z) : Q := inject_Z (2 * x) / inject_Z WindowWidth - 1.
Definition ndc_y_exact (y : Z) : Q := - inject_Z (2 * y) / inject_Z WindowHeight + 1.

(** Half an ulp of 1 in binary32. *)
Definition half_ulp_one : Q := 1 # 16777216.

Definition ndc_x_ok (x : Z) : bool :=
  let q := fl_to_Q (ndc_x x) in
  fl_finite (ndc_x x) && Qle_bool (-1) q && Qltb q 1 &&
  Qle_bool (Qabs (q - ndc_x_exact x)) half_ulp_one &&
  (if x + 1 <? WindowWidth then Qltb q (fl_to_Q (ndc_x (x + 1))) else true).

Definition ndc_y_ok (y : Z) : bool :=
  let q := fl_to_Q (ndc_y y) in
  fl_finite (ndc_y y) && Qltb (-1) q && Qle_bool q 1 &&
  Qle_bool (Qabs (q - ndc_y_exact y)) half_ulp_one &&
  (if y + 1 <? WindowHeight then Qltb (fl_to_Q (ndc_y (y + 1))) q else true).

(** Both tables are checked on every pixel column and row by evaluation. *)
Lemma ndc_x_table : forallb (fun k => ndc_x_ok (Z.of_nat k)) (seq 0 1152) = true.
Proof. vm_compute. reflexivity. Qed.

Lemma ndc_y_table : forallb (fun k => ndc_y_ok (Z.of_nat k)) (seq 0 648) = true.
Proof. vm_compute. reflexivity. Qed.

Lemma ndc_x_ok_all x : 0 <= x < WindowWidth -> ndc_x_ok x = true.
Proof. apply (forallb_seq_Z ndc_x_ok 1152 ndc_x_table). Qed.

Lemma ndc_y_ok_all y : 0 <= y < WindowHeight -> ndc_y_ok y = true.
Proof. apply (forallb_seq_Z ndc_y_ok 648 ndc_y_table). Qed.

(** A function on [0, n) that increases from each point to the next is
    injective there. *)
Lemma step_increasing_inj (f : Z -> Q) (n : Z) :
  (forall x, 0 <= x -> x + 1 < n -> (f x < f (x + 1)%Z)%Q) ->
  forall x1 x2, 0 <= x1 < n -> 0 <= x2 < n -> (f x1 == f x2)%Q -> x1 = x2.
Proof.
  intros Hstep.
  assert (Hlt : forall k x, 0 <= x -> x + Z.of_nat (S k) < n -> (f x < f (x + Z.of_nat (S k))%Z)%Q).
  { induction k as [|k IH]; intros x Hx Hk.
    - apply Hstep; lia.
    - eapply Qlt_trans; [apply IH; lia|].
      replace (x + Z.of_nat (S (S k))) with (x + Z.of_nat (S k) + 1) by lia.
      apply Hstep; lia. }
  intros x1 x2 H1 H2 E. destruct (Z.lt_total x1 x2) as [L|[L|L]]; [|exact L|].
  - pose proof (Hlt (Z.to_nat (x2 - x1 - 1)) x1) as P.
    replace (x1 + Z.of_nat (S (Z.to_nat (x2 - x1 - 1)))) with x2 in P by lia.
    exfalso. rewrite E in P. apply (Qlt_irrefl _ (P ltac:(lia) ltac:(lia))).
  - pose proof (Hlt (Z.to_nat (x1 - x2 - 1)) x2) as P.
    replace (x2 + Z.of_nat (S (Z.to_nat (x1 - x2 - 1)))) with x1 in P by lia.
    exfalso. rewrite E in P. apply (Qlt_irrefl _ (P ltac:(lia) ltac:(lia))).
Qed.

Ltac unpack_ok H :=
  unfold ndc_x_ok, ndc_y_ok in H; rewrite !andb_true_iff in H;
  destruct H as [[[[?Hfin ?Hlo] ?Hhi] ?Herr] ?Hstep].

(** [C7] For every pixel [(x, y)] of the 1152x648 window, the binary32
    translation a click there produces is finite, lies in [-1,1) x (-1,1],
    and is within half an ulp of 1 (2^-24) of the exact [2x/W - 1] and
    [-2y/H + 1] of the spec. *)
Theorem ndc_range x y :
  0 <= x < WindowWidth -> 0 <= y < WindowHeight ->
  fl_finite (ndc_x x) = true ∧ fl_finite (ndc_y y) = true ∧
  (-1 <= fl_to_Q (ndc_x x) < 1)%Q ∧ (-1 < fl_to_Q (ndc_y y) <= 1)%Q ∧
  (Qabs (fl_to_Q (ndc_x x) - ndc_x_exact x) <= half_ulp_one)%Q ∧
  (Qabs (fl_to_Q (ndc_y y) - ndc_y_exact y) <= half_ulp_one)%Q.
Proof.
  intros Hx Hy. pose proof (ndc_x_ok_all x Hx) as Ox. pose proof (ndc_y_ok_all y Hy) as Oy.
  unpack_ok Ox. unpack_ok Oy.
  rewrite Qle_bool_iff in *. rewrite Qltb_lt in *. split_and!; done.
Qed.

(** [C10] Distinct pixels give distinct translations: [x] is mapped
    strictly increasingly and [y] strictly decreasingly, so the conversion
    is injective on the pixel grid despite rounding. *)
Theorem ndc_injective x1 y1 x2 y2 :
  0 <= x1 < WindowWidth -> 0 <= y1 < WindowHeight ->
  0 <= x2 < WindowWidth -> 0 <= y2 < WindowHeight ->
  ndc (x1, y1) = ndc (x2, y2) -> x1 = x2 ∧ y1 = y2.
Proof.
  intros Hx1 Hy1 Hx2 Hy2 E. unfold ndc in E. simpl in E. injection E as Ex Ey. split.
  - apply (step_increasing_inj (fun x => fl_to_Q (ndc_x x)) WindowWidth); [|done|done|by rewrite Ex].
    intros x Hx Hn. pose proof (ndc_x_ok_all x ltac:(lia)) as O. unpack_ok O.
    rewrite (proj2 (Z.ltb_lt _ _) Hn) in Hstep. by apply Qltb_lt.
  - apply (step_increasing_inj (fun y => - fl_to_Q (ndc_y y))%Q WindowHeight); [|done|done|by rewrite Ey].
    intros y Hy Hn. pose proof (ndc_y_ok_all y ltac:(lia)) as O. unpack_ok O.
    rewrite (proj2 (Z.ltb_lt _ _) Hn) in Hstep. apply Qltb_lt in Hstep.
    by apply Qopp_lt_compat.
Qed.

(** ** The spec's scenarios *)

Definition click_center : SDL_Event := SDL_MOUSEBUTTONDOWN (WindowWidth / 2) (WindowHeight / 2).
Definition click_origin : SDL_Event := SDL_MOUSEBUTTONDOWN 0 0.

(** The translation [(-1, 1)] in binary32. *)
Definition top_left : spec_float * spec_float := (SFopp (f32_lit 1), f32_lit 1).

Lemma ndc_center : ndc (WindowWidth / 2, WindowHeight / 2) = (S754_zero false, S754_zero false).
Proof. vm_compute. reflexivity. Qed.

Lemma ndc_origin : ndc (0, 0) = top_left.
Proof. vm_compute. reflexivity. Qed.

Section Scenarios.
Context `{GLDriver} (Shader VAO : Z).

(** The spec's end-to-end run: a click at the window's centre moves
    the quad to [(0, 0)], a click at the top-left pixel moves it to
    [(-1, 1)], and an [SDL_QUIT] stops the loop in that same polling pass,
    after three presented frames. *)
Theorem scenario_center_origin_quit st :
  Running st = true ->
  let st1 := run_iteration Shader VAO [click_center] st in
  let st2 := run_iteration Shader VAO [click_origin] st1 in
  let st' := main_loop Shader VAO [[click_center]; [click_origin]; [SDL_QUIT]] st in
  ModelPosition st1 = (S754_zero false, S754_zero false) ∧
  ModelPosition st2 = top_left ∧
  Running st' = false ∧ swaps st' = (swaps st + 3)%nat ∧ ModelPosition st' = top_left.
Proof.
  intros Hr st1 st2 st'.
  destruct (iteration_ctrl Shader VAO [click_center] st) as (A1&_&_).
  destruct (iteration_ctrl Shader VAO [click_origin] st1) as (B1&_&_).
  destruct (main_loop_until_quit Shader VAO [[click_center]; [click_origin]] [SDL_QUIT] [] st Hr)
    as (D1&D2&D3); [repeat constructor | reflexivity |].
  cbn [app] in D1, D2, D3. unfold st2, st1, st' in *.
  split_and!.
  - rewrite A1. apply ndc_center.
  - rewrite B1. apply ndc_origin.
  - exact D1.
  - rewrite D2. simpl. lia.
  - rewrite D3. apply ndc_origin.
Qed.

(** [C12] The spec's open question, as the code answers it: when an
    [SDL_QUIT] and a click arrive in the same batch in that order, the
    click is still applied, the frame is still drawn at the new position
    and presented, and only then does the loop stop. *)
Theorem quit_then_click st :
  Running st = true -> gl_uniform_location Shader "ModelP" <> -1 ->
  let st' := main_loop Shader VAO [[SDL_QUIT; click_origin]] st in
  Running st' = false ∧ ModelPosition st' = top_left ∧ swaps st' = S (swaps st) ∧
  last (draws (gl st')) = Some (quad_draw Shader VAO (Some top_left)).
Proof.
  intros Hr Hloc st'. unfold st'. rewrite main_loop_cons by exact Hr.
  destruct (iteration_facts Shader VAO [SDL_QUIT; click_origin] st Hloc)
    as (A1&A2&A3&A4&_).
  rewrite andb_false_r in A2. rewrite main_loop_stopped by exact A2.
  replace (from_option ndc (ModelPosition st) (last (clicks [SDL_QUIT; click_origin])))
    with top_left in A1 by (symmetry; exact ndc_origin).
  split_and!; [exact A2 | exact A1 | exact A3 |].
  rewrite A4, last_snoc. now rewrite <- ndc_origin.
Qed.
End Scenarios.

(** ** The loop as a transition system *)

Section Machine.
Context `{GLDriver} (Shader VAO : Z).

(** The states the step relation reaches are the states [main_loop]
    reaches on some sequence of batches. *)
Lemma reachable_main_loop st0 st :
  reachable Shader VAO st0 st -> exists bs, st = main_loop Shader VAO bs st0.
Proof.
  induction 1 as [st0|st0 st1 st [st0' b Hr] _ [bs ->]].
  - exists []. simpl. by destruct (Running st0).
  - exists (b :: bs). simpl. by rewrite Hr.
Qed.

(** The screen after a frame: nothing bound, no pending error, and the
    last draw is the quad at the current translation. *)
Definition after_frame (st : loop_state) : Prop :=
  current_program (gl st) = 0 ∧ bound_vao (gl st) = 0 ∧
  last (draws (gl st)) = Some (quad_draw Shader VAO (Some (ModelPosition st))).

(** [C13] Invariant of the frame loop, by rule induction on its step
    relation: from a start state with no pending GL error, every reachable
    state has no pending GL error, and every state reached by at least one
    iteration has the program and vertex array unbound and shows, as its
    last draw, the quad at the current translation. *)
Theorem reachable_inv st0 st :
  gl_uniform_location Shader "ModelP" <> -1 -> errors (gl st0) = [] ->
  reachable Shader VAO st0 st ->
  errors (gl st) = [] ∧ (st = st0 ∨ after_frame st).
Proof.
  intros Hloc He Hreach. revert He.
  induction Hreach as [st0|st0 st1 st [st0' b Hr] _ IH]; intros He; [auto|].
  destruct (iteration_facts Shader VAO b st0' Hloc) as (A1&_&_&A4&A5&A6&A7).
  assert (He1 : errors (gl (run_iteration Shader VAO b st0')) = []).
  { apply A7. unfold queue_ok. rewrite He. constructor. }
  destruct (IH He1) as [E [->|F]]; split; try assumption; right; [|exact F].
  split_and!; [exact A5 | exact A6 |]. rewrite A4, A1. apply last_snoc.
Qed.
End Machine.

(** ** Diagnostics never steer the loop *)

Lemma gl_effect_driver (D1 D2 : GLDriver) c k :
  (forall p n, @gl_uniform_location D1 p n = @gl_uniform_location D2 p n) ->
  @gl_effect D1 c k = @gl_effect D2 c k.
Proof. intros Hl. destruct k; simpl; try reflexivity. by rewrite Hl. Qed.

Lemma step_ref_driver (D1 D2 : GLDriver) k st :
  (forall p n, @gl_uniform_location D1 p n = @gl_uniform_location D2 p n) ->
  @step_ref D1 k st = @step_ref D2 k st.
Proof. intros Hl. unfold step_ref. by rewrite (gl_effect_driver D1 D2). Qed.

Lemma render_ref_driver (D1 D2 : GLDriver) Shader VAO st :
  (forall p n, @gl_uniform_location D1 p n = @gl_uniform_location D2 p n) ->
  @render_ref D1 Shader VAO st = @render_ref D2 Shader VAO st.
Proof.
  intros Hl. unfold render_ref. rewrite Hl.
  repeat (rewrite (step_ref_driver D1 D2) by exact Hl). reflexivity.
Qed.

Section Advisory.
Context `{GLDriver} (Shader VAO : Z).

Lemma step_ref_ctrl k st st' : ctrl_eq st st' -> ctrl_eq (step_ref k st) (step_ref k st').
Proof. intros (E1&E2&E3&E4). repeat split; try done. simpl. by apply gl_effect_proper. Qed.

Lemma render_ref_ctrl st st' :
  ctrl_eq st st' -> ctrl_eq (render_ref Shader VAO st) (render_ref Shader VAO st').
Proof.
  intros E. unfold render_ref. rewrite (ctrl_eq_ModelPosition _ _ E).
  apply swap_ctrl. repeat apply step_ref_ctrl. exact E.
Qed.

Lemma drain_ctrl b st st' : ctrl_eq st st' -> ctrl_eq (snd (drain b st)) (snd (drain b st')).
Proof. intros (E1&E2&E3&E4). rewrite !drain_snd. repeat split; simpl; congruence. Qed.

Lemma run_iteration_ref b st :
  ctrl_eq (run_iteration Shader VAO b st) (render_ref Shader VAO (snd (drain b st))).
Proof. unfold run_iteration, iteration. rewrite bind_snd. apply render_sim. Qed.

#[export] Instance run_iteration_proper b :
  Proper (ctrl_eq ==> ctrl_eq) (run_iteration Shader VAO b).
Proof.
  intros st st' E. rewrite !run_iteration_ref. by apply render_ref_ctrl, drain_ctrl.
Qed.

#[export] Instance main_loop_proper bs : Proper (ctrl_eq ==> ctrl_eq) (main_loop Shader VAO bs).
Proof.
  induction bs as [|b bs IH]; intros st st' E; simpl.
  - destruct (Running st), (Running st'); exact E.
  - pose proof E as (_&E2&_&_). rewrite <- E2. destruct (Running st); [|exact E].
    apply IH. by apply run_iteration_proper.
Qed.
End Advisory.


(** ** Concrete runs *)

Definition st_start : loop_state := init_state gl_ctx0.

Lemma iteration_spec_witness :
  @gl_uniform_location quiet_driver 3 "ModelP" <> -1 ∧
  ModelPosition (@run_iteration quiet_driver 3 1 [click_origin] st_start) = top_left ∧
  last (draws (gl (@run_iteration quiet_driver 3 1 [click_origin] st_start)))
    = Some (quad_draw 3 1 (Some top_left)).
Proof.
  assert (Hloc : @gl_uniform_location quiet_driver 3 "ModelP" <> -1) by discriminate.
  destruct (@iteration_spec quiet_driver 3 1 [click_origin] st_start Hloc) as (A1&_&_&A4&_).
  split_and!; [exact Hloc | exact A1 |]. rewrite A4. reflexivity.
Defined.

Lemma glCheck_report_witness :
  errors (gl st_start) = [] ∧
  stderr (snd (@glCheckM noisy_driver "glDrawArrays(GL_TRIANGLE_STRIP, 0, 4)"
                 (glDrawArrays GL_TRIANGLE_STRIP 0 4) st_start)) =
    [("glDrawArrays(GL_TRIANGLE_STRIP, 0, 4)" ++ nl)%string;
     (tab ++ "[0]: GL_INVALID_OPERATION (1282) " ++ ErrorDescriptionOpenGL GL_INVALID_OPERATION ++ nl)%string].
Proof.
  assert (He : errors (gl st_start) = []) by reflexivity.
  split; [exact He|].
  destruct (@glCheck_report noisy_driver "glDrawArrays(GL_TRIANGLE_STRIP, 0, 4)"
              (glDrawArrays GL_TRIANGLE_STRIP 0 4) st_start He) as (_ & _ & O).
  rewrite O. vm_compute. reflexivity.
Defined.

Lemma main_loop_quit_witness :
  Running st_start = true ∧
  Running (@main_loop noisy_driver 3 1 [[click_center]; [SDL_QUIT]; [click_origin]] st_start) = false ∧
  swaps (@main_loop noisy_driver 3 1 [[click_center]; [SDL_QUIT]; [click_origin]] st_start) = 2%nat.
Proof.
  assert (Hr : Running st_start = true) by reflexivity.
  destruct (@main_loop_quit noisy_driver 3 1 [[click_center]] [SDL_QUIT] [[click_origin]] st_start Hr)
    as (D1&D2&_); [repeat constructor | reflexivity |].
  cbn [app] in D1, D2. split_and!; [exact Hr | exact D1 | rewrite D2; reflexivity].
Defined.

Lemma main_loop_no_quit_witness :
  Running st_start = true ∧
  Running (@main_loop quiet_driver 3 1 [[click_center]; []; [SDL_OTHER 1024]] st_start) = true ∧
  swaps (@main_loop quiet_driver 3 1 [[click_center]; []; [SDL_OTHER 1024]] st_start) = 3%nat.
Proof.
  assert (Hr : Running st_start = true) by reflexivity.
  destruct (@main_loop_no_quit quiet_driver 3 1 [[click_center]; []; [SDL_OTHER 1024]] st_start Hr)
    as (D1&D2); [repeat constructor|].
  split_and!; [exact Hr | exact D1 | rewrite D2; reflexivity].
Defined.

Lemma ndc_range_witness :
  (0 <= 1151 < WindowWidth) ∧ (0 <= 647 < WindowHeight) ∧
  (-1 <= fl_to_Q (ndc_x 1151) < 1)%Q ∧ (-1 < fl_to_Q (ndc_y 647) <= 1)%Q.
Proof.
  assert (Hx : 0 <= 1151 < WindowWidth) by (unfold WindowWidth; lia).
  assert (Hy : 0 <= 647 < WindowHeight) by (unfold WindowHeight; lia).
  destruct (ndc_range 1151 647 Hx Hy) as (_&_&R1&R2&_).
  exact (conj Hx (conj Hy (conj R1 R2))).
Defined.

Lemma ndc_injective_witness :
  ndc (17, 400) = ndc (17, 400) ∧ 17 = 17 ∧ 400 = 400.
Proof.
  assert (E : ndc (17, 400) = ndc (17, 400)) by reflexivity.
  split; [exact E|].
  apply (ndc_injective 17 400 17 400); [unfold WindowWidth, WindowHeight; lia..|exact E].
Defined.

Lemma scenario_witness :
  Running st_start = true ∧
  Running (@main_loop noisy_driver 3 1 [[click_center]; [click_origin]; [SDL_QUIT]] st_start) = false.
Proof.
  assert (Hr : Running st_start = true) by reflexivity.
  destruct (@scenario_center_origin_quit noisy_driver 3 1 st_start Hr) as (_&_&D&_).
  split; [exact Hr | exact D].
Defined.

Lemma quit_then_click_witness :
  Running st_start = true ∧ @gl_uniform_location quiet_driver 3 "ModelP" <> -1 ∧
  ModelPosition (@main_loop quiet_driver 3 1 [[SDL_QUIT; click_origin]] st_start) = top_left.
Proof.
  assert (Hr : Running st_start = true) by reflexivity.
  assert (Hloc : @gl_uniform_location quiet_driver 3 "ModelP" <> -1) by discriminate.
  destruct (@quit_then_click quiet_driver 3 1 st_start Hr Hloc) as (_&D&_).
  split_and!; [exact Hr | exact Hloc | exact D].
Defined.

Lemma reachable_inv_witness :
  let st1 := @run_iteration noisy_driver 3 1 [click_center] st_start in
  @reachable noisy_driver 3 1 st_start st1 ∧
  errors (gl st1) = [] ∧ (st1 = st_start ∨ after_frame 3 1 st1).
Proof.
  intros st1.
  assert (Hreach : @reachable noisy_driver 3 1 st_start st1).
  { eapply rt1n_trans; [apply loop_step_iter; reflexivity | apply rt1n_refl]. }
  split; [exact Hreach|].
  apply (@reachable_inv noisy_driver 3 1 st_start st1); [discriminate | reflexivity | exact Hreach].
Defined.


End FrameLoop.
