(* ===== verification/Geometry.v ===== *)
(** * The geometry buffer: [MeshData], its vertex layout and the draw

    [MeshData] ([src/main.c], lines 96-101) holds four interleaved vertices
    of six [GLfloat]s, a position and a colour.  [main] (lines 242-253)
    generates a buffer and a vertex array, uploads [MeshData] and declares
    two attributes, position at index 0 and colour at index 1, three
    floats each with a stride of six floats.  The frame loop draws them as
    a four-vertex triangle strip through the vertex and fragment stages of
    [CodeVS] and [CodeFS].

    The GL state the set-up touches is [geo_state]: buffer objects with
    their contents (as [GLfloat]s, byte offsets checked for alignment), the
    vertex arrays with their attribute records, and the two bindings.  The
    calls follow the GL 4.1 core specification, including the errors a call
    raises on a name that was not generated or with no vertex array bound.
    Vertex fetch and strip assembly are the ones the GL specification
    defines for [glDrawArrays]; the two shader stages are translated from
    the GLSL text, with the vertex stage's addition done in binary32
    round-to-nearest (GLSL 4.10 only requires correct rounding). *)

From S2P Require Import Prelude CInt IEEE GL Shader FrameLoop.
From Stdlib Require Import Lqa.
Open Scope Z_scope.

Module Geometry.

(** ** The vertex data *)

(** The literals [0.5f], [1.0f] and [0.0f]; [-0.5f] is the negation of
    [0.5f]. *)
Definition f32_half : spec_float := S754_finite false 8388608 (-24).
Definition f32_one : spec_float := f32_lit 1.
Definition f32_zero : spec_float := S754_zero false.

Definition MeshData : list spec_float :=
  [ f32_half;         f32_half;         f32_zero; f32_one;  f32_zero; f32_zero;
    SFopp f32_half;   f32_half;         f32_zero; f32_one;  f32_one;  f32_zero;
    f32_half;         SFopp f32_half;   f32_zero; f32_zero; f32_zero; f32_one;
    SFopp f32_half;   SFopp f32_half;   f32_zero; f32_zero; f32_one;  f32_zero ].

Definition sizeof_GLfloat : Z := 4.

(** [sizeof(MeshData)]. *)
Definition sizeof_MeshData : Z := sizeof_GLfloat * Z.of_nat (length MeshData).

(** ** GL buffer and vertex-array state *)

Definition GL_ARRAY_BUFFER : GLenum := 0x8892.
Definition GL_STATIC_DRAW : GLenum := 0x88E4.
Definition GL_FLOAT : GLenum := 0x1406.
Definition GL_MAX_VERTEX_ATTRIBS : Z := 16.

(** One generic vertex attribute of a vertex array. *)
Record vertex_attrib := {
  va_enabled : bool;
  va_size : Z;
  va_type : GLenum;
  va_normalized : bool;
  va_stride : Z;
  va_offset : Z;
  va_buffer : Z
}.

(** The initial state of every attribute of a new vertex array. *)
Definition attrib_init : vertex_attrib :=
  {| va_enabled := false; va_size := 4; va_type := GL_FLOAT; va_normalized := false;
     va_stride := 0; va_offset := 0; va_buffer := 0 |}.

Record geo_state := {
  buffer_names : list Z;               (* generated by [glGenBuffers] *)
  buffers : gmap Z (list spec_float);  (* objects created by a bind *)
  vao_names : list Z;
  vaos : gmap Z (gmap Z vertex_attrib);
  array_buffer : Z;
  vertex_array : Z;
  next_name_geo : Z;
  geo_errors : list GLenum
}.

Definition geo_raise (st : geo_state) (e : GLenum) : geo_state :=
  {| buffer_names := buffer_names st; buffers := buffers st; vao_names := vao_names st;
     vaos := vaos st; array_buffer := array_buffer st; vertex_array := vertex_array st;
     next_name_geo := next_name_geo st; geo_errors := geo_errors st ++ [e] |}.

(** [glGenBuffers(1, &b)]: reserves a fresh name. *)
Definition glGenBuffers (st : geo_state) : Z * geo_state :=
  let n := next_name_geo st in
  (n, {| buffer_names := n :: buffer_names st; buffers := buffers st; vao_names := vao_names st;
         vaos := vaos st; array_buffer := array_buffer st; vertex_array := vertex_array st;
         next_name_geo := n + 1; geo_errors := geo_errors st |}).

Definition glGenVertexArrays (st : geo_state) : Z * geo_state :=
  let n := next_name_geo st in
  (n, {| buffer_names := buffer_names st; buffers := buffers st; vao_names := n :: vao_names st;
         vaos := vaos st; array_buffer := array_buffer st; vertex_array := vertex_array st;
         next_name_geo := n + 1; geo_errors := geo_errors st |}).

(** [glBindVertexArray(v)]: [0] or a generated name; the first bind
    creates the object with every attribute in its initial state. *)
Definition glBindVertexArray (v : Z) (st : geo_state) : geo_state :=
  if decide (v = 0 ∨ v ∈ vao_names st) then
    {| buffer_names := buffer_names st; buffers := buffers st; vao_names := vao_names st;
       vaos := if decide (v = 0) then vaos st
               else match vaos st !! v with Some _ => vaos st | None => <[v := ∅]> (vaos st) end;
       array_buffer := array_buffer st; vertex_array := v;
       next_name_geo := next_name_geo st; geo_errors := geo_errors st |}
  else geo_raise st GL_INVALID_OPERATION.

(** [glBindBuffer(GL_ARRAY_BUFFER, b)]: likewise, creating an empty buffer. *)
Definition glBindBuffer (target b : Z) (st : geo_state) : geo_state :=
  if decide (target ≠ GL_ARRAY_BUFFER) then geo_raise st GL_INVALID_ENUM else
  if decide (b = 0 ∨ b ∈ buffer_names st) then
    {| buffer_names := buffer_names st;
       buffers := if decide (b = 0) then buffers st
                  else match buffers st !! b with Some _ => buffers st | None => <[b := []]> (buffers st) end;
       vao_names := vao_names st; vaos := vaos st; array_buffer := b;
       vertex_array := vertex_array st; next_name_geo := next_name_geo st;
       geo_errors := geo_errors st |}
  else geo_raise st GL_INVALID_OPERATION.

(** [glBufferData(GL_ARRAY_BUFFER, size, data, usage)]: the bound buffer's
    store becomes the first [size] bytes of [data]. *)
Definition glBufferData (target size : Z) (data : list spec_float) (usage : GLenum)
    (st : geo_state) : geo_state :=
  if decide (target ≠ GL_ARRAY_BUFFER) then geo_raise st GL_INVALID_ENUM else
  if decide (size < 0) then geo_raise st GL_INVALID_VALUE else
  if decide (array_buffer st = 0) then geo_raise st GL_INVALID_OPERATION else
  {| buffer_names := buffer_names st;
     buffers := <[array_buffer st := take (Z.to_nat (size / sizeof_GLfloat)) data]> (buffers st);
     vao_names := vao_names st; vaos := vaos st; array_buffer := array_buffer st;
     vertex_array := vertex_array st; next_name_geo := next_name_geo st;
     geo_errors := geo_errors st |}.

Definition set_attrib (st : geo_state) (index : Z) (f : vertex_attrib -> vertex_attrib) : geo_state :=
  let v := vertex_array st in
  let attrs := default ∅ (vaos st !! v) in
  {| buffer_names := buffer_names st; buffers := buffers st; vao_names := vao_names st;
     vaos := <[v := <[index := f (default attrib_init (attrs !! index))]> attrs]> (vaos st);
     array_buffer := array_buffer st; vertex_array := v;
     next_name_geo := next_name_geo st; geo_errors := geo_errors st |}.

(** [glVertexAttribPointer(index, size, type, normalized, stride, pointer)]
    records the format and the buffer bound to [GL_ARRAY_BUFFER] in the
    bound vertex array. *)
Definition glVertexAttribPointer (index size : Z) (type : GLenum) (normalized : bool)
    (stride pointer : Z) (st : geo_state) : geo_state :=
  if decide (vertex_array st = 0) then geo_raise st GL_INVALID_OPERATION else
  if decide (index < 0 ∨ GL_MAX_VERTEX_ATTRIBS <= index) then geo_raise st GL_INVALID_VALUE else
  if decide (size < 1 ∨ 4 < size ∨ stride < 0) then geo_raise st GL_INVALID_VALUE else
  if decide (array_buffer st = 0 ∧ pointer ≠ 0) then geo_raise st GL_INVALID_OPERATION else
  set_attrib st index (fun a =>
    {| va_enabled := va_enabled a; va_size := size; va_type := type; va_normalized := normalized;
       va_stride := stride; va_offset := pointer; va_buffer := array_buffer st |}).

Definition glEnableVertexAttribArray (index : Z) (st : geo_state) : geo_state :=
  if decide (vertex_array st = 0) then geo_raise st GL_INVALID_OPERATION else
  if decide (index < 0 ∨ GL_MAX_VERTEX_ATTRIBS <= index) then geo_raise st GL_INVALID_VALUE else
  set_attrib st index (fun a =>
    {| va_enabled := true; va_size := va_size a; va_type := va_type a;
       va_normalized := va_normalized a; va_stride := va_stride a;
       va_offset := va_offset a; va_buffer := va_buffer a |}).

(** Lines 242-253 of [main]: returns [(VAO, VBO)]. *)
Definition geometry_setup (st : geo_state) : (Z * Z) * geo_state :=
  let '(VBO, st) := glGenBuffers st in
  let '(VAO, st) := glGenVertexArrays st in
  let st := glBindVertexArray VAO st in
  let st := glBindBuffer GL_ARRAY_BUFFER VBO st in
  let st := glBufferData GL_ARRAY_BUFFER sizeof_MeshData MeshData GL_STATIC_DRAW st in
  let st := glVertexAttribPointer 0 3 GL_FLOAT false (6 * sizeof_GLfloat) 0 st in
  let st := glVertexAttribPointer 1 3 GL_FLOAT false (6 * sizeof_GLfloat) (3 * sizeof_GLfloat) st in
  let st := glEnableVertexAttribArray 0 st in
  let st := glEnableVertexAttribArray 1 st in
  let st := glBindBuffer GL_ARRAY_BUFFER 0 st in
  ((VAO, VBO), st).

(** The state of a fresh context: no name generated, names from 1. *)
Definition geo0 : geo_state :=
  {| buffer_names := []; buffers := ∅; vao_names := []; vaos := ∅; array_buffer := 0;
     vertex_array := 0; next_name_geo := 1; geo_errors := [] |}.

(** ** Vertex fetch and primitive assembly *)

(** The components attribute [index] of vertex [v] reads in vertex array
    [vao]: [None] when it is disabled (the draw then uses the current
    generic value, which the program never sets), misaligned, or outside
    the buffer's store. *)
Definition fetch (st : geo_state) (vao index v : Z) : option (list spec_float) :=
  attrs ← vaos st !! vao;
  a ← attrs !! index;
  if negb (va_enabled a) then None else
  data ← buffers st !! va_buffer a;
  let stride := if decide (va_stride a = 0) then sizeof_GLfloat * va_size a else va_stride a in
  let off := va_offset a + v * stride in
  if decide (off mod sizeof_GLfloat ≠ 0 ∨ off < 0) then None else
  let i := off / sizeof_GLfloat in
  if decide (i + va_size a <= Z.of_nat (length data))
  then Some (take (Z.to_nat (va_size a)) (drop (Z.to_nat i) data))
  else None.

(** [GL_TRIANGLE_STRIP]: triangle [i] of [count] vertices from [first] is
    [(i, i+1, i+2)] for even [i] and [(i+1, i, i+2)] for odd [i], so that
    all triangles have the winding of the first. *)
Definition strip_triangles (first count : Z) : list (Z * Z * Z) :=
  map (fun k => let i := Z.of_nat k in
                if Z.even i then (first + i, first + i + 1, first + i + 2)
                else (first + i + 1, first + i, first + i + 2))
      (seq 0 (Z.to_nat (count - 2))).

(** ** The two shader stages *)

(** [CodeVS]'s [main]: [FragP = P + vec3(ModelP, 0.0f); FragC = C;
    gl_Position = vec4(FragP, 1.0);], the additions in binary32. *)
Definition vertex_stage (P C : list spec_float) (ModelP : spec_float * spec_float)
    : list spec_float * list spec_float :=
  match P with
  | [px; py; pz] =>
      let FragP := [fadd32 px ModelP.1; fadd32 py ModelP.2; fadd32 pz f32_zero] in
      (FragP ++ [f32_one], C)
  | _ => ([], C)
  end.

(** [CodeFS]'s [main]: [Result = vec4(FragC, 1.0);]. *)
Definition fragment_stage (FragC : list spec_float) : list spec_float := FragC ++ [f32_one].

(** ** The declarations of the shader sources

    The interface between the vertex layout, the uniform upload and the two
    stages is what the sources declare: [layout(location=K) in T N;],
    [in T N;], [out T N;] and [uniform T N;].  [glsl_decls] reads them off
    the text: statements end at [;], a leading preprocessor line ends at the
    line break, and a statement is a declaration when its words have one of
    these shapes. *)
Inductive glsl_decl :=
| DeclIn (location : option Z) (type name : string)
| DeclOut (type name : string)
| DeclUniform (type name : string).

Fixpoint split_on (c : Ascii.ascii) (s : string) : list string :=
  match s with
  | EmptyString => [EmptyString]
  | String d s' =>
      let rest := split_on c s' in
      if Ascii.eqb c d then EmptyString :: rest
      else match rest with
           | w :: ws => String d w :: ws
           | [] => [String d EmptyString]
           end
  end.

Definition char_hash : Ascii.ascii := Ascii.ascii_of_nat 35.
Definition char_nl : Ascii.ascii := Ascii.ascii_of_nat 10.
Definition char_space : Ascii.ascii := Ascii.ascii_of_nat 32.
Definition char_semi : Ascii.ascii := Ascii.ascii_of_nat 59.

Fixpoint after_newline (s : string) : string :=
  match s with
  | EmptyString => EmptyString
  | String c s' => if Ascii.eqb c char_nl then s' else after_newline s'
  end.

(** Drops a leading [#...] line. *)
Definition drop_directive (s : string) : string :=
  match s with
  | String c _ => if Ascii.eqb c char_hash then after_newline s else s
  | EmptyString => s
  end.

Definition words (s : string) : list string :=
  filter (fun w => negb (String.eqb w EmptyString)) (split_on char_space s).

Fixpoint digits_value (acc : Z) (s : string) : option Z :=
  match s with
  | EmptyString => Some acc
  | String c s' =>
      let d := Z.of_nat (Ascii.nat_of_ascii c) - 48 in
      if (0 <=? d) && (d <=? 9) then digits_value (10 * acc + d) s' else None
  end.

Local Open Scope string_scope.
(** [layout(location=K)] *)
Definition parse_layout (w : string) : option Z :=
  let pre := "layout(location=" in
  let n := String.length w in
  let k := String.length pre in
  if String.prefix pre w && (k + 1 <=? n)%nat &&
     String.eqb (String.substring (n - 1) 1 w) ")"
  then digits_value 0 (String.substring k (n - k - 1) w)
  else None.

Definition decl_of_words (ws : list string) : option glsl_decl :=
  match ws with
  | [w; q; ty; nm] => if String.eqb q "in" then (k ← parse_layout w; Some (DeclIn (Some k) ty nm)) else None
  | [q; ty; nm] =>
      if String.eqb q "in" then Some (DeclIn None ty nm)
      else if String.eqb q "out" then Some (DeclOut ty nm)
      else if String.eqb q "uniform" then Some (DeclUniform ty nm)
      else None
  | _ => None
  end.

Definition glsl_decls (src : string) : list glsl_decl :=
  omap (fun stmt => decl_of_words (words (drop_directive stmt))) (split_on char_semi src).

(** The number of components of a vector type. *)
Definition vec_size (ty : string) : option Z :=
  if String.eqb ty "vec2" then Some 2 else if String.eqb ty "vec3" then Some 3
  else if String.eqb ty "vec4" then Some 4 else None.
Local Close Scope string_scope.

(** ** The quad in normalised device coordinates *)

(** The position of vertex [v] of [MeshData], as an exact rational pair. *)
Definition vpos (v : Z) : Q * Q :=
  (fl_to_Q (nth (Z.to_nat (6 * v)) MeshData f32_zero),
   fl_to_Q (nth (Z.to_nat (6 * v + 1)) MeshData f32_zero)).

(** Twice the signed area of [(a, b, p)]: positive when [p] is to the left
    of [a -> b]. *)
Definition edge (a b p : Q * Q) : Q := (b.1 - a.1) * (p.2 - a.2) - (b.2 - a.2) * (p.1 - a.1).

(** The closed triangle [(i, j, k)] of a counter-clockwise primitive, and
    its interior. *)
Definition in_tri (t : Z * Z * Z) (p : Q * Q) : Prop :=
  let '(i, j, k) := t in
  (0 <= edge (vpos i) (vpos j) p ∧ 0 <= edge (vpos j) (vpos k) p ∧ 0 <= edge (vpos k) (vpos i) p)%Q.

Definition in_tri_strict (t : Z * Z * Z) (p : Q * Q) : Prop :=
  let '(i, j, k) := t in
  (0 < edge (vpos i) (vpos j) p ∧ 0 < edge (vpos j) (vpos k) p ∧ 0 < edge (vpos k) (vpos i) p)%Q.

Definition in_square (p : Q * Q) : Prop :=
  (- (1 # 2) <= p.1 <= 1 # 2 ∧ - (1 # 2) <= p.2 <= 1 # 2)%Q.

(** A corner coordinate [c] moved by the click's coordinate [m]: the
    vertex stage's binary32 sum is within [3 * 2^-25] of [c] plus the exact
    normalised coordinate of the pixel. *)
Definition corner_ok (c m : spec_float) (exact : Q) : bool :=
  Qltb (Qabs (fl_to_Q (fadd32 c m) - (fl_to_Q c + exact))) (3 # 33554432).

Definition click_col_ok (x : Z) : bool :=
  corner_ok f32_half (FrameLoop.ndc_x x) (FrameLoop.ndc_x_exact x) &&
  corner_ok (SFopp f32_half) (FrameLoop.ndc_x x) (FrameLoop.ndc_x_exact x).

Definition click_row_ok (y : Z) : bool :=
  corner_ok f32_half (FrameLoop.ndc_y y) (FrameLoop.ndc_y_exact y) &&
  corner_ok (SFopp f32_half) (FrameLoop.ndc_y y) (FrameLoop.ndc_y_exact y).

(** ** The set-up *)

Ltac geo_side :=
  unfold sizeof_MeshData, sizeof_GLfloat, GL_MAX_VERTEX_ATTRIBS, GL_ARRAY_BUFFER in *;
  cbn [length Z.of_nat] in *; first [lia | set_solver | naive_solver lia].

(** Settles the first [decide] of the goal. *)
Ltac dec_step :=
  match goal with
  | |- context [@decide ?P ?D] =>
      first [rewrite (@decide_True _ _ _ P D) by geo_side
            | rewrite (@decide_False _ _ _ P D) by geo_side]
  end.

(** Names from [next_name_geo] on are unused, and positive. *)
Definition geo_fresh (st : geo_state) : Prop :=
  0 < next_name_geo st ∧
  ∀ k, next_name_geo st <= k ->
    vaos st !! k = None ∧ buffers st !! k = None ∧ (k ∉ vao_names st) ∧ (k ∉ buffer_names st).

(** The two attributes [main] declares, reading buffer [VBO]. *)
Definition attrib_P (VBO : Z) : vertex_attrib :=
  {| va_enabled := true; va_size := 3; va_type := GL_FLOAT; va_normalized := false;
     va_stride := 6 * sizeof_GLfloat; va_offset := 0; va_buffer := VBO |}.

Definition attrib_C (VBO : Z) : vertex_attrib :=
  {| va_enabled := true; va_size := 3; va_type := GL_FLOAT; va_normalized := false;
     va_stride := 6 * sizeof_GLfloat; va_offset := 3 * sizeof_GLfloat; va_buffer := VBO |}.

Definition mesh_layout (VBO : Z) : gmap Z vertex_attrib :=
  <[1 := attrib_C VBO]> (<[0 := attrib_P VBO]> ∅).

(** The calls on the states the set-up meets. *)
Lemma bind_vao_run v st :
  v ≠ 0 -> v ∈ vao_names st -> vaos st !! v = None ->
  glBindVertexArray v st =
    {| buffer_names := buffer_names st; buffers := buffers st; vao_names := vao_names st;
       vaos := <[v := ∅]> (vaos st); array_buffer := array_buffer st; vertex_array := v;
       next_name_geo := next_name_geo st; geo_errors := geo_errors st |}.
Proof.
  intros Hv Hin Hn. unfold glBindVertexArray.
  rewrite decide_True by tauto. rewrite decide_False by done. by rewrite Hn.
Qed.

Lemma bind_buffer_run b st :
  b ≠ 0 -> b ∈ buffer_names st -> buffers st !! b = None ->
  glBindBuffer GL_ARRAY_BUFFER b st =
    {| buffer_names := buffer_names st; buffers := <[b := []]> (buffers st);
       vao_names := vao_names st; vaos := vaos st; array_buffer := b;
       vertex_array := vertex_array st; next_name_geo := next_name_geo st;
       geo_errors := geo_errors st |}.
Proof.
  intros Hb Hin Hn. unfold glBindBuffer.
  rewrite decide_False by tauto. rewrite decide_True by tauto. rewrite decide_False by done.
  by rewrite Hn.
Qed.

Lemma bind_buffer_zero st :
  glBindBuffer GL_ARRAY_BUFFER 0 st =
    {| buffer_names := buffer_names st; buffers := buffers st;
       vao_names := vao_names st; vaos := vaos st; array_buffer := 0;
       vertex_array := vertex_array st; next_name_geo := next_name_geo st;
       geo_errors := geo_errors st |}.
Proof.
  unfold glBindBuffer. rewrite decide_False by tauto. by rewrite !decide_True by tauto.
Qed.

Lemma buffer_data_run size data usage st :
  0 <= size -> array_buffer st ≠ 0 ->
  glBufferData GL_ARRAY_BUFFER size data usage st =
    {| buffer_names := buffer_names st;
       buffers := <[array_buffer st := take (Z.to_nat (size / sizeof_GLfloat)) data]> (buffers st);
       vao_names := vao_names st; vaos := vaos st; array_buffer := array_buffer st;
       vertex_array := vertex_array st; next_name_geo := next_name_geo st;
       geo_errors := geo_errors st |}.
Proof.
  intros Hs Hb. unfold glBufferData. rewrite decide_False by tauto.
  rewrite decide_False by lia. by rewrite decide_False.
Qed.

Lemma attrib_pointer_run index size type normalized stride pointer st :
  vertex_array st ≠ 0 -> 0 <= index < GL_MAX_VERTEX_ATTRIBS -> 1 <= size <= 4 -> 0 <= stride ->
  array_buffer st ≠ 0 ->
  glVertexAttribPointer index size type normalized stride pointer st =
    set_attrib st index (fun a =>
      {| va_enabled := va_enabled a; va_size := size; va_type := type; va_normalized := normalized;
         va_stride := stride; va_offset := pointer; va_buffer := array_buffer st |}).
Proof.
  intros Hv Hi Hs Hst Hb. unfold glVertexAttribPointer.
  rewrite decide_False by done. rewrite decide_False by lia. rewrite decide_False by lia.
  by rewrite decide_False by tauto.
Qed.

Lemma enable_run index st :
  vertex_array st ≠ 0 -> 0 <= index < GL_MAX_VERTEX_ATTRIBS ->
  glEnableVertexAttribArray index st =
    set_attrib st index (fun a =>
      {| va_enabled := true; va_size := va_size a; va_type := va_type a;
         va_normalized := va_normalized a; va_stride := va_stride a;
         va_offset := va_offset a; va_buffer := va_buffer a |}).
Proof.
  intros Hv Hi. unfold glEnableVertexAttribArray.
  rewrite decide_False by done. by rewrite decide_False by lia.
Qed.

Ltac geo_proj :=
  cbn [buffer_names buffers vao_names vaos array_buffer vertex_array next_name_geo geo_errors].

Lemma geometry_setup_run st :
  geo_fresh st ->
  let n := next_name_geo st in
  geometry_setup st =
    ((n + 1, n),
     {| buffer_names := n :: buffer_names st; buffers := <[n := MeshData]> (buffers st);
        vao_names := (n + 1) :: vao_names st; vaos := <[n + 1 := mesh_layout n]> (vaos st);
        array_buffer := 0; vertex_array := n + 1; next_name_geo := n + 2;
        geo_errors := geo_errors st |}).
Proof.
  intros [Hpos Hfr] n.
  destruct (Hfr n ltac:(lia)) as (Hv0 & Hb0 & _ & _).
  destruct (Hfr (n + 1) ltac:(lia)) as (Hv1 & Hb1 & _ & _).
  unfold geometry_setup, glGenBuffers, glGenVertexArrays. cbn zeta iota beta.
  rewrite bind_vao_run by (geo_proj; first [lia | constructor | done]). geo_proj.
  rewrite (bind_buffer_run (next_name_geo st)) by (geo_proj; first [lia | constructor | done]). geo_proj.
  rewrite buffer_data_run by (geo_proj; unfold sizeof_MeshData, sizeof_GLfloat; cbn [length Z.of_nat]; lia).
  geo_proj.
  rewrite (attrib_pointer_run 0) by (geo_proj; unfold GL_MAX_VERTEX_ATTRIBS, sizeof_GLfloat; lia).
  unfold set_attrib at 1. geo_proj. rewrite lookup_insert_eq. cbn [default].
  rewrite (attrib_pointer_run 1) by (geo_proj; unfold GL_MAX_VERTEX_ATTRIBS, sizeof_GLfloat; lia).
  unfold set_attrib at 1. geo_proj. rewrite lookup_insert_eq. cbn [default].
  rewrite (enable_run 0) by (geo_proj; unfold GL_MAX_VERTEX_ATTRIBS; lia).
  unfold set_attrib at 1. geo_proj. rewrite lookup_insert_eq. cbn [default].
  rewrite (enable_run 1) by (geo_proj; unfold GL_MAX_VERTEX_ATTRIBS; lia).
  unfold set_attrib at 1. geo_proj. rewrite lookup_insert_eq. cbn [default].
  rewrite bind_buffer_zero. geo_proj.
  rewrite !insert_insert_eq. replace (next_name_geo st + 1 + 1) with (n + 2) by lia. reflexivity.
Qed.

(** ** Vertex fetch of the quad draw *)

Lemma mesh_layout_0 VBO : mesh_layout VBO !! 0 = Some (attrib_P VBO).
Proof. reflexivity. Qed.

Lemma mesh_layout_1 VBO : mesh_layout VBO !! 1 = Some (attrib_C VBO).
Proof. reflexivity. Qed.

Lemma mesh_layout_other VBO index : index ≠ 0 -> index ≠ 1 -> mesh_layout VBO !! index = None.
Proof. intros H0 H1. unfold mesh_layout. by rewrite !lookup_insert_ne, lookup_empty by done. Qed.

(** The vertex array and buffer the set-up produces, on their own. *)
Definition mesh_state : geo_state :=
  {| buffer_names := []; buffers := {[0 := MeshData]}; vao_names := [];
     vaos := {[0 := mesh_layout 0]}; array_buffer := 0; vertex_array := 0;
     next_name_geo := 0; geo_errors := [] |}.

(** Fetching only depends on the vertex array and the buffer it reads. *)
Lemma fetch_mesh st VAO VBO index v :
  vaos st !! VAO = Some (mesh_layout VBO) -> buffers st !! VBO = Some MeshData ->
  fetch st VAO index v = fetch mesh_state 0 index v.
Proof.
  intros Hvao Hbuf. unfold fetch, mesh_state. cbn [vaos buffers].
  rewrite Hvao, lookup_singleton_eq. cbn [mbind option_bind].
  destruct (decide (index = 0)) as [->|H0]; [rewrite !mesh_layout_0|];
  [|destruct (decide (index = 1)) as [->|H1]; [rewrite !mesh_layout_1|by rewrite !mesh_layout_other]];
  cbn [mbind option_bind va_enabled negb va_buffer attrib_P attrib_C]; by rewrite Hbuf, lookup_singleton_eq.
Qed.

(** ** Facts used by the claims *)

Definition q_half : Q := 8388608 # 16777216.

Lemma vpos_values :
  vpos 0 = (q_half, q_half) ∧ vpos 1 = (- q_half, q_half)%Q ∧
  vpos 2 = (q_half, - q_half)%Q ∧ vpos 3 = (- q_half, - q_half)%Q.
Proof. split_and!; vm_compute; reflexivity. Qed.

Lemma glsl_decls_CodeVS :
  glsl_decls ProgramBuilder.CodeVS =
    [DeclIn (Some 0) "vec3" "P"; DeclIn (Some 1) "vec3" "C"; DeclOut "vec3" "FragC";
     DeclOut "vec3" "FragP"; DeclUniform "vec2" "ModelP"]%string.
Proof. vm_compute. reflexivity. Qed.

Lemma glsl_decls_CodeFS :
  glsl_decls ProgramBuilder.CodeFS =
    [DeclIn None "vec3" "FragC"; DeclIn None "vec3" "FragP"; DeclOut "vec4" "Result"]%string.
Proof. vm_compute. reflexivity. Qed.

Lemma click_col_table : forallb (fun k => click_col_ok (Z.of_nat k)) (seq 0 1152) = true.
Proof. vm_compute. reflexivity. Qed.

Lemma click_row_table : forallb (fun k => click_row_ok (Z.of_nat k)) (seq 0 648) = true.
Proof. vm_compute. reflexivity. Qed.

Lemma vertex_stage_corner c1 c2 C m :
  vertex_stage [c1; c2; f32_zero] C m =
    ([fadd32 c1 m.1; fadd32 c2 m.2; fadd32 f32_zero f32_zero; f32_one], C).
Proof. reflexivity. Qed.

Lemma mesh_layout_lookup VBO k a :
  mesh_layout VBO !! k = Some a -> (k = 0 ∧ a = attrib_P VBO) ∨ (k = 1 ∧ a = attrib_C VBO).
Proof.
  intros E. destruct (decide (k = 0)) as [->|H0]; [rewrite mesh_layout_0 in E; left; by injection E|].
  destruct (decide (k = 1)) as [->|H1]; [rewrite mesh_layout_1 in E; right; by injection E|].
  by rewrite mesh_layout_other in E.
Qed.

Lemma geo_fresh_geo0 : geo_fresh geo0.
Proof. split; [cbn; lia|]. intros k _. cbn. split_and!; [apply lookup_empty..|set_solver|set_solver]. Qed.


(** ** Properties of the geometry *)

(** [C28] The set-up of lines 242-253, on a context whose next names are
    unused: it creates a buffer [VBO] holding all of [MeshData] (its 96
    bytes) and a vertex array [VAO] whose attributes are exactly position
    (index 0: three floats at offset 0) and colour (index 1: three floats at
    offset 12), both enabled, both with a 24-byte stride and reading [VBO];
    no other object changes, [GL_ARRAY_BUFFER] is unbound again while [VAO]
    stays bound, no GL error is raised and the next names remain unused. *)
Theorem geometry_setup_spec st :
  geo_fresh st ->
  let '((VAO, VBO), st') := geometry_setup st in
  VAO ≠ 0 ∧ VBO ≠ 0 ∧
  buffers st' !! VBO = Some MeshData ∧ vaos st' !! VAO = Some (mesh_layout VBO) ∧
  (∀ k, k ≠ VBO -> buffers st' !! k = buffers st !! k) ∧
  (∀ k, k ≠ VAO -> vaos st' !! k = vaos st !! k) ∧
  array_buffer st' = 0 ∧ vertex_array st' = VAO ∧ geo_errors st' = geo_errors st ∧
  geo_fresh st'.
Proof.
  intros Hf. pose proof Hf as [Hpos Hfr]. rewrite geometry_setup_run by done. cbn.
  split_and!; try lia; try apply lookup_insert_eq; try done.
  - intros k Hk. by rewrite lookup_insert_ne.
  - intros k Hk. by rewrite lookup_insert_ne.
  - split; cbn; [lia|]. intros k Hk. destruct (Hfr k ltac:(lia)) as (H1 & H2 & H3 & H4).
    rewrite !lookup_insert_ne by lia. split_and!; [done|done| |]; rewrite elem_of_cons; intros [?|?]; lia || done.
Qed.

(** [C29] Vertex fetch of the draw [glDrawArrays(GL_TRIANGLE_STRIP, 0, 4)]
    on that vertex array: its two triangles use vertices 0 to 3 only; for
    each of them attribute 0 reads floats [6v .. 6v+2] of [MeshData] (the
    position) and attribute 1 floats [6v+3 .. 6v+5] (the colour), all
    inside the buffer; a fifth vertex would read past its end. *)
Theorem quad_fetch st VAO VBO :
  vaos st !! VAO = Some (mesh_layout VBO) -> buffers st !! VBO = Some MeshData ->
  Forall (λ t : Z * Z * Z, let '(i, j, k) := t in Forall (λ v, 0 <= v < 4) [i; j; k])
         (strip_triangles 0 4) ∧
  (∀ v, 0 <= v < 4 ->
     fetch st VAO 0 v = Some (take 3 (drop (Z.to_nat (6 * v)) MeshData)) ∧
     fetch st VAO 1 v = Some (take 3 (drop (Z.to_nat (6 * v + 3)) MeshData))) ∧
  fetch st VAO 0 4 = None ∧ fetch st VAO 1 4 = None.
Proof.
  intros Hvao Hbuf. rewrite !(fetch_mesh st VAO VBO) by done. split_and!.
  - vm_compute. repeat constructor; discriminate.
  - intros v Hv. rewrite !(fetch_mesh st VAO VBO) by done.
    assert (v = 0 ∨ v = 1 ∨ v = 2 ∨ v = 3) as [-> | [-> | [-> | ->]]] by lia; split; vm_compute; reflexivity.
  - vm_compute. reflexivity.
  - vm_compute. reflexivity.
Qed.

(** [C30] The interface between the vertex layout, the uniform upload and
    the shader sources: every attribute input [CodeVS] declares has an
    enabled [GL_FLOAT] attribute of its size at its location, every
    attribute the layout declares is an input of [CodeVS], every input of
    [CodeFS] is an output of [CodeVS] of the same type, and the only
    uniform of the two stages is the [vec2] [ModelP] the frame loop looks
    up and uploads with [glUniform2fv(..., 1, ...)]. *)
Theorem shader_interface VBO :
  (∀ k ty nm, DeclIn (Some k) ty nm ∈ glsl_decls ProgramBuilder.CodeVS ->
     ∃ a, mesh_layout VBO !! k = Some a ∧ va_enabled a = true ∧ va_type a = GL_FLOAT ∧
          vec_size ty = Some (va_size a)) ∧
  (∀ k a, mesh_layout VBO !! k = Some a -> ∃ ty nm, DeclIn (Some k) ty nm ∈ glsl_decls ProgramBuilder.CodeVS) ∧
  (∀ ty nm, DeclIn None ty nm ∈ glsl_decls ProgramBuilder.CodeFS ->
     DeclOut ty nm ∈ glsl_decls ProgramBuilder.CodeVS) ∧
  (∀ ty nm, DeclUniform ty nm ∈ glsl_decls ProgramBuilder.CodeVS ∨
            DeclUniform ty nm ∈ glsl_decls ProgramBuilder.CodeFS <->
            ty = "vec2"%string ∧ nm = "ModelP"%string).
Proof.
  rewrite glsl_decls_CodeVS, glsl_decls_CodeFS. split_and!.
  - intros k ty nm Hin. repeat (rewrite elem_of_cons in Hin; destruct Hin as [Hin|Hin]);
      try discriminate; try (by apply elem_of_nil in Hin); injection Hin as -> -> ->;
      eexists; (split; [first [apply mesh_layout_0 | apply mesh_layout_1]|]); done.
  - intros k a E. apply mesh_layout_lookup in E as [[-> _]|[-> _]].
    + exists "vec3"%string, "P"%string. left.
    + exists "vec3"%string, "C"%string. right. left.
  - intros ty nm Hin. repeat (rewrite elem_of_cons in Hin; destruct Hin as [Hin|Hin]);
      try (by apply elem_of_nil in Hin); try discriminate; injection Hin as -> ->; set_solver.
  - intros ty nm. split.
    + intros [Hin|Hin]; repeat (rewrite elem_of_cons in Hin; destruct Hin as [Hin|Hin]);
        try (by apply elem_of_nil in Hin); try discriminate; by injection Hin as -> ->.
    + intros [-> ->]. left. set_solver.
Qed.

(** [C31] The strip's primitives: [GL_TRIANGLE_STRIP] over the four
    vertices gives the triangles (0,1,2) and (2,1,3), which share the edge
    from vertex 1 to vertex 2, are both counter-clockwise (front-facing) with
    area 1/2, do not overlap, and together cover exactly the square
    [[-1/2, 1/2]^2]: the quad. *)
Theorem quad_strip :
  strip_triangles 0 4 = [(0, 1, 2); (2, 1, 3)] ∧
  Forall (λ t : Z * Z * Z, let '(i, j, k) := t in (edge (vpos i) (vpos j) (vpos k) == 1)%Q)
         (strip_triangles 0 4) ∧
  (∀ p, in_square p <-> in_tri (0, 1, 2) p ∨ in_tri (2, 1, 3) p) ∧
  (∀ p, ¬ (in_tri_strict (0, 1, 2) p ∧ in_tri_strict (2, 1, 3) p)).
Proof.
  assert (Hs : strip_triangles 0 4 = [(0, 1, 2); (2, 1, 3)]) by reflexivity.
  rewrite Hs. unfold in_square, in_tri, in_tri_strict. destruct vpos_values as (-> & -> & -> & ->).
  unfold edge, q_half. cbn [fst snd]. split_and!.
  - done.
  - repeat constructor; cbn; lra.
  - intros [px py]. cbn [fst snd]. split.
    + intros. destruct (Qlt_le_dec (px + py) 0); [right|left]; lra.
    + intros [?|?]; lra.
  - intros [px py]. cbn [fst snd]. lra.
Qed.

(** [C32] Where the quad is drawn: after a click on any pixel [(x, y)] of
    the window, the vertex stage places each corner of the quad within
    [3 * 2^-25] of that corner moved by the exact normalised coordinates
    of the pixel, at depth 0 and [w = 1]; the error is that of the
    click-to-NDC conversion plus one binary32 rounding. *)
Theorem quad_at_click x y v :
  0 <= x < FrameLoop.WindowWidth -> 0 <= y < FrameLoop.WindowHeight -> 0 <= v < 4 ->
  ∃ gx gy gz gw,
    (vertex_stage (take 3 (drop (Z.to_nat (6 * v)) MeshData)) []
                  (FrameLoop.ndc_x x, FrameLoop.ndc_y y)).1 = [gx; gy; gz; gw] ∧
    (Qabs (fl_to_Q gx - ((vpos v).1 + FrameLoop.ndc_x_exact x)) < 3 # 33554432)%Q ∧
    (Qabs (fl_to_Q gy - ((vpos v).2 + FrameLoop.ndc_y_exact y)) < 3 # 33554432)%Q ∧
    (fl_to_Q gz == 0)%Q ∧ (fl_to_Q gw == 1)%Q.
Proof.
  intros Hx Hy Hv.
  pose proof (forallb_seq_Z click_col_ok 1152 click_col_table x Hx) as Cx.
  pose proof (forallb_seq_Z click_row_ok 648 click_row_table y Hy) as Cy.
  unfold click_col_ok, click_row_ok, corner_ok in Cx, Cy.
  apply andb_true_iff in Cx as [Cx1 Cx2]. apply andb_true_iff in Cy as [Cy1 Cy2].
  rewrite Qltb_lt in Cx1, Cx2, Cy1, Cy2.
  assert (Hz : (fl_to_Q (fadd32 f32_zero f32_zero) == 0)%Q) by (vm_compute; reflexivity).
  assert (Hw : (fl_to_Q f32_one == 1)%Q) by (vm_compute; reflexivity).
  destruct vpos_values as (E0 & E1 & E2 & E3).
  assert (v = 0 ∨ v = 1 ∨ v = 2 ∨ v = 3) as [-> | [-> | [-> | ->]]] by lia.
  - change (take 3 (drop (Z.to_nat (6 * 0)) MeshData)) with [f32_half; f32_half; f32_zero].
    rewrite vertex_stage_corner, E0. cbn [fst snd]. do 4 eexists. split; [reflexivity|].
    split_and!; [exact Cx1 | exact Cy1 | exact Hz | exact Hw].
  - change (take 3 (drop (Z.to_nat (6 * 1)) MeshData)) with [SFopp f32_half; f32_half; f32_zero].
    rewrite vertex_stage_corner, E1. cbn [fst snd]. do 4 eexists. split; [reflexivity|].
    split_and!; [exact Cx2 | exact Cy1 | exact Hz | exact Hw].
  - change (take 3 (drop (Z.to_nat (6 * 2)) MeshData)) with [f32_half; SFopp f32_half; f32_zero].
    rewrite vertex_stage_corner, E2. cbn [fst snd]. do 4 eexists. split; [reflexivity|].
    split_and!; [exact Cx1 | exact Cy2 | exact Hz | exact Hw].
  - change (take 3 (drop (Z.to_nat (6 * 3)) MeshData)) with [SFopp f32_half; SFopp f32_half; f32_zero].
    rewrite vertex_stage_corner, E3. cbn [fst snd]. do 4 eexists. split; [reflexivity|].
    split_and!; [exact Cx2 | exact Cy2 | exact Hz | exact Hw].
Qed.

(** ** Concrete runs *)

Lemma geometry_setup_spec_witness :
  geo_fresh geo0 ∧ buffers (geometry_setup geo0).2 !! 1 = Some MeshData ∧
  vaos (geometry_setup geo0).2 !! 2 = Some (mesh_layout 1).
Proof.
  pose proof (geometry_setup_spec geo0 geo_fresh_geo0) as G.
  assert (E : geometry_setup geo0 = ((2, 1), (geometry_setup geo0).2)) by (vm_compute; reflexivity).
  rewrite E in G. destruct G as (_ & _ & B & V & _).
  split_and!; [exact geo_fresh_geo0 | exact B | exact V].
Defined.

Lemma quad_fetch_witness :
  vaos (geometry_setup geo0).2 !! 2 = Some (mesh_layout 1) ∧
  buffers (geometry_setup geo0).2 !! 1 = Some MeshData ∧
  fetch (geometry_setup geo0).2 2 0 3 = Some [SFopp f32_half; SFopp f32_half; f32_zero].
Proof.
  assert (V : vaos (geometry_setup geo0).2 !! 2 = Some (mesh_layout 1)) by (vm_compute; reflexivity).
  assert (B : buffers (geometry_setup geo0).2 !! 1 = Some MeshData) by (vm_compute; reflexivity).
  destruct (quad_fetch _ 2 1 V B) as (_ & F & _). destruct (F 3 ltac:(lia)) as [F0 _].
  split_and!; [exact V | exact B |]. rewrite F0. vm_compute. reflexivity.
Defined.

Lemma shader_interface_witness :
  ∃ a, mesh_layout 1 !! 0 = Some a ∧ va_enabled a = true ∧ va_type a = GL_FLOAT ∧
       vec_size "vec3"%string = Some (va_size a).
Proof.
  destruct (shader_interface 1) as (I & _).
  apply (I 0 "vec3"%string "P"%string). rewrite glsl_decls_CodeVS. left.
Defined.

Lemma quad_strip_witness : in_tri (0, 1, 2) (1 # 4, 1 # 4) ∨ in_tri (2, 1, 3) (1 # 4, 1 # 4).
Proof.
  destruct quad_strip as (_ & _ & C & _). apply C. unfold in_square. cbn. lra.
Defined.

Lemma quad_at_click_witness :
  0 <= 0 < FrameLoop.WindowWidth ∧ 0 <= 0 < FrameLoop.WindowHeight ∧
  ∃ gx gy gz gw,
    (vertex_stage (take 3 (drop (Z.to_nat (6 * 0)) MeshData)) []
                  (FrameLoop.ndc_x 0, FrameLoop.ndc_y 0)).1 = [gx; gy; gz; gw] ∧
    (Qabs (fl_to_Q gx - ((vpos 0).1 + FrameLoop.ndc_x_exact 0)) < 3 # 33554432)%Q ∧
    (Qabs (fl_to_Q gy - ((vpos 0).2 + FrameLoop.ndc_y_exact 0)) < 3 # 33554432)%Q ∧
    (fl_to_Q gz == 0)%Q ∧ (fl_to_Q gw == 1)%Q.
Proof.
  assert (Hx : 0 <= 0 < FrameLoop.WindowWidth) by (unfold FrameLoop.WindowWidth; lia).
  assert (Hy : 0 <= 0 < FrameLoop.WindowHeight) by (unfold FrameLoop.WindowHeight; lia).
  split; [exact Hx | split; [exact Hy | exact (quad_at_click 0 0 0 Hx Hy ltac:(lia))]].
Defined.

End Geometry.
