(* ===== verification/Audio.v ===== *)
(** * The audio synthesiser: [audio_data] and [MyAudioCallback]

    [src/main.c] lines 156-183.  SDL calls [MyAudioCallback] on its audio
    thread with the [audio_data] the program registered, a byte buffer
    [Stream] and its length [Len].  The callback fills [Len/4] stereo frames
    ([audio_sample] is two [Sint16]) with the tone of sample index
    [SamplesDone + I] and then advances [SamplesDone].

    The arithmetic is the C arithmetic: [long] of width [long_bits] (signed
    overflow is undefined behaviour, [None]), the [double] operations in
    binary64 ([IEEE]), the C library's [sin] as the section variable [sin]
    (any function), the assignment to [Sint16] undefined when the truncated
    value does not fit, and each store writes the two little-endian bytes of
    the value; a store outside the buffer is undefined behaviour.

    The theorems relate the in-place loop to the reference list of stereo
    frames ([frames]), from which buffer-split invariance (phase continuity
    across callbacks), the untouched trailing bytes and the behaviour of the
    counter at its width follow. *)

From S2P Require Import Prelude CInt IEEE.
Open Scope Z_scope.

Module Audio.

(** [typedef struct { int Freq; long SamplesDone; } audio_data;] *)
Record audio_data := {
  Freq : Z;
  SamplesDone : Z
}.

(** [sizeof(audio_sample)]: two [Sint16] without padding. *)
Definition sizeof_audio_sample : Z := 4.

Section Callback.
Context (long_bits : Z) `{LongWidth long_bits} (sin : spec_float -> spec_float).

(** The [Sint16] the loop body computes for the global sample index [k]:
    [Time = k/(double)Freq; ValueF = sin(264*2*M_PI*Time); Value = 1000*ValueF]. *)
Definition sample_at (F k : Z) : option Z :=
  let Time := (f64_of_Z k / f64_of_Z F)%f64 in
  let ValueF := sin (f64_of_Z (264 * 2) * M_PI * Time)%f64 in
  fl_to_signed short_bits (f64_of_Z 1000 * ValueF)%f64.

(** [Samples[I].L = Value; Samples[I].R = Value;] *)
Definition frame_bytes (Value : Z) : list Z := s16_bytes Value ++ s16_bytes Value.

Definition store_frame (Stream : list Z) (I Value : Z) : list Z :=
  list_write Stream (Z.to_nat (sizeof_audio_sample * I)) (frame_bytes Value).

(** The body of the [for] loop for index [I]. *)
Definition loop_body (Audio : audio_data) (I : Z) (Stream : list Z) : option (list Z) :=
  k ← signed_add long_bits (SamplesDone Audio) I;
  Value ← sample_at (Freq Audio) k;
  if Z.of_nat (length Stream) <? sizeof_audio_sample * I + sizeof_audio_sample then None
  else Some (store_frame Stream I Value).

(** [for (int I = 0; I < SampleCount; ++I)], from index [I] with [n]
    iterations left. *)
Fixpoint fill (Audio : audio_data) (I : Z) (n : nat) (Stream : list Z) : option (list Z) :=
  match n with
  | O => Some Stream
  | S n' => Stream' ← loop_body Audio I Stream; fill Audio (I + 1) n' Stream'
  end.

Definition MyAudioCallback (Audio : audio_data) (Stream : list Z) (Len : Z)
  : option (audio_data * list Z) :=
  let SampleCount := int_div_sizeof Len sizeof_audio_sample in
  Stream' ← fill Audio 0 (Z.to_nat SampleCount) Stream;
  SamplesDone' ← signed_add long_bits (SamplesDone Audio) SampleCount;
  Some ({| Freq := Freq Audio; SamplesDone := SamplesDone' |}, Stream').

(** ** The reference: the stereo frames of [n] consecutive indices *)

(** The bytes of the frames for the indices [k0 + I], ..., [k0 + I + n - 1]. *)
Fixpoint frames (F k0 I : Z) (n : nat) : option (list Z) :=
  match n with
  | O => Some []
  | S n' =>
      k ← signed_add long_bits k0 I;
      v ← sample_at F k;
      rest ← frames F k0 (I + 1) n';
      Some (frame_bytes v ++ rest)
  end.
End Callback.

(** ** The loop writes the reference frames in place *)

Section Proofs.
Context (long_bits : Z) `{LongWidth long_bits} (sin : spec_float -> spec_float).

Lemma frame_bytes_length v : length (frame_bytes v) = 4%nat.
Proof. reflexivity. Qed.

Lemma frames_length F k0 I n ps :
  frames long_bits sin F k0 I n = Some ps -> length ps = (4 * n)%nat.
Proof.
  revert I ps. induction n as [|n IH]; intros I ps Hf; simpl in Hf.
  - by injection Hf as <-.
  - destruct (signed_add long_bits k0 I) as [k|]; [|done]. simpl in Hf.
    destruct (sample_at sin F k) as [v|]; [|done]. simpl in Hf.
    destruct (frames long_bits sin F k0 (I + 1) n) as [rest|] eqn:E; [|done].
    injection Hf as <-. simpl. rewrite (IH _ _ E). lia.
Qed.

Lemma fill_S Audio I n Stream :
  fill long_bits sin Audio I (S n) Stream =
    (Stream' ← loop_body long_bits sin Audio I Stream; fill long_bits sin Audio (I + 1) n Stream').
Proof. reflexivity. Qed.

Lemma frames_S F k0 I n :
  frames long_bits sin F k0 I (S n) =
    (k ← signed_add long_bits k0 I; v ← sample_at sin F k;
     rest ← frames long_bits sin F k0 (I + 1) n; Some (frame_bytes v ++ rest)).
Proof. reflexivity. Qed.

(** A tone that does not depend on the index: every frame is the same. *)
Lemma frames_const F k0 I n v :
  (∀ k, sample_at sin F k = Some v) ->
  signed_min long_bits <= k0 + I -> k0 + I + Z.of_nat n <= signed_max long_bits + 1 ->
  frames long_bits sin F k0 I n = Some (concat (repeat (frame_bytes v) n)).
Proof.
  intros Hs. revert I. induction n as [|n IH]; intros I Hmin Hmax; [done|].
  rewrite frames_S, signed_add_Some by lia. cbn [mbind option_bind].
  rewrite Hs, IH by lia. reflexivity.
Qed.

Lemma Z2Nat_4_succ (I : Z) : 0 <= I -> Z.to_nat (4 * (I + 1)) = (Z.to_nat (4 * I) + 4)%nat.
Proof. lia. Qed.

(** The loop in terms of the reference frames. *)
Lemma fill_eq_frames Audio I n Stream :
  0 <= I -> sizeof_audio_sample * (I + Z.of_nat n) <= Z.of_nat (length Stream) ->
  fill long_bits sin Audio I n Stream =
    (ps ← frames long_bits sin (Freq Audio) (SamplesDone Audio) I n;
     Some (list_write Stream (Z.to_nat (sizeof_audio_sample * I)) ps)).
Proof.
  unfold sizeof_audio_sample.
  revert I Stream. induction n as [|n IH]; intros I Stream HI Hlen.
  - simpl. by rewrite list_write_nil.
  - rewrite fill_S, frames_S. unfold loop_body.
    destruct (signed_add long_bits (SamplesDone Audio) I) as [k|]; [|done].
    cbn [mbind option_bind].
    destruct (sample_at sin (Freq Audio) k) as [v|]; [|done].
    cbn [mbind option_bind].
    unfold sizeof_audio_sample. rewrite (proj2 (Z.ltb_ge _ _)) by lia.
    unfold store_frame, sizeof_audio_sample.
    assert (Hw : (Z.to_nat (4 * I) + length (frame_bytes v) <= length Stream)%nat)
      by (rewrite frame_bytes_length; lia).
    cbn [mbind option_bind]. rewrite IH by (rewrite ?list_write_length by exact Hw; lia).
    destruct (frames long_bits sin (Freq Audio) (SamplesDone Audio) (I + 1) n) as [rest|] eqn:E;
      [|done].
    cbn [mbind option_bind]. f_equal. pose proof (frames_length _ _ _ _ _ E) as Hr.
    rewrite Z2Nat_4_succ by exact HI. replace (Z.to_nat (4 * I) + 4)%nat with (Z.to_nat (4 * I) + length (frame_bytes v))%nat by reflexivity.
    apply list_write_app. rewrite frame_bytes_length, Hr. lia.
Qed.

(** [C17] Equivalence of the in-place loop with the reference: from index
    [I] on, [n] iterations of the loop body store, at byte [4 I], exactly
    the reference frames of the global indices [SamplesDone + I] onward,
    and fail (undefined behaviour) exactly when the reference does. *)
Theorem fill_frames Audio I n Stream :
  0 <= I -> sizeof_audio_sample * (I + Z.of_nat n) <= Z.of_nat (length Stream) ->
  fill long_bits sin Audio I n Stream =
    (ps ← frames long_bits sin (Freq Audio) (SamplesDone Audio) I n;
     Some (list_write Stream (Z.to_nat (sizeof_audio_sample * I)) ps)).
Proof. exact (fill_eq_frames Audio I n Stream). Qed.

(** The callback in terms of the reference frames. *)
Lemma MyAudioCallback_frames Audio Stream Len :
  0 <= Len <= signed_max int_bits -> Z.of_nat (length Stream) = Len ->
  MyAudioCallback long_bits sin Audio Stream Len =
    (ps ← frames long_bits sin (Freq Audio) (SamplesDone Audio) 0 (Z.to_nat (Len / 4));
     sd ← signed_add long_bits (SamplesDone Audio) (Len / 4);
     Some ({| Freq := Freq Audio; SamplesDone := sd |},
           ps ++ drop (Z.to_nat (4 * (Len / 4))) Stream)).
Proof.
  intros HL Hlen. unfold MyAudioCallback.
  rewrite int_div_sizeof_nonneg by (unfold sizeof_audio_sample; lia).
  unfold sizeof_audio_sample.
  rewrite fill_eq_frames by (unfold sizeof_audio_sample; pose proof (Z.mul_div_le Len 4); lia).
  destruct (frames long_bits sin (Freq Audio) (SamplesDone Audio) 0 (Z.to_nat (Len / 4)))
    as [ps|] eqn:E; [|done].
  simpl. pose proof (frames_length _ _ _ _ _ E) as Hps.
  unfold list_write. simpl. rewrite Hps.
  replace (4 * Z.to_nat (Len / 4))%nat with (Z.to_nat (4 * (Len / 4))) by lia. done.
Qed.

(** [C15] What one call of [MyAudioCallback] does, for a buffer of [Len]
    bytes ([0 <= Len <= INT_MAX]): its first [4 (Len/4)] bytes become the
    reference frames of the indices [SamplesDone], ..., [SamplesDone +
    Len/4 - 1] (left and right channel equal), its last [Len mod 4] bytes
    keep their old contents, and [SamplesDone] advances by [Len/4]; the call
    is undefined exactly when a frame or the counter update is. *)
Theorem MyAudioCallback_spec Audio Stream Len :
  0 <= Len <= signed_max int_bits -> Z.of_nat (length Stream) = Len ->
  MyAudioCallback long_bits sin Audio Stream Len =
    (ps ← frames long_bits sin (Freq Audio) (SamplesDone Audio) 0 (Z.to_nat (Len / 4));
     sd ← signed_add long_bits (SamplesDone Audio) (Len / 4);
     Some ({| Freq := Freq Audio; SamplesDone := sd |},
           ps ++ drop (Z.to_nat (4 * (Len / 4))) Stream)).
Proof. exact (MyAudioCallback_frames Audio Stream Len). Qed.
(** ** Consecutive calls *)

(** The frames of a run of indices do not depend on how the index is split
    between the counter and the loop variable. *)
Lemma frames_shift F k0 d I n :
  frames long_bits sin F (k0 + d) I n = frames long_bits sin F k0 (d + I) n.
Proof.
  revert I. induction n as [|n IH]; intros I; [reflexivity|].
  rewrite !frames_S, signed_add_assoc.
  destruct (signed_add long_bits k0 (d + I)) as [k|]; [|reflexivity]. cbn [mbind option_bind].
  destruct (sample_at sin F k) as [v|]; [|reflexivity]. cbn [mbind option_bind].
  rewrite IH. by replace (d + (I + 1)) with (d + I + 1) by lia.
Qed.

Lemma frames_app F k0 I n1 n2 :
  frames long_bits sin F k0 I (n1 + n2) =
    (ps1 ← frames long_bits sin F k0 I n1;
     ps2 ← frames long_bits sin F k0 (I + Z.of_nat n1) n2;
     Some (ps1 ++ ps2)).
Proof.
  revert I. induction n1 as [|n1 IH]; intros I.
  - cbn [Nat.add frames mbind option_bind]. rewrite Z.add_0_r.
    by destruct (frames long_bits sin F k0 I n2).
  - cbn [Nat.add]. rewrite !frames_S.
    destruct (signed_add long_bits k0 I) as [k|]; [|reflexivity]. cbn [mbind option_bind].
    destruct (sample_at sin F k) as [v|]; [|reflexivity]. cbn [mbind option_bind].
    rewrite IH. replace (I + 1 + Z.of_nat n1) with (I + Z.of_nat (S n1)) by lia.
    destruct (frames long_bits sin F k0 (I + 1) n1) as [ps1|]; [|reflexivity].
    cbn [mbind option_bind].
    destruct (frames long_bits sin F k0 (I + Z.of_nat (S n1)) n2) as [ps2|]; [|reflexivity].
    cbn [mbind option_bind]. by rewrite app_assoc.
Qed.

(** [C16] Phase continuity: two consecutive callbacks on buffers of [L1]
    and [L2] bytes ([L1] a whole number of frames) write exactly the bytes
    one callback writes on the concatenated buffer of [L1 + L2] bytes, and
    leave [SamplesDone] advanced by [L1/4 + L2/4]: the waveform never
    restarts at a buffer boundary. *)
Theorem callback_split Audio S1 S2 L1 L2 A1 S1' A2 S2' :
  0 <= L1 -> 0 <= L2 -> L1 + L2 <= signed_max int_bits -> L1 mod 4 = 0 ->
  Z.of_nat (length S1) = L1 -> Z.of_nat (length S2) = L2 ->
  MyAudioCallback long_bits sin Audio S1 L1 = Some (A1, S1') ->
  MyAudioCallback long_bits sin A1 S2 L2 = Some (A2, S2') ->
  MyAudioCallback long_bits sin Audio (S1 ++ S2) (L1 + L2) = Some (A2, S1' ++ S2') ∧
  SamplesDone A2 = SamplesDone Audio + L1 / 4 + L2 / 4.
Proof.
  intros H1 H2 H12 Hm Hl1 Hl2 C1 C2.
  rewrite MyAudioCallback_frames in C1 by lia. rewrite MyAudioCallback_frames in C2 by lia.
  rewrite MyAudioCallback_frames by (rewrite ?length_app; lia).
  set (n1 := Z.to_nat (L1 / 4)) in *. set (n2 := Z.to_nat (L2 / 4)) in *.
  destruct (frames long_bits sin (Freq Audio) (SamplesDone Audio) 0 n1) as [ps1|] eqn:F1; [|done].
  cbn [mbind option_bind] in C1.
  destruct (signed_add long_bits (SamplesDone Audio) (L1 / 4)) as [sd1|] eqn:D1; [|done].
  injection C1 as <- <-. cbn [Freq SamplesDone] in C2.
  destruct (frames long_bits sin (Freq Audio) sd1 0 n2) as [ps2|] eqn:F2; [|done].
  cbn [mbind option_bind] in C2.
  destruct (signed_add long_bits sd1 (L2 / 4)) as [sd2|] eqn:D2; [|done].
  injection C2 as <- <-.
  apply signed_add_Some_inv in D1 as [-> _].
  assert (Hq : (L1 + L2) / 4 = L1 / 4 + L2 / 4).
  { pose proof (Z.div_mod L1 4). pose proof (Z.div_mod L2 4). pose proof (Z.div_mod (L1 + L2) 4).
    pose proof (Z.mod_pos_bound L2 4). pose proof (Z.mod_pos_bound (L1 + L2) 4). lia. }
  assert (E1 : 4 * (L1 / 4) = L1) by (pose proof (Z.div_mod L1 4); lia).
  assert (P1 : 0 <= L1 / 4) by (apply Z.div_pos; lia).
  assert (P2 : 0 <= L2 / 4) by (apply Z.div_pos; lia).
  assert (Hn : Z.to_nat ((L1 + L2) / 4) = (n1 + n2)%nat) by (unfold n1, n2; rewrite Hq; lia).
  rewrite Hn, frames_app, F1. cbn [mbind option_bind].
  replace (0 + Z.of_nat n1) with (L1 / 4 + 0) by (unfold n1; lia).
  rewrite <- frames_shift, F2. cbn [mbind option_bind].
  rewrite Hq, <- signed_add_assoc, D2. cbn [mbind option_bind].
  apply signed_add_Some_inv in D2 as [-> _]. split; [|reflexivity].
  do 2 f_equal.
  rewrite (drop_ge S1) by lia. rewrite app_nil_r, <- app_assoc. f_equal.
  rewrite drop_app_ge by lia. do 2 f_equal. lia.
Qed.



(** ** What the output depends on *)

(** [C20] Determinism: on a buffer of whole frames, what the callback
    produces depends only on [Freq], [SamplesDone] and [Len], not on the
    buffer's previous contents. *)
Theorem callback_overwrites Audio S S' Len :
  0 <= Len <= signed_max int_bits -> Len mod 4 = 0 ->
  Z.of_nat (length S) = Len -> Z.of_nat (length S') = Len ->
  MyAudioCallback long_bits sin Audio S Len = MyAudioCallback long_bits sin Audio S' Len.
Proof.
  intros HL Hm H1 H2. rewrite !MyAudioCallback_frames by assumption.
  assert (E : Z.to_nat (4 * (Len / 4)) = Z.to_nat Len) by (pose proof (Z.div_mod Len 4); lia).
  rewrite E, !drop_ge by lia. reflexivity.
Qed.

(** [C21] The callback keeps the length of the buffer and leaves its last
    [Len mod 4] bytes as they were: a buffer that is not a whole number of
    frames is not entirely filled. *)
Theorem callback_tail Audio S Len A' S' :
  0 <= Len <= signed_max int_bits -> Z.of_nat (length S) = Len ->
  MyAudioCallback long_bits sin Audio S Len = Some (A', S') ->
  length S' = length S ∧
  drop (Z.to_nat (4 * (Len / 4))) S' = drop (Z.to_nat (4 * (Len / 4))) S.
Proof.
  intros HL Hl C. rewrite MyAudioCallback_frames in C by assumption.
  destruct (frames _ _ _ _ _ _) as [ps|] eqn:F; [|done]. cbn [mbind option_bind] in C.
  destruct (signed_add _ _ _); [|done]. injection C as _ <-.
  pose proof (frames_length _ _ _ _ _ F) as Hps.
  assert (Hq : (Z.to_nat (4 * (Len / 4)) <= length S)%nat)
    by (pose proof (Z.mul_div_le Len 4); pose proof (Z.div_pos Len 4); lia).
  split.
  - rewrite length_app, length_drop. lia.
  - rewrite drop_app_ge by lia. replace (Z.to_nat (4 * (Len / 4)) - length ps)%nat with 0%nat by lia.
    apply drop_0.
Qed.

(** [C22] A negative [Len] (which SDL does not pass) is converted to a
    huge [size_t]; the quotient wraps back to the negative [Len/4]: the loop
    writes nothing and [SamplesDone] goes down, breaking its monotonicity. *)
Theorem callback_negative_len Audio Stream Len :
  signed_min int_bits <= Len < 0 ->
  MyAudioCallback long_bits sin Audio Stream Len =
    (sd ← signed_add long_bits (SamplesDone Audio) (Len / 4);
     Some ({| Freq := Freq Audio; SamplesDone := sd |}, Stream)) ∧
  Len / 4 < 0.
Proof.
  intros HL. unfold MyAudioCallback, sizeof_audio_sample. rewrite int_div_sizeof_neg by exact HL.
  assert (Hneg : Len / 4 < 0) by (pose proof (Z.div_mod Len 4); pose proof (Z.mod_pos_bound Len 4); lia).
  replace (Z.to_nat (Len / 4)) with 0%nat by lia. split; [reflexivity | exact Hneg].
Qed.

(** ** The counter at its width *)

(** [C18] [Audio->SamplesDone += SampleCount] at the width of [long]: a
    callback on [Len] bytes is undefined behaviour, whatever [sin] returns,
    exactly when [SamplesDone + Len/4] leaves the range of [long]; when it
    stays in range the call is defined as soon as its frames are. *)
Theorem callback_counter_range Audio Stream Len :
  0 <= Len <= signed_max int_bits -> Z.of_nat (length Stream) = Len ->
  (~ (SamplesDone Audio + Len / 4) ∈ₛ long_bits ->
   MyAudioCallback long_bits sin Audio Stream Len = None) ∧
  ((SamplesDone Audio + Len / 4) ∈ₛ long_bits ->
   is_Some (frames long_bits sin (Freq Audio) (SamplesDone Audio) 0 (Z.to_nat (Len / 4))) ->
   is_Some (MyAudioCallback long_bits sin Audio Stream Len)).
Proof.
  intros HL Hlen. rewrite MyAudioCallback_frames by assumption. unfold signed_add. split.
  - intros Hn. destruct (frames _ _ _ _ _ _); [|done]. cbn [mbind option_bind].
    by destruct (fits_signed _ _) eqn:E.
  - intros Hf [ps Hps]. rewrite Hps. cbn [mbind option_bind]. rewrite Hf. eauto.
Qed.

(** [n] callbacks in a row, each on a fresh buffer of [Len] bytes. *)
Fixpoint run_callbacks (n : nat) (Audio : audio_data) (Len : Z) : option audio_data :=
  match n with
  | O => Some Audio
  | S n' =>
      r ← MyAudioCallback long_bits sin Audio (repeat 0 (Z.to_nat Len)) Len;
      run_callbacks n' r.1 Len
  end.

Lemma run_callbacks_counter n Audio Len Audio' :
  0 <= Len <= signed_max int_bits ->
  run_callbacks n Audio Len = Some Audio' ->
  SamplesDone Audio' = SamplesDone Audio + Z.of_nat n * (Len / 4) ∧
  forall m, (m < n)%nat -> (SamplesDone Audio + Z.of_nat (S m) * (Len / 4)) ∈ₛ long_bits.
Proof.
  intros HL. revert Audio. induction n as [|n IH]; intros Audio Hrun; simpl in Hrun.
  - injection Hrun as <-. split; [lia | intros m Hm; lia].
  - assert (Hlen : Z.of_nat (length (repeat 0 (Z.to_nat Len))) = Len) by (rewrite repeat_length; lia).
    destruct (MyAudioCallback long_bits sin Audio (repeat 0 (Z.to_nat Len)) Len) as [[A1 S1]|] eqn:C;
      [|done].
    cbn [mbind option_bind fst] in Hrun. destruct (IH A1 Hrun) as [E F].
    rewrite MyAudioCallback_frames in C by assumption.
    destruct (frames _ _ _ _ _ _); [|done]. cbn [mbind option_bind] in C.
    destruct (signed_add long_bits (SamplesDone Audio) (Len / 4)) as [sd|] eqn:D; [|done].
    injection C as <- _. apply signed_add_Some_inv in D as [-> Hfit]. simpl in E, F.
    split; [lia|]. intros m Hm. destruct m as [|m].
    + by replace (SamplesDone Audio + Z.of_nat 1 * (Len / 4)) with (SamplesDone Audio + Len / 4) by lia.
    + replace (SamplesDone Audio + Z.of_nat (S (S m)) * (Len / 4))
        with (SamplesDone Audio + Len / 4 + Z.of_nat (S m) * (Len / 4)) by lia.
      apply F. lia.
Qed.
(** The loop only ever writes bytes. *)
Lemma fill_bytes Audio I n Stream Stream' :
  Forall (fun b => is_byte b = true) Stream ->
  fill long_bits sin Audio I n Stream = Some Stream' ->
  Forall (fun b => is_byte b = true) Stream'.
Proof.
  revert I Stream. induction n as [|n IH]; intros I Stream HS E; [by injection E as <-|].
  rewrite fill_S in E. unfold loop_body in E.
  destruct (signed_add long_bits (SamplesDone Audio) I) as [k|]; [|done]. cbn in E.
  destruct (sample_at sin (Freq Audio) k) as [v|]; [|done]. cbn in E.
  case_match; [done|]. cbn in E. refine (IH (I + 1) _ _ E).
  apply list_write_Forall; [done|]. unfold frame_bytes. apply Forall_app; split; apply s16_bytes_are_bytes.
Qed.


End Proofs.

(** [C19] With a 32-bit [long] (LLP64 targets), SDL's 4096-frame buffers
    (16384 bytes) overflow [SamplesDone] at the 524288th callback, i.e.
    after 2^31 samples, about 12.4 hours at 48 kHz: whatever [sin] returns,
    524288 callbacks from [SamplesDone = 0] are undefined behaviour, while
    with a 64-bit [long] the counter stays in range for 2^63 samples. *)
Theorem long32_counter_overflow sin F :
  run_callbacks 32 sin (Z.to_nat (2 ^ 19)) {| Freq := F; SamplesDone := 0 |} 16384 = None ∧
  fits_signed 32 (2 ^ 19 * 4096) = false ∧ fits_signed 64 (2 ^ 19 * 4096) = true.
Proof.
  split; [|split; reflexivity].
  destruct (run_callbacks 32 sin (Z.to_nat (2 ^ 19)) _ 16384) as [A'|] eqn:R; [|reflexivity].
  destruct (run_callbacks_counter 32 sin (Z.to_nat (2 ^ 19)) {| Freq := F; SamplesDone := 0 |}
              16384 A' ltac:(unfold signed_max, int_bits; Zpow_norm; lia) R) as [_ F'].
  specialize (F' (Z.to_nat (2 ^ 19 - 1)) ltac:(Zpow_norm; lia)).
  exfalso. revert F'. vm_compute. discriminate.
Qed.


(** ** Concrete runs

    [half_sin] stands for the C library's [sin] in the examples: it returns
    0.5 for every argument, so every sample is 500 (bytes 244, 1). *)
Definition half_sin (_ : spec_float) : spec_float := fdiv64 (f64_of_Z 1) (f64_of_Z 2).

Definition audio0 : audio_data := {| Freq := 48000; SamplesDone := 0 |}.

Lemma MyAudioCallback_spec_witness :
  (0 <= 10 <= signed_max int_bits) ∧ Z.of_nat (length (repeat 7 10)) = 10 ∧
  MyAudioCallback 64 half_sin audio0 (repeat 7 10) 10 =
    Some ({| Freq := 48000; SamplesDone := 2 |}, [244; 1; 244; 1; 244; 1; 244; 1; 7; 7]).
Proof.
  assert (HL : 0 <= 10 <= signed_max int_bits) by (unfold signed_max, int_bits; Zpow_norm; lia).
  assert (Hl : Z.of_nat (length (repeat 7 10)) = 10) by reflexivity.
  split_and!; [lia | exact (proj2 HL) | exact Hl |].
  rewrite (MyAudioCallback_spec 64 half_sin audio0 (repeat 7 10) 10 HL Hl). vm_compute. reflexivity.
Defined.

Lemma fill_frames_witness :
  0 <= 1 ∧ sizeof_audio_sample * (1 + Z.of_nat 2) <= Z.of_nat (length (repeat 0 12)) ∧
  fill 64 half_sin audio0 1 2 (repeat 0 12) = Some [0; 0; 0; 0; 244; 1; 244; 1; 244; 1; 244; 1].
Proof.
  assert (H1 : 0 <= 1) by lia.
  assert (H2 : sizeof_audio_sample * (1 + Z.of_nat 2) <= Z.of_nat (length (repeat 0 12)))
    by (simpl; unfold sizeof_audio_sample; lia).
  split_and!; [exact H1 | exact H2 |].
  rewrite (fill_frames 64 half_sin audio0 1 2 (repeat 0 12) H1 H2). vm_compute. reflexivity.
Defined.

Lemma callback_split_witness :
  MyAudioCallback 64 half_sin audio0 (repeat 0 8 ++ repeat 0 4) 12 =
    Some ({| Freq := 48000; SamplesDone := 3 |},
          [244; 1; 244; 1; 244; 1; 244; 1] ++ [244; 1; 244; 1]).
Proof.
  destruct (callback_split 64 half_sin audio0 (repeat 0 8) (repeat 0 4) 8 4
              {| Freq := 48000; SamplesDone := 2 |} [244; 1; 244; 1; 244; 1; 244; 1]
              {| Freq := 48000; SamplesDone := 3 |} [244; 1; 244; 1])
    as [E _]; [lia | lia | unfold signed_max, int_bits; Zpow_norm; lia | reflexivity |
               reflexivity | reflexivity | vm_compute; reflexivity | vm_compute; reflexivity |].
  exact E.
Defined.

Lemma callback_counter_range_witness :
  MyAudioCallback 32 half_sin {| Freq := 48000; SamplesDone := 2 ^ 31 - 1 |} (repeat 0 4) 4 = None.
Proof.
  destruct (callback_counter_range 32 half_sin {| Freq := 48000; SamplesDone := 2 ^ 31 - 1 |}
              (repeat 0 4) 4) as [N _]; [unfold signed_max, int_bits; Zpow_norm; lia | reflexivity |].
  apply N. vm_compute. discriminate.
Defined.

Lemma callback_overwrites_witness :
  MyAudioCallback 64 half_sin audio0 (repeat 0 8) 8 = MyAudioCallback 64 half_sin audio0 (repeat 9 8) 8.
Proof.
  apply callback_overwrites; [unfold signed_max, int_bits; Zpow_norm; lia | reflexivity..].
Defined.

Lemma callback_tail_witness :
  length [244; 1; 244; 1; 244; 1; 244; 1; 7; 7] = length (repeat 7 10) ∧
  drop (Z.to_nat (4 * (10 / 4))) [244; 1; 244; 1; 244; 1; 244; 1; 7; 7] =
    drop (Z.to_nat (4 * (10 / 4))) (repeat 7 10).
Proof.
  apply (callback_tail 64 half_sin audio0 (repeat 7 10) 10 {| Freq := 48000; SamplesDone := 2 |});
    [unfold signed_max, int_bits; Zpow_norm; lia | reflexivity | vm_compute; reflexivity].
Defined.

Lemma callback_negative_len_witness :
  MyAudioCallback 64 half_sin {| Freq := 48000; SamplesDone := 5 |} (repeat 7 3) (-4) =
    Some ({| Freq := 48000; SamplesDone := 4 |}, repeat 7 3).
Proof.
  destruct (callback_negative_len 64 half_sin {| Freq := 48000; SamplesDone := 5 |} (repeat 7 3) (-4))
    as [E _]; [unfold signed_min, int_bits; Zpow_norm; lia|].
  rewrite E. reflexivity.
Defined.


End Audio.
