(* ===== verification/Main.v ===== *)
(** * [main]: start-up, the frame loop, tear-down and the audio thread

    [src/main.c] lines 185-297.  [main] initialises SDL, registers the
    [audio_data] and opens the audio device with [MyAudioCallback], sets the
    context attributes, creates the window and the GL context, asks for
    vsync, loads the GL entry points, builds the shader program
    ([ProgramBuilder.CompileShader]), sets up the quad's buffer and vertex
    array ([Geometry.geometry_setup]), enables sRGB writes, unpauses the
    audio device and runs the frame loop ([FrameLoop.main_loop]); after a
    quit it deletes the context, destroys the window and quits SDL.

    The platform's answers are the record [platform]; the calls [main] makes
    on SDL are recorded, with [main]'s own stores to [Audio] and one [Frame]
    per loop iteration, in the trace of the [outcome].  The three GL models
    ([gl_store] for shader and program objects, [geo_state] for buffers and
    vertex arrays, [gl_ctx] for the rest) are disjoint parts of the one
    context; [main] threads them in the order of the code, and
    [main_composition] shows that neither of the first two leaves an error
    behind for the first [glCheck] to miss.

    The audio thread: SDL calls [MyAudioCallback] on its own thread while
    the device is unpaused, on the [Audio] struct whose address [main]
    passed as [userdata] (one shared store), with a buffer of
    [samples * channels * 2] bytes filled with silence.  A [schedule]
    interleaves [main]'s trace with callback deliveries; [permitted] is the
    platform's rule for when a delivery can happen. *)

From S2P Require Import Prelude CInt IEEE GL GLObjects Shader Diagnostics FrameLoop Geometry Audio.
Open Scope Z_scope.
Import Diagnostics.

Module Main.

(** ** SDL 2 constants (from the SDL headers) *)

Definition SDL_INIT_AUDIO : Z := 0x10.
Definition SDL_INIT_VIDEO : Z := 0x20.
(** [AUDIO_S16SYS] is [AUDIO_S16LSB] on a little-endian host. *)
Definition AUDIO_S16SYS : Z := 0x8010.
Definition SDL_GL_FRAMEBUFFER_SRGB_CAPABLE : Z := 23.
Definition SDL_GL_CONTEXT_MAJOR_VERSION : Z := 17.
Definition SDL_GL_CONTEXT_MINOR_VERSION : Z := 18.
Definition SDL_GL_CONTEXT_PROFILE_MASK : Z := 21.
Definition SDL_GL_CONTEXT_PROFILE_CORE : Z := 0x1.
Definition SDL_WINDOWPOS_CENTERED : Z := 0x2FFF0000.

(** ** The platform and what [main] asks of it *)

(** [SDL_AudioSpec]: the fields [main] sets (the callback is
    [MyAudioCallback] and the user data [&Audio]). *)
Record SDL_AudioSpec := {
  freq : Z;
  format : Z;
  channels : Z;
  samples : Z
}.

(** The bytes of one callback buffer: [samples] frames of [channels]
    16-bit samples, the [size] SDL computes for a 16-bit format. *)
Definition buffer_bytes (s : SDL_AudioSpec) : Z := samples s * channels s * 2.

(** What the platform answers at each call of the start-up. *)
Record platform := {
  SDL_Init_result : Z;          (** non-zero: failure *)
  OpenAudioDevice_result : Z;   (** the device id, 0 on failure *)
  CreateWindow_ok : bool;       (** [Window != 0] *)
  CreateContext_ok : bool;      (** [Context != 0] *)
  SetSwapInterval_result : Z;   (** non-zero: failure *)
  gladLoad_result : Z;          (** 0: failure *)
  SDL_GetError : string
}.

Inductive sdl_call :=
| Call_SDL_Init (flags : Z)
| Call_SDL_OpenAudioDevice (desired : SDL_AudioSpec) (allowed_changes : Z)
| Call_SDL_GL_SetAttribute (attr value : Z)
| Call_SDL_CreateWindow (title : string) (x y w h flags : Z)
| Call_SDL_GL_CreateContext
| Call_SDL_GL_SetSwapInterval (interval : Z)
| Call_gladLoadGLLoader
| Call_SDL_PauseAudioDevice (dev pause_on : Z)
| Call_SDL_GL_DeleteContext
| Call_SDL_DestroyWindow
| Call_SDL_Quit.

(** What the main thread does, in order: a call on SDL, a store to the
    shared [Audio] struct, or one iteration of the frame loop. *)
Inductive event :=
| Call (c : sdl_call)
| WriteAudio (a : Audio.audio_data)
| Frame.

(** The calls that release what the start-up acquired. *)
Definition releases (c : sdl_call) : bool :=
  match c with
  | Call_SDL_PauseAudioDevice _ _ | Call_SDL_GL_DeleteContext | Call_SDL_DestroyWindow
  | Call_SDL_Quit => true
  | _ => false
  end.

(** How [main] ended: its exit code ([None] while it is still in the loop
    when the platform's batches run out), its stderr, its trace, and the
    three GL states once the loop was entered. *)
Record outcome := {
  exit_code : option Z;
  err : list string;
  trace : list event;
  final : option (ProgramBuilder.pb_state * Geometry.geo_state * FrameLoop.loop_state)
}.

Local Open Scope string_scope.
(** [fprintf(stderr, "<what>: %s\n", SDL_GetError())]. *)
Definition sdl_error (what : string) (p : platform) : string :=
  what ++ ": " ++ SDL_GetError p ++ nl.
Definition glad_error : string := "glad gl load failed" ++ nl.
Definition shader_error : string := "shader compilation failed" ++ nl.
Definition window_title : string := "SDL Template".
Definition srgb_call_str : string := "glEnable(GL_FRAMEBUFFER_SRGB)".
Local Close Scope string_scope.

(** [DesiredAudio] as [main] fills it (lines 194-198). *)
Definition DesiredAudio : SDL_AudioSpec :=
  {| freq := 48000; format := AUDIO_S16SYS; channels := 2; samples := 4096 |}.

(** [audio_data Audio = {0}; Audio.Freq = 48000;] *)
Definition Audio_zero : Audio.audio_data := {| Audio.Freq := 0; Audio.SamplesDone := 0 |}.
Definition Audio_init : Audio.audio_data := {| Audio.Freq := 48000; Audio.SamplesDone := 0 |}.

(** The four [SDL_GL_SetAttribute] calls (lines 207-211). *)
Definition gl_attributes : list sdl_call :=
  [Call_SDL_GL_SetAttribute SDL_GL_CONTEXT_MAJOR_VERSION 4;
   Call_SDL_GL_SetAttribute SDL_GL_CONTEXT_MINOR_VERSION 1;
   Call_SDL_GL_SetAttribute SDL_GL_CONTEXT_PROFILE_MASK SDL_GL_CONTEXT_PROFILE_CORE;
   Call_SDL_GL_SetAttribute SDL_GL_FRAMEBUFFER_SRGB_CAPABLE 1].

Definition teardown : list sdl_call :=
  [Call_SDL_GL_DeleteContext; Call_SDL_DestroyWindow; Call_SDL_Quit].

(** [fprintf(stderr, ...); return -1;] *)
Definition fail (t : list event) (e : list string) : outcome :=
  {| exit_code := Some (-1); err := e; trace := t; final := None |}.

(** The loop's state where [glCheck(glEnable(GL_FRAMEBUFFER_SRGB))] runs:
    the context as created, the stderr so far; [ModelPosition = {0}] and
    [Running = 1] are declared just after, and [glCheck] does not touch
    them. *)
Definition loop_entry (c : gl_ctx) (e : list string) : FrameLoop.loop_state :=
  {| FrameLoop.ModelPosition := (S754_zero false, S754_zero false); FrameLoop.Running := true;
     FrameLoop.gl := c; FrameLoop.stderr := e; FrameLoop.swaps := 0 |}.

Section Main.
Context `{GLDriver} `{GLObjects.ShaderDriver}.

(** Lines 236-297: from [CompileShader] to [return 0], with the device id,
    the batches of events, the trace and stderr so far. *)
Definition graphics (AudioDevice : Z) (batches : list (list FrameLoop.SDL_Event))
    (t : list event) (e : list string) : option outcome :=
  '((r, Sh), pbs) ← ProgramBuilder.CompileShader ProgramBuilder.CodeVS ProgramBuilder.CodeFS
                      {| ProgramBuilder.gls := ProgramBuilder.gls ProgramBuilder.pb0;
                         ProgramBuilder.stderr := e |};
  if negb (r =? 0) then Some (fail t (ProgramBuilder.stderr pbs ++ [shader_error])) else
  Shader ← Sh;
  let '((VAO, VBO), geos) := Geometry.geometry_setup Geometry.geo0 in
  let st := snd (FrameLoop.glCheckM srgb_call_str (glEnable GL_FRAMEBUFFER_SRGB)
                   (loop_entry gl_ctx0 (ProgramBuilder.stderr pbs))) in
  let t := t ++ [Call (Call_SDL_PauseAudioDevice AudioDevice 0)] in
  let st' := FrameLoop.main_loop Shader VAO batches st in
  let t := t ++ repeat Frame (FrameLoop.swaps st') in
  if FrameLoop.Running st' then
    Some {| exit_code := None; err := FrameLoop.stderr st'; trace := t;
            final := Some (pbs, geos, st') |}
  else
    Some {| exit_code := Some 0; err := FrameLoop.stderr st'; trace := t ++ map Call teardown;
            final := Some (pbs, geos, st') |}.

(** [main] (lines 185-234, then [graphics]). *)
Definition main (p : platform) (batches : list (list FrameLoop.SDL_Event)) : option outcome :=
  let t := [Call (Call_SDL_Init (Z.lor SDL_INIT_VIDEO SDL_INIT_AUDIO))] in
  if negb (SDL_Init_result p =? 0) then Some (fail t [sdl_error "SDL_Init" p]) else
  let t := t ++ [WriteAudio Audio_zero; WriteAudio Audio_init;
                 Call (Call_SDL_OpenAudioDevice DesiredAudio 0)] in
  let AudioDevice := OpenAudioDevice_result p in
  if AudioDevice =? 0 then Some (fail t [sdl_error "SDL_OpenAudioDevice" p]) else
  let t := t ++ map Call gl_attributes ++
           [Call (Call_SDL_CreateWindow window_title SDL_WINDOWPOS_CENTERED SDL_WINDOWPOS_CENTERED
                    FrameLoop.WindowWidth FrameLoop.WindowHeight 0)] in
  if negb (CreateWindow_ok p) then Some (fail t [sdl_error "SDL_CreateWindow" p]) else
  let t := t ++ [Call Call_SDL_GL_CreateContext] in
  if negb (CreateContext_ok p) then Some (fail t [sdl_error "SDL_GL_CreateContext" p]) else
  let t := t ++ [Call (Call_SDL_GL_SetSwapInterval 1)] in
  let e := if SetSwapInterval_result p =? 0 then [] else [sdl_error "SDL_GL_SetSwapInterval" p] in
  let t := t ++ [Call Call_gladLoadGLLoader] in
  if gladLoad_result p =? 0 then Some (fail t (e ++ [glad_error])) else
  graphics AudioDevice batches t e.

(** The first failure of the start-up, as the specification lists them
    (subsystem, audio, window, context, the GL loader, the shader build):
    the message [main] prints for it. *)
Definition startup_error (p : platform) : option string :=
  if negb (SDL_Init_result p =? 0) then Some (sdl_error "SDL_Init" p)
  else if OpenAudioDevice_result p =? 0 then Some (sdl_error "SDL_OpenAudioDevice" p)
  else if negb (CreateWindow_ok p) then Some (sdl_error "SDL_CreateWindow" p)
  else if negb (CreateContext_ok p) then Some (sdl_error "SDL_GL_CreateContext" p)
  else if gladLoad_result p =? 0 then Some glad_error
  else if negb (ProgramBuilder.link_of ProgramBuilder.CodeVS ProgramBuilder.CodeFS).1
          || negb (GLObjects.compile_verdict GLObjects.GL_VERTEX_SHADER ProgramBuilder.CodeVS).1
          || negb (GLObjects.compile_verdict GLObjects.GL_FRAGMENT_SHADER ProgramBuilder.CodeFS).1
       then Some shader_error
  else None.
End Main.

(** ** The audio thread

    A schedule interleaves the main thread's events with the deliveries of
    the audio thread, each of which is one call of [MyAudioCallback]. *)
Inductive sched_event :=
| ByMain (e : event)
| ByAudio.

(** SDL delivers callbacks while the device is unpaused: it opens paused,
    [SDL_PauseAudioDevice(dev, pause_on)] on an open device ([dev != 0])
    sets the pause state, and [SDL_Quit] closes the device. *)
Definition delivering (on : bool) (e : event) : bool :=
  match e with
  | Call (Call_SDL_PauseAudioDevice dev pause_on) => if dev =? 0 then on else pause_on =? 0
  | Call Call_SDL_Quit => false
  | _ => on
  end.

Fixpoint permitted_from (on : bool) (s : list sched_event) : bool :=
  match s with
  | [] => true
  | ByMain e :: s => permitted_from (delivering on e) s
  | ByAudio :: s => on && permitted_from on s
  end.

(** The schedules the platform can produce. *)
Definition permitted (s : list sched_event) : bool := permitted_from false s.

Definition main_part (s : list sched_event) : list event :=
  omap (fun x => match x with ByMain e => Some e | ByAudio => None end) s.

Fixpoint deliveries (s : list sched_event) : nat :=
  match s with
  | [] => O
  | ByAudio :: s => S (deliveries s)
  | ByMain _ :: s => deliveries s
  end.

(** The calls and stores [main] makes before it unpauses the device. *)
Definition startup_trace : list event :=
  [Call (Call_SDL_Init (Z.lor SDL_INIT_VIDEO SDL_INIT_AUDIO));
   WriteAudio Audio_zero; WriteAudio Audio_init;
   Call (Call_SDL_OpenAudioDevice DesiredAudio 0)] ++ map Call gl_attributes ++
  [Call (Call_SDL_CreateWindow window_title SDL_WINDOWPOS_CENTERED SDL_WINDOWPOS_CENTERED
           FrameLoop.WindowWidth FrameLoop.WindowHeight 0);
   Call Call_SDL_GL_CreateContext; Call (Call_SDL_GL_SetSwapInterval 1);
   Call Call_gladLoadGLLoader].

(** The bytes SDL hands to each callback: the device plays [DesiredAudio]
    unchanged ([allowed_changes = 0]). *)
Definition Len : Z := buffer_bytes DesiredAudio.

Section AudioThread.
Context (long_bits : Z) (sin : spec_float -> spec_float) (BufLen : Z).

(** The shared [Audio] struct along a schedule, each callback on a
    buffer of [BufLen] bytes: [None] before it is declared; the whole run
    is [None] when a callback has undefined behaviour or runs on a struct
    that does not exist.  SDL fills each buffer with silence (0 for
    [AUDIO_S16SYS]) before the callback. *)
Fixpoint shared (m : option Audio.audio_data) (s : list sched_event)
  : option (option Audio.audio_data) :=
  match s with
  | [] => Some m
  | ByMain (WriteAudio a) :: s => shared (Some a) s
  | ByMain _ :: s => shared m s
  | ByAudio :: s =>
      a ← m;
      r ← Audio.MyAudioCallback long_bits sin a (repeat 0 (Z.to_nat BufLen)) BufLen;
      shared (Some r.1) s
  end.
End AudioThread.

(** ** Running the start-up *)

Section Run.
Context `{GLDriver} `{GLObjects.ShaderDriver}.

(** stderr after [SDL_GL_SetSwapInterval(1)]. *)
Definition swap_err (p : platform) : list string :=
  if SetSwapInterval_result p =? 0 then [] else [sdl_error "SDL_GL_SetSwapInterval" p].

Definition pb_start (e : list string) : ProgramBuilder.pb_state :=
  {| ProgramBuilder.gls := ProgramBuilder.gls ProgramBuilder.pb0; ProgramBuilder.stderr := e |}.

(** The loop's state after [glCheck(glEnable(GL_FRAMEBUFFER_SRGB))]. *)
Definition loop_start (p : platform) : FrameLoop.loop_state :=
  snd (FrameLoop.glCheckM srgb_call_str (glEnable GL_FRAMEBUFFER_SRGB)
         (loop_entry gl_ctx0 (ProgramBuilder.stderr
            (ProgramBuilder.build_result ProgramBuilder.CodeVS ProgramBuilder.CodeFS
               (pb_start (swap_err p))).2))).

Definition shader_ok : bool :=
  (ProgramBuilder.link_of ProgramBuilder.CodeVS ProgramBuilder.CodeFS).1
  && (GLObjects.compile_verdict GLObjects.GL_VERTEX_SHADER ProgramBuilder.CodeVS).1
  && (GLObjects.compile_verdict GLObjects.GL_FRAGMENT_SHADER ProgramBuilder.CodeFS).1.

Lemma geometry_setup_geo0 :
  Geometry.geometry_setup Geometry.geo0 = ((2, 1), (Geometry.geometry_setup Geometry.geo0).2).
Proof. vm_compute. reflexivity. Qed.

Lemma pb_start_wf e : GLObjects.store_wf (ProgramBuilder.gls (pb_start e)).
Proof. exact ProgramBuilder.pb0_wf. Qed.

Lemma CompileShader_start e :
  ProgramBuilder.CompileShader ProgramBuilder.CodeVS ProgramBuilder.CodeFS (pb_start e) =
  Some (ProgramBuilder.build_result ProgramBuilder.CodeVS ProgramBuilder.CodeFS (pb_start e)).
Proof. apply ProgramBuilder.CompileShader_build_result, pb_start_wf. Qed.

Lemma build_result_start_ok e :
  shader_ok = true ->
  (ProgramBuilder.build_result ProgramBuilder.CodeVS ProgramBuilder.CodeFS (pb_start e)).1 = (0, Some 3).
Proof.
  unfold shader_ok, ProgramBuilder.build_result.
  destruct (ProgramBuilder.link_of _ _).1,
    (GLObjects.compile_verdict GLObjects.GL_VERTEX_SHADER _).1,
    (GLObjects.compile_verdict GLObjects.GL_FRAGMENT_SHADER _).1; done.
Qed.

Lemma build_result_start_fail e :
  shader_ok = false ->
  (ProgramBuilder.build_result ProgramBuilder.CodeVS ProgramBuilder.CodeFS (pb_start e)).1 = (1, None).
Proof.
  unfold shader_ok, ProgramBuilder.build_result.
  destruct (ProgramBuilder.link_of _ _).1,
    (GLObjects.compile_verdict GLObjects.GL_VERTEX_SHADER _).1,
    (GLObjects.compile_verdict GLObjects.GL_FRAGMENT_SHADER _).1; done.
Qed.

(** [graphics] once the program is built: the loop runs on program 3 and
    vertex array 2. *)
Lemma graphics_ok AudioDevice bs t e :
  shader_ok = true ->
  let pbs := (ProgramBuilder.build_result ProgramBuilder.CodeVS ProgramBuilder.CodeFS (pb_start e)).2 in
  let st := snd (FrameLoop.glCheckM srgb_call_str (glEnable GL_FRAMEBUFFER_SRGB)
                   (loop_entry gl_ctx0 (ProgramBuilder.stderr pbs))) in
  let st' := FrameLoop.main_loop 3 2 bs st in
  graphics AudioDevice bs t e =
  Some {| exit_code := if FrameLoop.Running st' then None else Some 0;
          err := FrameLoop.stderr st';
          trace := t ++ [Call (Call_SDL_PauseAudioDevice AudioDevice 0)] ++
                   repeat Frame (FrameLoop.swaps st') ++
                   (if FrameLoop.Running st' then [] else map Call teardown);
          final := Some (pbs, (Geometry.geometry_setup Geometry.geo0).2, st') |}.
Proof.
  intros Hok. unfold graphics. fold (pb_start e). rewrite CompileShader_start.
  destruct (ProgramBuilder.build_result _ _ (pb_start e)) as [[r Sh] pbs] eqn:E.
  pose proof (build_result_start_ok e Hok) as R. rewrite E in R. cbn in R. injection R as -> ->.
  cbn [mbind option_bind negb Z.eqb Pos.eqb]. rewrite geometry_setup_geo0.
  destruct (FrameLoop.Running _); by rewrite <- ?app_assoc, ?app_nil_r.
Qed.
Lemma startup_error_None p :
  startup_error p = None ->
  SDL_Init_result p = 0 ∧ OpenAudioDevice_result p ≠ 0 ∧ CreateWindow_ok p = true ∧
  CreateContext_ok p = true ∧ gladLoad_result p ≠ 0 ∧ shader_ok = true.
Proof.
  unfold startup_error, shader_ok.
  destruct (SDL_Init_result p =? 0) eqn:E1, (OpenAudioDevice_result p =? 0) eqn:E2,
    (CreateWindow_ok p), (CreateContext_ok p), (gladLoad_result p =? 0) eqn:E3; try done.
  destruct (ProgramBuilder.link_of _ _).1,
    (GLObjects.compile_verdict GLObjects.GL_VERTEX_SHADER _).1,
    (GLObjects.compile_verdict GLObjects.GL_FRAGMENT_SHADER _).1; try done.
  intros _. lia.
Qed.

(** [main] when nothing fails: the start-up's calls, the device unpaused,
    the loop on [loop_start p], then the tear-down once it has stopped. *)
Lemma main_ok p bs :
  startup_error p = None ->
  let st' := FrameLoop.main_loop 3 2 bs (loop_start p) in
  main p bs =
  Some {| exit_code := if FrameLoop.Running st' then None else Some 0;
          err := FrameLoop.stderr st';
          trace := startup_trace ++ [Call (Call_SDL_PauseAudioDevice (OpenAudioDevice_result p) 0)] ++
                   repeat Frame (FrameLoop.swaps st') ++
                   (if FrameLoop.Running st' then [] else map Call teardown);
          final := Some ((ProgramBuilder.build_result ProgramBuilder.CodeVS ProgramBuilder.CodeFS
                            (pb_start (swap_err p))).2,
                         (Geometry.geometry_setup Geometry.geo0).2, st') |}.
Proof.
  intros Hs%startup_error_None. destruct Hs as (E1 & E2 & E3 & E4 & E5 & Hok).
  unfold main. rewrite E1, E3, E4. cbn [Z.eqb negb].
  rewrite (proj2 (Z.eqb_neq _ 0) E2), (proj2 (Z.eqb_neq _ 0) E5).
  rewrite graphics_ok by exact Hok. reflexivity.
Qed.

Local Ltac fail_at k e :=
  exists (take k%nat startup_trace), (drop k%nat startup_trace), e; split; [reflexivity | apply take_drop].

(** [main] when the start-up fails: it stops at the failing call, with
    what was printed so far and the message of the failure last. *)
Lemma main_fails p bs msg :
  startup_error p = Some msg ->
  ∃ t t' e, main p bs = Some (fail t (e ++ [msg])) ∧ t ++ t' = startup_trace.
Proof.
  unfold startup_error, main.
  destruct (SDL_Init_result p =? 0) eqn:E1; cbn [negb].
  2: { intros [= <-]. fail_at 1%nat (@nil string). }
  destruct (OpenAudioDevice_result p =? 0) eqn:E2.
  { intros [= <-]. fail_at 4%nat (@nil string). }
  destruct (CreateWindow_ok p); cbn [negb].
  2: { intros [= <-]. fail_at 9%nat (@nil string). }
  destruct (CreateContext_ok p); cbn [negb].
  2: { intros [= <-]. fail_at 10%nat (@nil string). }
  destruct (gladLoad_result p =? 0) eqn:E5.
  { intros [= <-]. fail_at 12%nat (swap_err p). }
  intros Hsh. assert (Hok : shader_ok = false ∧ msg = shader_error).
  { unfold shader_ok. revert Hsh.
    destruct (ProgramBuilder.link_of _ _).1,
      (GLObjects.compile_verdict GLObjects.GL_VERTEX_SHADER _).1,
      (GLObjects.compile_verdict GLObjects.GL_FRAGMENT_SHADER _).1; intros Hm; cbn in Hm; first [discriminate Hm | split; [reflexivity | congruence]]. }
  destruct Hok as [Hok ->]. fold (swap_err p). unfold graphics. fold (pb_start (swap_err p)).
  rewrite CompileShader_start.
  destruct (ProgramBuilder.build_result _ _ _) as [[r Sh] pbs] eqn:E.
  pose proof (build_result_start_fail (swap_err p) Hok) as R. rewrite E in R. injection R as -> ->.
  fail_at 12%nat (ProgramBuilder.stderr pbs).
Qed.

End Run.

(** ** Schedules *)

(** Events that do not let the device deliver when it is paused. *)
Definition quiet (e : event) : bool := negb (delivering false e).
Definition writes (e : event) : bool := match e with WriteAudio _ => true | _ => false end.

Lemma main_part_app s1 s2 : main_part (s1 ++ s2) = main_part s1 ++ main_part s2.
Proof. apply omap_app. Qed.

Lemma deliveries_app s1 s2 : deliveries (s1 ++ s2) = (deliveries s1 + deliveries s2)%nat.
Proof. induction s1 as [|[]]; simpl; auto. Qed.

Lemma permitted_from_main on t s :
  permitted_from on (map ByMain t ++ s) = permitted_from (foldl delivering on t) s.
Proof. revert on. induction t; intros on; simpl; auto. Qed.

Lemma foldl_delivering_frames on n : foldl delivering on (repeat Frame n) = on.
Proof. induction n; simpl; auto. Qed.

(** A schedule of [t1 ++ t2] where [t1] never lets the device deliver
    is a schedule of [t1] without delivery followed by one of [t2]. *)
Lemma permitted_split s t1 t2 :
  permitted_from false s = true -> main_part s = t1 ++ t2 -> Forall (fun e => quiet e = true) t1 ->
  ∃ s1 s2, s = s1 ++ s2 ∧ main_part s1 = t1 ∧ main_part s2 = t2 ∧ deliveries s1 = 0%nat ∧
    permitted_from false s2 = true.
Proof.
  revert s. induction t1 as [|e t1 IH]; intros s Hp Hm Hq.
  - by exists [], s.
  - destruct s as [|[e'|] s]; cbn in Hm, Hp; [discriminate|..|discriminate].
    injection Hm as -> Hm. apply Forall_cons in Hq as [He Hq].
    apply negb_true_iff in He. rewrite He in Hp.
    destruct (IH s Hp Hm Hq) as (s1 & s2 & -> & H1 & H2 & H0 & Hp2).
    exists (ByMain e :: s1), s2. change (main_part (ByMain e :: s1)) with (e :: main_part s1).
    rewrite H1. split_and!; done.
Qed.

(** Nothing is delivered once the main thread is done while paused. *)
Lemma permitted_no_main s : permitted_from false s = true -> main_part s = [] -> deliveries s = 0%nat.
Proof. destruct s as [|[]]; cbn; done. Qed.

Lemma lookup_main s k e : s !! k = Some (ByMain e) -> e ∈ main_part s.
Proof.
  revert k. induction s as [|x s IH]; intros k Hk; [done|].
  destruct k as [|k]; cbn in Hk.
  - injection Hk as ->. cbn. by left.
  - destruct x; cbn; [right|]; eauto.
Qed.

Lemma lookup_audio s k : s !! k = Some ByAudio -> deliveries s ≠ 0%nat.
Proof.
  revert k. induction s as [|x s IH]; intros k Hk; [done|].
  destruct k as [|k]; cbn in Hk; [by injection Hk as ->|]. destruct x; cbn; eauto.
Qed.

(** Every store of the main thread comes before every delivery when the
    stores are all in a part without delivery. *)
Lemma writes_before s1 s2 i j a :
  deliveries s1 = 0%nat -> Forall (fun e => writes e = false) (main_part s2) ->
  (s1 ++ s2) !! i = Some (ByMain (WriteAudio a)) -> (s1 ++ s2) !! j = Some ByAudio -> (i < j)%nat.
Proof.
  intros H0 Hw Hi Hj.
  destruct (decide (i < length s1)%nat) as [Hl|Hl].
  - destruct (decide (j < length s1)%nat) as [Hl'|Hl']; [|lia].
    rewrite lookup_app_l in Hj by done. by apply lookup_audio in Hj.
  - rewrite lookup_app_r in Hi by lia. apply lookup_main in Hi.
    by apply (Forall_forall _ _) with (x := WriteAudio a) in Hw.
Qed.

Section Shared.
Context (long_bits : Z) (sin : spec_float -> spec_float) (BufLen : Z).

(** The last store to [Audio] along a main-thread trace. *)
Fixpoint last_write (m : option Audio.audio_data) (t : list event) : option Audio.audio_data :=
  match t with
  | [] => m
  | WriteAudio a :: t => last_write (Some a) t
  | _ :: t => last_write m t
  end.

Lemma run_callbacks_S n a L :
  Audio.run_callbacks long_bits sin (S n) a L =
  (r ← Audio.MyAudioCallback long_bits sin a (repeat 0 (Z.to_nat L)) L;
   Audio.run_callbacks long_bits sin n r.1 L).
Proof. reflexivity. Qed.

Lemma shared_app_quiet m s1 s2 :
  deliveries s1 = 0%nat -> shared long_bits sin BufLen m (s1 ++ s2) = shared long_bits sin BufLen (last_write m (main_part s1)) s2.
Proof. revert m. induction s1 as [|[[]|] s1 IH]; intros m H0; cbn; auto; discriminate. Qed.

Lemma shared_no_writes a0 s :
  Forall (fun e => writes e = false) (main_part s) ->
  shared long_bits sin BufLen (Some a0) s =
    Some <$> Audio.run_callbacks long_bits sin (deliveries s) a0 BufLen.
Proof.
  revert a0. induction s as [|[[c|a|]|] s IH]; intros a0 Hw;
    cbn [shared deliveries main_part omap] in *; try done.
  - apply IH. by inversion Hw.
  - inversion Hw; discriminate.
  - apply IH. by inversion Hw.
  - rewrite run_callbacks_S. cbn [mbind option_bind].
    destruct (Audio.MyAudioCallback long_bits sin a0 (repeat 0 (Z.to_nat BufLen)) BufLen) as [[A S]|];
      cbn [mbind option_bind fst]; [by apply IH|done].
Qed.
End Shared.

Lemma startup_trace_quiet : Forall (fun e => quiet e = true) startup_trace.
Proof. repeat constructor. Qed.

Lemma last_write_startup : last_write None startup_trace = Some Audio_init.
Proof. reflexivity. Qed.

Lemma startup_trace_releases c : Call c ∈ startup_trace -> releases c = false.
Proof.
  intros Hc. assert (F : Forall (fun e => match e with Call c => releases c = false | _ => True end)
                              startup_trace) by (repeat constructor).
  exact (proj1 (Forall_forall _ _) F _ Hc).
Qed.

Lemma loop_trace_no_writes (dev : Z) (n : nat) (b : bool) :
  Forall (fun e => writes e = false)
    ([Call (Call_SDL_PauseAudioDevice dev 0)] ++ repeat Frame n ++ (if b then [] else map Call teardown)).
Proof.
  apply Forall_app; split; [by constructor|]. apply Forall_app; split.
  - induction n; by constructor.
  - destruct b; repeat constructor.
Qed.

Section Traces.
Context `{GLDriver} `{GLObjects.ShaderDriver}.

(** Every trace of [main] is a part that never unpauses the device and
    ends (when the device is unpaused at all) with [Audio_init] stored,
    followed by a part without stores to [Audio]. *)
Lemma main_trace_split p bs o :
  main p bs = Some o ->
  ∃ t1 t2, trace o = t1 ++ t2 ∧ Forall (fun e => quiet e = true) t1 ∧
    Forall (fun e => writes e = false) t2 ∧ (t2 = [] ∨ last_write None t1 = Some Audio_init).
Proof.
  intros Hm. destruct (startup_error p) as [msg|] eqn:E.
  - destruct (main_fails p bs msg E) as (t & t' & e & Hm' & Ht). rewrite Hm' in Hm. injection Hm as <-.
    exists t, []. rewrite app_nil_r. split_and!; [done| |constructor|by left].
    pose proof startup_trace_quiet as Q. rewrite <- Ht in Q. by apply Forall_app in Q as [Q _].
  - rewrite (main_ok p bs E) in Hm. injection Hm as <-. cbn [trace].
    eexists startup_trace, _. split_and!; [reflexivity|exact startup_trace_quiet|apply loop_trace_no_writes|by right].
Qed.
End Traces.

Section Loop.
Context `{GLDriver} `{GLObjects.ShaderDriver}.

(** The loop is entered running, at the origin, before any swap, with the
    context as created but for sRGB writes enabled and no error pending. *)
Lemma loop_start_facts p :
  FrameLoop.Running (loop_start p) = true ∧ FrameLoop.swaps (loop_start p) = 0%nat ∧
  FrameLoop.ModelPosition (loop_start p) = (S754_zero false, S754_zero false) ∧
  FrameLoop.gl (loop_start p) = gl_effect gl_ctx0 (glEnable GL_FRAMEBUFFER_SRGB).
Proof.
  unfold loop_start. set (st := loop_entry _ _).
  assert (Hq : queue_ok (FrameLoop.gl st)) by constructor.
  pose proof (FrameLoop.glCheckM_drains srgb_call_str (glEnable GL_FRAMEBUFFER_SRGB) st Hq) as D.
  destruct (FrameLoop.glCheckM_ctrl srgb_call_str (glEnable GL_FRAMEBUFFER_SRGB) st st
              ltac:(split_and!; reflexivity)) as (E1 & E2 & E3 & E4).
  split_and!; [exact E2 | exact E3 | exact E1 |].
  rewrite <- (set_errors_nil _ D). exact E4.
Qed.

Lemma build_result_start_objects e :
  shader_ok = true ->
  let pbs := (ProgramBuilder.build_result ProgramBuilder.CodeVS ProgramBuilder.CodeFS (pb_start e)).2 in
  GLObjects.objects (ProgramBuilder.gls pbs) =
    {[3 := GLObjects.ProgramObj (ProgramBuilder.final_program ProgramBuilder.CodeVS ProgramBuilder.CodeFS)]} ∧
  GLObjects.pending (ProgramBuilder.gls pbs) = [].
Proof.
  unfold shader_ok, ProgramBuilder.build_result.
  destruct (ProgramBuilder.link_of _ _).1,
    (GLObjects.compile_verdict GLObjects.GL_VERTEX_SHADER _).1,
    (GLObjects.compile_verdict GLObjects.GL_FRAGMENT_SHADER _).1; try done.
  all: intros _; split; reflexivity.
Qed.

Lemma geometry_geo0_facts :
  let geos := (Geometry.geometry_setup Geometry.geo0).2 in
  Geometry.buffers geos !! 1 = Some Geometry.MeshData ∧
  Geometry.vaos geos !! 2 = Some (Geometry.mesh_layout 1) ∧ Geometry.geo_errors geos = [].
Proof. split_and!; vm_compute; reflexivity. Qed.
End Loop.

(** ** Properties of [main] *)

Section Properties.
Context `{GLDriver} `{GLObjects.ShaderDriver}.

(** [C35] Start-up failures: when a step of the start-up fails (SDL
    initialisation, the audio device, the window, the GL context, the GL
    loader or the shader build, the first of them in this order), [main]
    returns -1 with that step's message last on stderr, never enters the
    loop, and releases nothing: it neither pauses nor closes the audio
    device, deletes no context, destroys no window and does not call
    [SDL_Quit], and the audio device delivers no callback in any
    schedule. *)
Theorem main_startup_failure p bs msg :
  startup_error p = Some msg ->
  ∃ o, main p bs = Some o ∧ exit_code o = Some (-1) ∧ last (err o) = Some msg ∧ final o = None ∧
    (∀ c, Call c ∈ trace o -> releases c = false) ∧
    (∀ s, permitted s = true -> main_part s = trace o -> deliveries s = 0%nat).
Proof.
  intros E. destruct (main_fails p bs msg E) as (t & t' & e & -> & Ht).
  eexists. split_and!; [reflexivity | reflexivity | apply last_snoc | reflexivity | |].
  - intros c Hc. apply startup_trace_releases. rewrite <- Ht. set_solver.
  - intros s Hp Hs. cbn [trace] in Hs. rewrite <- (app_nil_r t) in Hs.
    pose proof startup_trace_quiet as Q. rewrite <- Ht in Q. apply Forall_app in Q as [Q _].
    destruct (permitted_split s t [] Hp Hs Q) as (s1 & s2 & -> & _ & H2 & Hd0 & Hp2).
    rewrite deliveries_app, Hd0, (permitted_no_main s2 Hp2 H2). reflexivity.
Qed.

(** [C36] Clean exit and tear-down order: when the start-up succeeds and
    the first batch holding a quit is the [k]-th, [main] returns 0 after
    [k] frames, and its calls are the start-up's, [SDL_PauseAudioDevice(dev,
    0)], then [SDL_GL_DeleteContext], [SDL_DestroyWindow], [SDL_Quit] in
    this order.  The device is not paused again before the context is
    deleted: the platform may still deliver a callback after the context
    and the window are gone, just before [SDL_Quit]. *)
Theorem main_clean_exit p pre b post :
  startup_error p = None ->
  Forall (fun b' => existsb FrameLoop.is_quit b' = false) pre -> existsb FrameLoop.is_quit b = true ->
  let t := startup_trace ++ [Call (Call_SDL_PauseAudioDevice (OpenAudioDevice_result p) 0)] ++
           repeat Frame (length pre + 1) in
  ∃ o, main p (pre ++ b :: post) = Some o ∧ exit_code o = Some 0 ∧
    trace o = t ++ [Call Call_SDL_GL_DeleteContext; Call Call_SDL_DestroyWindow; Call Call_SDL_Quit] ∧
    permitted (map ByMain (t ++ [Call Call_SDL_GL_DeleteContext; Call Call_SDL_DestroyWindow]) ++
               [ByAudio; ByMain (Call Call_SDL_Quit)]) = true.
Proof.
  intros E Hpre Hb t. pose proof (startup_error_None p E) as (_ & Hdev & _).
  destruct (loop_start_facts p) as (Hr & Hs & _).
  destruct (FrameLoop.main_loop_until_quit 3 2 pre b post (loop_start p) Hr Hpre Hb) as (Hr' & Hs' & _).
  rewrite Hs in Hs'. cbn [plus] in Hs'.
  eexists. rewrite (main_ok p _ E). split_and!; [reflexivity | by rewrite Hr' | |].
  - cbn [trace]. rewrite Hr', Hs'. unfold t. by rewrite <- !app_assoc.
  - unfold permitted. rewrite permitted_from_main. unfold t. rewrite !foldl_app.
    cbn [foldl delivering]. rewrite (proj2 (Z.eqb_neq _ 0) Hdev), foldl_delivering_frames. reflexivity.
Qed.

End Properties.

Section AudioProperties.
Context (long_bits : Z) `{LongWidth long_bits} (sin : spec_float -> spec_float).


(** [C38] No data race on [Audio]: in every schedule the platform can
    produce from a run of [main] (any interleaving of its trace with the
    audio thread's deliveries, each delivery while the device is
    unpaused), every store of [main] to the shared [Audio] struct comes
    before every callback, and after [n > 0] callbacks the struct is what
    [n] callbacks in a row make of [{Freq = 48000, SamplesDone = 0}],
    whatever the interleaving. *)
Theorem audio_noninterference `{GLDriver} `{GLObjects.ShaderDriver} p bs o s :
  main p bs = Some o -> permitted s = true -> main_part s = trace o ->
  (∀ i j a, s !! i = Some (ByMain (WriteAudio a)) -> s !! j = Some ByAudio -> (i < j)%nat) ∧
  (deliveries s ≠ 0%nat ->
   shared long_bits sin Len None s = Some <$> Audio.run_callbacks long_bits sin (deliveries s) Audio_init Len).
Proof.
  intros Hm Hp Hs. destruct (main_trace_split p bs o Hm) as (t1 & t2 & Ht & Hq & Hw & Hl).
  rewrite Ht in Hs. destruct (permitted_split s t1 t2 Hp Hs Hq) as (s1 & s2 & -> & Hm1 & H2 & Hd0 & Hp2).
  split.
  - intros i j a. apply writes_before; [done | by rewrite H2].
  - rewrite deliveries_app, Hd0, shared_app_quiet, Hm1 by done. intros Hd.
    destruct Hl as [-> | ->]; [by rewrite (permitted_no_main s2 Hp2 H2) in Hd|].
    apply shared_no_writes. by rewrite H2.
Qed.
End AudioProperties.

(** ** Concrete runs *)

(** A platform on which every step of the start-up succeeds (device 2),
    and one without a video device. *)
Definition platform_ok : platform :=
  {| SDL_Init_result := 0; OpenAudioDevice_result := 2; CreateWindow_ok := true;
     CreateContext_ok := true; SetSwapInterval_result := 0; gladLoad_result := 1;
     SDL_GetError := EmptyString |}.
Definition platform_no_window : platform :=
  {| SDL_Init_result := 0; OpenAudioDevice_result := 2; CreateWindow_ok := false;
     CreateContext_ok := true; SetSwapInterval_result := 0; gladLoad_result := 1;
     SDL_GetError := "No available video device"%string |}.

(** One frame, a callback, then the tear-down. *)
Definition sched_one_callback : list sched_event :=
  map ByMain (startup_trace ++ [Call (Call_SDL_PauseAudioDevice 2 0); Frame]) ++
  [ByAudio] ++ map ByMain (map Call teardown).

Lemma main_startup_failure_witness :
  @startup_error ProgramBuilder.glsl410_driver platform_no_window =
    Some (sdl_error "SDL_CreateWindow" platform_no_window) ∧
  ∃ o, @main quiet_driver ProgramBuilder.glsl410_driver platform_no_window [] = Some o ∧
       exit_code o = Some (-1).
Proof.
  assert (E : @startup_error ProgramBuilder.glsl410_driver platform_no_window =
              Some (sdl_error "SDL_CreateWindow" platform_no_window)) by reflexivity.
  split; [exact E|].
  destruct (@main_startup_failure quiet_driver ProgramBuilder.glsl410_driver platform_no_window [] _ E)
    as (o & Ho & He & _). exists o. split; [exact Ho | exact He].
Defined.

Lemma main_clean_exit_witness :
  @startup_error ProgramBuilder.glsl410_driver platform_ok = None ∧
  ∃ o, @main quiet_driver ProgramBuilder.glsl410_driver platform_ok
         [[FrameLoop.click_center]; [FrameLoop.SDL_QUIT]] = Some o ∧ exit_code o = Some 0.
Proof.
  assert (E : @startup_error ProgramBuilder.glsl410_driver platform_ok = None) by (vm_compute; reflexivity).
  split; [exact E|].
  destruct (@main_clean_exit quiet_driver ProgramBuilder.glsl410_driver platform_ok
              [[FrameLoop.click_center]] [FrameLoop.SDL_QUIT] [] E ltac:(repeat constructor) eq_refl)
    as (o & Ho & He & _). exists o. split; [exact Ho | exact He].
Defined.



Lemma audio_noninterference_witness :
  shared 64 Audio.half_sin Len None sched_one_callback =
    Some <$> Audio.run_callbacks 64 Audio.half_sin 1 Audio_init Len.
Proof.
  destruct (@main quiet_driver ProgramBuilder.glsl410_driver platform_ok [[FrameLoop.SDL_QUIT]])
    as [o|] eqn:M; [|vm_compute in M; discriminate].
  assert (Ht : main_part sched_one_callback = trace o) by (vm_compute in M; injection M as <-; reflexivity).
  exact (proj2 (@audio_noninterference 64 Audio.half_sin quiet_driver ProgramBuilder.glsl410_driver
                  platform_ok _ o sched_one_callback M eq_refl Ht) ltac:(discriminate)).
Defined.

End Main.
